(** * eugenbot: the message classification and extraction engine

    A shallow embedding of [advanced_monitor.py] (class [AdvancedBotMonitor]),
    of [telegram_bot_parser.py] (class [TelegramBotParser]) and of the
    message handler of [telegram_integration.py], together with the
    properties of the extraction pipeline: contract location, chain
    normalisation, ticker extraction, blacklist, deduplication cache,
    and the way from a Telegram event to the clipboard and the browser.

    Python values are modelled as follows.
    - A [str] is a list of Unicode code points ([N]).  Everything the
      program does on ASCII characters is written out; what Python's
      Unicode database decides for code points from 128 on is taken
      from the class [Unicode], so a theorem holds whatever these
      tables are, unless it states what it takes of them
      ([python_tables]).
    - [re.search] is a backtracking matcher over the fragment of the
      [re] syntax that the program uses, written as the list of
      successes in backtracking order; the match is the first one.
    - [hash] on strings and the iteration order of a [set] are not fixed
      by the language; they are the fields of the class [Runtime].
    - The body of a [try] block is a computation in a state-and-exception
      monad; [except Exception] is [try_except].
    - The clipboard, the browser and the notifications receive events;
      log lines and time stamps are left out.
    - A Telegram event is a record of the attributes that the handlers
      read; the order of the bots in [config.json] is the class
      [BotOrder], and whether the desktop takes a text or a link is the
      class [Desktop]. *)

From Stdlib Require Import NArith ZArith String Ascii DecimalString Lia.
From stdpp Require Import base option list gmap sorting.

Set Default Proof Using "Type".
Open Scope N_scope.

(** ** Strings *)

Abbreviation char := N (only parsing).
Abbreviation str := (list N) (only parsing).

(** The code points of an ASCII literal of the source. *)
Definition cps (s : string) : str :=
  (λ a, N_of_ascii a) <$> list_ascii_of_string s.

(** What the Unicode database says about the code points outside ASCII:
    the classes behind [\w], [\s] and [\d], the pairs (literal, text
    character) that [re.IGNORECASE] identifies, and [str.lower] /
    [str.upper] on strings that are not pure ASCII. *)
Class Unicode := {
  uni_word : char → bool;
  uni_space : char → bool;
  uni_digit : char → bool;
  uni_ci_eq : char → char → bool;
  uni_lower : str → str;
  uni_upper : str → str
}.

Definition is_ascii (c : char) : bool := c <? 128.

Definition in_range (lo hi c : char) : bool := (lo <=? c) && (c <=? hi).

Section Chars.
Context `{Unicode}.

(** [\d] *)
Definition is_digit (c : char) : bool :=
  if is_ascii c then in_range 48 57 c else uni_digit c.

(** [\w]: alphanumerics and the underscore. *)
Definition is_word (c : char) : bool :=
  if is_ascii c
  then in_range 48 57 c || in_range 65 90 c || in_range 97 122 c || (c =? 95)
  else uni_word c.

(** [\s] for a [str] pattern: tab to carriage return, the four
    separators 0x1c-0x1f and the space, besides Unicode's own. *)
Definition is_space (c : char) : bool :=
  if is_ascii c
  then in_range 9 13 c || in_range 28 31 c || (c =? 32)
  else uni_space c.

Definition lower_ascii (c : char) : char :=
  if in_range 65 90 c then c + 32 else c.

Definition upper_ascii (c : char) : char :=
  if in_range 97 122 c then c - 32 else c.

(** [s.lower()] and [s.upper()] *)
Definition lower (s : str) : str :=
  if forallb is_ascii s then lower_ascii <$> s else uni_lower s.

Definition upper (s : str) : str :=
  if forallb is_ascii s then upper_ascii <$> s else uni_upper s.

(** A literal [l] of a pattern compiled with [re.IGNORECASE] against
    the character [c] of the text. *)
Definition ci_eq (l c : char) : bool :=
  if is_ascii c then lower_ascii l =? lower_ascii c else uni_ci_eq l c.
End Chars.

(** ** Regular expressions

    The fragment of Python's [re] syntax used by the program: literals
    (plain or under [re.IGNORECASE]), character sets, the classes
    [\w \s \d], sequence, alternation, numbered groups, greedy
    repetition of a one-character item, and [\b]. *)

Inductive citem :=
  | IChr (c : char)
  | IRange (lo hi : char)
  | IWord
  | ISpace
  | IDigit.

Inductive cset :=
  | Lit (c : char)
  | LitI (c : char)
  | OneOf (items : list citem)
  | NoneOf (items : list citem).

Inductive regex :=
  | Eps
  | One (cs : cset)
  | Seq (a b : regex)
  | Alt (a b : regex)
  | Group (n : nat) (a : regex)
  | Rep (cs : cset) (lo : nat) (hi : option nat)
  | Bound.

Declare Scope re_scope.
Delimit Scope re_scope with re.
Bind Scope re_scope with regex.
Infix "⋅" := Seq (at level 41, right associativity) : re_scope.
Infix "∣" := Alt (at level 51, right associativity) : re_scope.

(** [x+], [x*], [x?] and [x{lo,hi}] *)
Definition plus (cs : cset) : regex := Rep cs 1 None.
Definition star (cs : cset) : regex := Rep cs 0 None.
Definition opt (cs : cset) : regex := Rep cs 0 (Some 1%nat).

Definition word : cset := OneOf [IWord].
Definition space : cset := OneOf [ISpace].
Definition digit : cset := OneOf [IDigit].

(** A run of literal characters. *)
Definition lits (mk : char → cset) (l : str) : regex := foldr (λ c r, Seq (One (mk c)) r) Eps l.
Definition lit (s : string) : regex := lits Lit (cps s).
Definition litI (s : string) : regex := lits LitI (cps s).

(** Number of groups of a pattern ([re.Pattern.groups]). *)
Fixpoint ngroups (r : regex) : nat :=
  match r with
  | Seq a b | Alt a b => ngroups a `max` ngroups b
  | Group n a => n `max` ngroups a
  | _ => 0
  end.

Fixpoint has_bound (r : regex) : bool :=
  match r with
  | Seq a b | Alt a b => has_bound a || has_bound b
  | Group _ a => has_bound a
  | Bound => true
  | _ => false
  end.

(** The state of a match attempt: whether the character before the
    current position is a word character (false at the start of the
    text), the text still to read, and the groups captured so far. *)
Record mstate := MState {
  prev_word : bool;
  rest : str;
  caps : gmap nat str
}.

Section Engine.
Context `{Unicode}.

Definition item_match (i : citem) (c : char) : bool :=
  match i with
  | IChr x => c =? x
  | IRange lo hi => in_range lo hi c
  | IWord => is_word c
  | ISpace => is_space c
  | IDigit => is_digit c
  end.

Definition cs_match (cs : cset) (c : char) : bool :=
  match cs with
  | Lit x => c =? x
  | LitI x => ci_eq x c
  | OneOf items => existsb (λ i, item_match i c) items
  | NoneOf items => negb (existsb (λ i, item_match i c) items)
  end.

Definition room (n : nat) (hi : option nat) : bool :=
  match hi with None => true | Some h => (n <? h)%nat end.

(** Greedy repetition, [n] items taken so far: first everything that
    takes one more item, then stopping here. *)
Fixpoint rep_from (cs : cset) (lo : nat) (hi : option nat) (n : nat)
    (pw : bool) (s : str) (g : gmap nat str) : list mstate :=
  match s with
  | c :: t =>
      if cs_match cs c && room n hi
      then rep_from cs lo hi (S n) (is_word c) t g
      else []
  | [] => []
  end ++ (if (lo <=? n)%nat then [MState pw s g] else []).

Definition next_word (s : str) : bool :=
  match s with c :: _ => is_word c | [] => false end.

Definition set_group (n : nat) (st st' : mstate) : mstate :=
  MState (prev_word st') (rest st')
    (<[n := take (length (rest st) - length (rest st')) (rest st)]> (caps st')).

(** All the ways [r] matches at the position of [st], in the order in
    which the backtracking matcher finds them. *)
Fixpoint run (r : regex) (st : mstate) : list mstate :=
  match r with
  | Eps => [st]
  | One cs =>
      match rest st with
      | c :: t => if cs_match cs c then [MState (is_word c) t (caps st)] else []
      | [] => []
      end
  | Seq a b => run a st ≫= run b
  | Alt a b => run a st ++ run b st
  | Group n a => set_group n st <$> run a st
  | Rep cs lo hi => rep_from cs lo hi 0 (prev_word st) (rest st) (caps st)
  | Bound => if xorb (prev_word st) (next_word (rest st)) then [st] else []
  end.

(** The match object: where the match starts, its text, its groups. *)
Record Match := MkMatch {
  m_start : nat;
  m_text : str;
  m_groups : gmap nat str;
  m_ngroups : nat
}.

Definition match_at (r : regex) (i : nat) (pw : bool) (s : str) : option Match :=
  st ← head (run r (MState pw s ∅));
  Some (MkMatch i (take (length s - length (rest st)) s) (caps st) (ngroups r)).

(** [re.search]: the first match at the leftmost position that has one. *)
Fixpoint search_from (r : regex) (i : nat) (pw : bool) (s : str) : option Match :=
  match match_at r i pw s with
  | Some m => Some m
  | None =>
      match s with
      | c :: t => search_from r (S i) (is_word c) t
      | [] => None
      end
  end.

Definition re_search (r : regex) (s : str) : option Match := search_from r 0 false s.
End Engine.

(** ** The patterns of the program *)

Definition base58 : cset :=
  OneOf [IRange 49 57; IRange 65 72; IRange 74 78; IRange 80 90; IRange 97 107; IRange 109 122].

Definition hexx : cset := OneOf [IRange 97 102; IRange 65 70; IRange 48 57; IChr 120].

Definition nonspace : cset := NoneOf [ISpace; IChr 10].

(** [r'\b([1-9A-HJ-NP-Za-km-z]{32,44})\b'] *)
Definition solana_mint_re : regex :=
  Bound ⋅ Group 1 (Rep base58 32 (Some 44%nat)) ⋅ Bound.

(** [r'(#?SOLANA|\bsolana\b|\bSOL\b)'] with [re.IGNORECASE] *)
Definition solana_marker_re : regex :=
  Group 1 (opt (LitI 35) ⋅ litI "SOLANA" ∣ Bound ⋅ litI "solana" ⋅ Bound
           ∣ Bound ⋅ litI "SOL" ⋅ Bound).

(** [r'gmgn\.ai/(\w+)/token/([a-fA-F0-9x]+|[1-9A-HJ-NP-Za-km-z]+)'] *)
Definition gmgn_re : regex :=
  lit "gmgn.ai/" ⋅ Group 1 (plus word) ⋅ lit "/token/" ⋅ Group 2 (plus hexx ∣ plus base58).

(** [r'CA:\s*([^\s\n]+)'] *)
Definition ca_re : regex := lit "CA:" ⋅ star space ⋅ Group 1 (plus nonspace).

(** [r'Chain:\s*(\w+)'] *)
Definition chain_re : regex := lit "Chain:" ⋅ star space ⋅ Group 1 (plus word).

(** [r'dexscreener\.com/(\w+)/'] *)
Definition dexscreener_chain_re : regex :=
  lit "dexscreener.com/" ⋅ Group 1 (plus word) ⋅ lit "/".

(** [r'contract:\s*([^\s\n]+)'] with [re.IGNORECASE] *)
Definition contract_re : regex := litI "contract:" ⋅ star space ⋅ Group 1 (plus nonspace).

(** [r'network:\s*(\w+)'] with [re.IGNORECASE] *)
Definition network_re : regex := litI "network:" ⋅ star space ⋅ Group 1 (plus word).

(** [r'dexscreener\.com/(\w+)/([^)]+)'] *)
Definition dexscreener_re : regex :=
  lit "dexscreener.com/" ⋅ Group 1 (plus word) ⋅ lit "/" ⋅ Group 2 (plus (NoneOf [IChr 41])).

(** The grammars of [TelegramBotParser.ticker_patterns], which are the
    [pattern] entries of the default bot table of [bot_monitor.py]. *)
Module ticker_patterns.
Definition pct : regex := plus (OneOf [IDigit; IChr 46]) ⋅ lit "%".

(** [r'(\w+)\s+\|\s+[\d.]+%\s+\|\s+(Long|Short)'] *)
Definition mexc_tracker : regex :=
  Group 1 (plus word) ⋅ plus space ⋅ lit "|" ⋅ plus space ⋅ pct ⋅ plus space
  ⋅ lit "|" ⋅ plus space ⋅ Group 2 (lit "Long" ∣ lit "Short").

(** [r'(\w+)\s+\+[\d.]+%\s+in\s+\d+\s+secs!'] *)
Definition kormushka : regex :=
  Group 1 (plus word) ⋅ plus space ⋅ lit "+" ⋅ pct ⋅ plus space ⋅ lit "in"
  ⋅ plus space ⋅ plus digit ⋅ plus space ⋅ lit "secs!".

(** [r'🔻\s+(SHORT|LONG)\s+\$(\w+)\s+\+[\d.]+%\s+on\s+MEXC'] *)
Definition pumply : regex :=
  One (Lit 128315) ⋅ plus space ⋅ Group 1 (lit "SHORT" ∣ lit "LONG") ⋅ plus space
  ⋅ lit "$" ⋅ Group 2 (plus word) ⋅ plus space ⋅ lit "+" ⋅ pct ⋅ plus space
  ⋅ lit "on" ⋅ plus space ⋅ lit "MEXC".
End ticker_patterns.

(** ** Exceptions

    The exceptions that the modelled code can raise, and the result of a
    computation that may raise. *)

Inductive exn := KeyError | IndexError | AttributeError | ZeroDivisionError.

Inductive res (A : Type) :=
  | Ok (a : A)
  | Raise (e : exn).
Arguments Ok {A} a.
Arguments Raise {A} e.

#[global] Instance res_ret : MRet res := λ A a, Ok a.
#[global] Instance res_bind : MBind res := λ A B f x,
  match x with Ok a => f a | Raise e => Raise e end.

(** [try: body  except Exception: handler] *)
Definition try_except {A} (body : res A) (handler : exn → A) : res A :=
  match body with
  | Ok a => Ok a
  | Raise e => Ok (handler e)
  end.

(** [d[k]] on a dict *)
Definition getitem `{Countable K} {V} (d : gmap K V) (k : K) : res V :=
  match d !! k with Some v => Ok v | None => Raise KeyError end.

(** [x.m()] for a string method [m], on a value that may be [None]. *)
Definition call_str {A} (m : str → A) (x : option str) : res A :=
  match x with Some s => Ok (m s) | None => Raise AttributeError end.

(** A value in an f-string. *)
Definition fmt (x : option str) : str := default (cps "None") x.

(** [m.group(k)]: the text of group [k], [None] when the group took no
    part in the match, [IndexError] when the pattern has no such group. *)
Definition group (m : Match) (k : nat) : res (option str) :=
  if (k =? 0)%nat then Ok (Some (m_text m))
  else if (k <=? m_ngroups m)%nat then Ok (m_groups m !! k)
  else Raise IndexError.

(** [str(n)] for an [int] *)
Definition str_of_int (n : Z) : str := cps (NilZero.string_of_int (Z.to_int n)).

(** [l[k:]] *)
Definition slice_from {A} (k : Z) (l : list A) : list A :=
  let len := Z.of_nat (length l) in
  drop (Z.to_nat (if (k <? 0)%Z then Z.max (len + k) 0 else Z.min k len)) l.

(** ** The data model *)

Record ContractInfo := {
  type_ : str;
  chain : option str;
  contract : option str;
  url : str
}.

Record TickerData := {
  ticker : option str;
  direction : option str;
  dex_info : option ContractInfo;
  bot_name : str
}.

Record BotConfig := {
  username : str;
  pattern : regex;
  enabled : bool
}.

(** [config.json], as [load_config] returns it: the bot table, the
    entries of [settings] and [notifications] that the monitor reads, and
    the [blacklist] entry. *)
Record Config := {
  monitored_bots : gmap str BotConfig;
  auto_copy_clipboard : bool;
  auto_open_gmgn : bool;
  stats_interval : Z;
  max_errors : Z;
  notifications_enabled : bool;
  notifications_desktop : bool;
  notifications_sound : bool;
  blacklist_cfg_enabled : bool;
  blacklist_cfg_tickers : list str
}.

(** [self.stats]; [blacklisted_count] is [stats['blacklisted_tickers']]. *)
Record Stats := {
  messages_processed : Z;
  tickers_found : Z;
  blacklisted_count : Z;
  errors : Z
}.

(** The attributes of an [AdvancedBotMonitor].  [processed_messages] is
    a Python [set]: the list holds its elements in the order in which
    they were added to the present set object. *)
Record Monitor := {
  config : Config;
  stats : Stats;
  blacklist_enabled : bool;
  blacklisted_tickers : gset str;
  processed_messages : list Z;
  max_cache_size : Z
}.

(** [AdvancedBotMonitor.__init__] *)
Definition init (cfg : Config) : Monitor := {|
  config := cfg;
  stats := {| messages_processed := 0; tickers_found := 0; blacklisted_count := 0; errors := 0 |};
  blacklist_enabled := blacklist_cfg_enabled cfg;
  blacklisted_tickers := list_to_set (blacklist_cfg_tickers cfg);
  processed_messages := [];
  max_cache_size := 1000
|}.

(** What the monitor hands to its collaborators. *)
Inductive event :=
  | Clipboard (text : str)
  | Browser (link : str)
  | Notification (msg : str)
  | Beep
  | PrintStats
  | Disconnect
  | Exit (code : Z).

(** ** The monad of the methods: state, events, exceptions

    An exception leaves the changes made to the monitor so far in place. *)
Definition M (A : Type) : Type := Monitor → res A * Monitor * list event.

#[global] Instance M_ret : MRet M := λ A a self, (Ok a, self, []).
#[global] Instance M_bind : MBind M := λ A B f x self,
  match x self with
  | (Ok a, self', ev) => let '(r, self'', ev') := f a self' in (r, self'', ev ++ ev')
  | (Raise e, self', ev) => (Raise e, self', ev)
  end.

Definition get : M Monitor := λ self, (Ok self, self, []).
Definition emit (e : event) : M () := λ self, (Ok (), self, [e]).
Definition lift {A} (x : res A) : M A := λ self, (x, self, []).

(** [try: body  except Exception as e: handler] for a method body. *)
Definition try_exceptM {A} (body : M A) (handler : exn → M A) : M A := λ self,
  match body self with
  | (Ok a, self', ev) => (Ok a, self', ev)
  | (Raise e, self', ev) => let '(r, self'', ev') := handler e self' in (r, self'', ev ++ ev')
  end.

(** [self.stats = s] and [self.processed_messages = l] *)
Definition after_stats (f : Stats → Stats) (self : Monitor) : Monitor :=
  {| config := config self; stats := f (stats self);
     blacklist_enabled := blacklist_enabled self;
     blacklisted_tickers := blacklisted_tickers self;
     processed_messages := processed_messages self;
     max_cache_size := max_cache_size self |}.

Definition after_processed (l : list Z) (self : Monitor) : Monitor :=
  {| config := config self; stats := stats self;
     blacklist_enabled := blacklist_enabled self;
     blacklisted_tickers := blacklisted_tickers self;
     processed_messages := l;
     max_cache_size := max_cache_size self |}.

Definition set_stats (f : Stats → Stats) : M () := λ self, (Ok (), after_stats f self, []).

Definition set_processed (l : list Z) : M () := λ self, (Ok (), after_processed l self, []).

(** ** The monitor *)

(** [chain_mapping], the table written out three times in
    [extract_contract_info]. *)
Definition chain_mapping : gmap str str :=
  list_to_map [
    (cps "ethereum", cps "eth");
    (cps "arbitrum", cps "arb");
    (cps "bsc", cps "bsc");
    (cps "polygon", cps "polygon");
    (cps "base", cps "base");
    (cps "solana", cps "sol");
    (cps "avalanche", cps "avax");
    (cps "sol", cps "sol");
    (cps "bep20", cps "bsc")
  ].

(** [f"https://gmgn.ai/{chain}/token/{contract}"] *)
Definition gmgn_url (chain contract : option str) : str :=
  cps "https://gmgn.ai/" ++ fmt chain ++ cps "/token/" ++ fmt contract.

Section Monitor.
Context `{Unicode}.

(** [chain_mapping.get(chain.lower(), chain.lower())] *)
Definition gmgn_chain (chain : str) : str :=
  default (lower chain) (chain_mapping !! lower chain).

Definition contract_result (chain : str) (contract : option str) : ContractInfo :=
  let gmgn_chain := gmgn_chain chain in
  {| type_ := cps "contract"; chain := Some gmgn_chain; contract := contract;
     url := gmgn_url (Some gmgn_chain) contract |}.

(** The chain of a labelled contract: the field [label], else the chain
    of a dexscreener link, else ethereum. *)
Definition labelled_chain (label : regex) (message : str) : res str :=
  match re_search label message with
  | Some chain_match => group chain_match 1 ≫= call_str lower
  | None =>
      match re_search dexscreener_chain_re message with
      | Some chain_match => group chain_match 1 ≫= call_str lower
      | None => Ok (cps "ethereum")
      end
  end.

(** The body of the [try] block of [extract_contract_info]. *)
Definition locate (message : str) : res (option ContractInfo) :=
  let solana_mint_match := re_search solana_mint_re message in
  match solana_mint_match, re_search solana_marker_re message with
  | Some solana_mint_match, Some _ =>
      contract ← group solana_mint_match 1;
      let chain := Some (cps "sol") in
      Ok (Some {| type_ := cps "gmgn"; chain := chain; contract := contract;
                  url := gmgn_url chain contract |})
  | _, _ =>
  match re_search gmgn_re message with
  | Some gmgn_match =>
      chain ← group gmgn_match 1;
      contract ← group gmgn_match 2;
      Ok (Some {| type_ := cps "gmgn"; chain := chain; contract := contract;
                  url := gmgn_url chain contract |})
  | None =>
  match re_search ca_re message with
  | Some ca_match =>
      contract ← group ca_match 1;
      chain ← labelled_chain chain_re message;
      Ok (Some (contract_result chain contract))
  | None =>
  match re_search contract_re message with
  | Some contract_match =>
      contract ← group contract_match 1;
      chain ← labelled_chain network_re message;
      Ok (Some (contract_result chain contract))
  | None =>
  match re_search dexscreener_re message with
  | Some dexscreener_match =>
      chain ← group dexscreener_match 1;
      contract ← group dexscreener_match 2;
      gmgn_chain ← call_str gmgn_chain chain;
      Ok (Some {| type_ := cps "dexscreener"; chain := Some gmgn_chain;
                  contract := contract; url := gmgn_url (Some gmgn_chain) contract |})
  | None => Ok None
  end end end end end.

(** [extract_contract_info] *)
Definition extract_contract_info (message : str) : res (option ContractInfo) :=
  try_except (locate message) (λ _, None).

(** [is_ticker_blacklisted] *)
Definition is_ticker_blacklisted (ticker : option str) : M bool :=
  self ← get;
  if negb (blacklist_enabled self) then mret false
  else
    ticker_upper ← lift (call_str upper ticker);
    let is_blacklisted := bool_decide (ticker_upper ∈ blacklisted_tickers self) in
    (if is_blacklisted
     then set_stats (λ s, {| messages_processed := messages_processed s;
                             tickers_found := tickers_found s;
                             blacklisted_count := blacklisted_count s + 1;
                             errors := errors s |})
     else mret ());;
    mret is_blacklisted.

(** Which group holds the ticker and which the direction, per source. *)
Definition ticker_fields (bot_name : str) (ticker_match : Match)
    : res (option str * option str) :=
  if bool_decide (bot_name = cps "pumply_futures_dex") then
    direction ← group ticker_match 1;
    ticker ← group ticker_match 2;
    Ok (ticker, direction)
  else if bool_decide (bot_name = cps "mexcTracker") then
    ticker ← group ticker_match 1;
    direction ← group ticker_match 2;
    Ok (ticker, direction)
  else if bool_decide (bot_name = cps "MexcDexSpreadTracker") then
    direction ← group ticker_match 2;
    ticker ← group ticker_match 3;
    Ok (ticker, direction)
  else
    ticker ← group ticker_match 1;
    Ok (ticker, None).

(** The body of the [try] block of [extract_ticker_data]. *)
Definition ticker_data_of (message bot_name : str) : M (option TickerData) :=
  self ← get;
  bot_config ← lift (getitem (monitored_bots (config self)) bot_name);
  match re_search (pattern bot_config) message with
  | None => mret None
  | Some ticker_match =>
      '(ticker, direction) ← lift (ticker_fields bot_name ticker_match);
      blacklisted ← is_ticker_blacklisted ticker;
      if blacklisted : bool then mret None
      else
        dex_info ← lift (extract_contract_info message);
        mret (Some {| ticker := ticker; direction := direction;
                      dex_info := dex_info; bot_name := bot_name |})
  end.

(** [extract_ticker_data] *)
Definition extract_ticker_data (message bot_name : str) : M (option TickerData) :=
  try_exceptM (ticker_data_of message bot_name) (λ _, mret None).

(** [convert_ticker_to_mexc] *)
Definition convert_ticker_to_mexc (ticker : option str) : str :=
  cps "MEXC:" ++ fmt ticker ++ cps "USDT.p".

(** [copy_to_clipboard]; the clipboard is taken to accept the text. *)
Definition copy_to_clipboard (text : str) : M bool :=
  self ← get;
  if auto_copy_clipboard (config self) then emit (Clipboard text);; mret true
  else mret false.

(** [open_gmgn]; the browser is taken to open. *)
Definition open_gmgn (dex_info : option ContractInfo) : M bool :=
  self ← get;
  if negb (auto_open_gmgn (config self)) then mret false
  else match dex_info with
       | None => mret false
       | Some d => emit (Browser (url d));; mret true
       end.

(** [send_notification] *)
Definition send_notification (message : str) : M () :=
  self ← get;
  if negb (notifications_enabled (config self)) then mret ()
  else
    (if notifications_desktop (config self) then emit (Notification message) else mret ());;
    (if notifications_sound (config self) then emit Beep else mret ()).
End Monitor.

(** ** The deduplication cache and [process_message] *)

(** What Python leaves to the interpreter: the hash of a string, and the
    order in which a set with the given history of additions is
    iterated.  The iteration visits every element once. *)
Class Runtime := {
  py_hash : str → Z;
  set_iter : list Z → list Z;
  set_iter_perm : ∀ l, set_iter l ≡ₚ l
}.

(** [s.add(x)] *)
Definition set_add (x : Z) (s : list Z) : list Z :=
  if bool_decide (x ∈ s) then s else s ++ [x].

(** [set(l)] *)
Definition set_of_list (l : list Z) : list Z := foldl (λ s x, set_add x s) [] l.

Inductive outcome :=
  | Duplicate
  | NoTicker
  | Handled
  | Failed (e : exn)
  | Exited.

Section Process.
Context `{Unicode} `{Runtime}.

(** [hash(f"{bot_name}_{message_id}_{message[:100]}")] *)
Definition message_hash (message bot_name : str) (message_id : Z) : Z :=
  py_hash (bot_name ++ cps "_" ++ str_of_int message_id ++ cps "_" ++ take 100 message).

(** The first step of [process_message]: [true] when the message was
    seen before; otherwise its hash is added to the cache, which is cut
    down when it has grown beyond [max_cache_size]. *)
Definition seen_before (message bot_name : str) (message_id : Z) : M bool :=
  self ← get;
  let message_hash := message_hash message bot_name message_id in
  if bool_decide (message_hash ∈ processed_messages self) then mret true
  else
    set_processed (set_add message_hash (processed_messages self));;
    self ← get;
    (if (max_cache_size self <? Z.of_nat (length (processed_messages self)))%Z
     then set_processed
            (set_of_list (slice_from ((- max_cache_size self) `div` 2)%Z
                                     (set_iter (processed_messages self))))
     else mret ());;
    mret false.

Definition bump_processed (s : Stats) : Stats :=
  {| messages_processed := messages_processed s + 1; tickers_found := tickers_found s;
     blacklisted_count := blacklisted_count s; errors := errors s |}.

Definition bump_found (s : Stats) : Stats :=
  {| messages_processed := messages_processed s; tickers_found := tickers_found s + 1;
     blacklisted_count := blacklisted_count s; errors := errors s |}.

Definition bump_errors (s : Stats) : Stats :=
  {| messages_processed := messages_processed s; tickers_found := tickers_found s;
     blacklisted_count := blacklisted_count s; errors := errors s + 1 |}.

(** [f"Новый тикер от @{bot_name}: {ticker} -> {mexc_ticker}"] *)
Definition notification_msg (bot_name : str) (ticker : option str) (mexc_ticker : str) : str :=
  [1053; 1086; 1074; 1099; 1081; 32; 1090; 1080; 1082; 1077; 1088; 32; 1086; 1090; 32; 64]
  ++ bot_name ++ cps ": " ++ fmt ticker ++ cps " -> " ++ mexc_ticker.

(** What [process_message] does with a message that was not seen
    before. *)
Definition process_new (message bot_name : str) : M outcome :=
  set_stats bump_processed;;
  ticker_data ← extract_ticker_data message bot_name;
  match ticker_data with
  | None => mret NoTicker
  | Some ticker_data =>
      set_stats bump_found;;
      let ticker := ticker ticker_data in
      let mexc_ticker := convert_ticker_to_mexc ticker in
      copy_to_clipboard mexc_ticker;;
      open_gmgn (dex_info ticker_data);;
      send_notification (notification_msg bot_name ticker mexc_ticker);;
      self ← get;
      (if (stats_interval (config self) =? 0)%Z then lift (Raise ZeroDivisionError)
       else if (messages_processed (stats self) `mod` stats_interval (config self) =? 0)%Z
            then emit PrintStats
            else mret ());;
      mret Handled
  end.

(** The body of the [try] block of [process_message]. *)
Definition process_body (message bot_name : str) (message_id : Z) : M outcome :=
  seen ← seen_before message bot_name message_id;
  if seen : bool then mret Duplicate else process_new message bot_name.

(** The [except] block of [process_message]. *)
Definition on_error (e : exn) : M outcome :=
  set_stats bump_errors;;
  self ← get;
  if (max_errors (config self) <=? errors (stats self))%Z
  then emit Disconnect;; emit (Exit 1);; mret Exited
  else mret (Failed e).

(** [process_message] *)
Definition process_message (message bot_name : str) (message_id : Z) : M outcome :=
  try_exceptM (process_body message bot_name message_id) on_error.

(** The monitor after a call, whatever the call returned. *)
Definition after {A} (m : M A) (self : Monitor) : Monitor := (m self).1.2.

(** The monitors that a run can be in. *)
Inductive reachable (cfg : Config) : Monitor → Prop :=
  | reach_init : reachable cfg (init cfg)
  | reach_step self message bot_name message_id :
      reachable cfg self →
      reachable cfg (after (process_message message bot_name message_id) self).
End Process.

(** ** The handler of new messages *)

(** [l[a:b]] *)
Definition slice {A} (a b : Z) (l : list A) : list A :=
  let len := Z.of_nat (length l) in
  let clamp (k : Z) := (if k <? 0 then Z.max (len + k) 0 else Z.min k len)%Z in
  take (Z.to_nat (clamp b) - Z.to_nat (clamp a)) (drop (Z.to_nat (clamp a)) l).

(** [sep.join(l)] *)
Fixpoint join (sep : str) (l : list str) : str :=
  match l with
  | [] => []
  | x :: l' => match l' with [] => x | _ => x ++ sep ++ join sep l' end
  end.

(** What the handler reads of a message entity: its class and, by class,
    its [offset], [length] and [url]. *)
Inductive entity :=
  | MessageEntityUrl (offset length : Z)
  | MessageEntityTextUrl (offset length : Z) (target : option str)
  | MessageEntityOther.

(** A button of the inline keyboard: [getattr(btn, 'url', None)]. *)
Record KeyboardButton := {
  button_url : option str
}.

(** [event.message]: the text, the id, the entities and the rows of
    [reply_markup] ([None] without a markup or without rows). *)
Record TgMessage := {
  msg_message : str;
  msg_id : Z;
  msg_entities : option (list entity);
  msg_rows : option (list (list KeyboardButton))
}.

(** The event: [sender] is [None] when [event.sender] is not a [User],
    a [Channel] or a [Chat], and else its [username], if it has one. *)
Record NewMessage := {
  sender : option (option str);
  msg : TgMessage
}.

(** The order in which [config.json] lists the bots: the order of
    [self.config['monitored_bots'].items()]. *)
Class BotOrder := {
  bot_items : gmap str BotConfig → list (str * BotConfig);
  bot_items_perm : ∀ bots, bot_items bots ≡ₚ map_to_list bots
}.

(** A value that is true in a condition: a string that is neither [None]
    nor empty. *)
Definition truthy (x : option str) : option str :=
  match x with
  | Some [] | None => None
  | Some s => Some s
  end.

(** [_collect_embedded_urls] *)
Definition _collect_embedded_urls (event : NewMessage) : list str :=
  let entities := default [] (msg_entities (msg event)) in
  let message_text := msg_message (msg event) in
  ent ← entities;
  match ent with
  | MessageEntityUrl offset length => [slice offset (offset + length) message_text]
  | MessageEntityTextUrl _ _ target => option_list (truthy target)
  | MessageEntityOther => []
  end.

(** [_collect_button_urls] *)
Definition _collect_button_urls (event : NewMessage) : list str :=
  match msg_rows (msg event) with
  | None | Some [] => []
  | Some rows => row ← rows; btn ← row; option_list (truthy (button_url btn))
  end.

(** The loop of [handle_new_message] over the bot table: the first bot
    with the sender's username that is enabled. *)
Fixpoint find_bot (items : list (str * BotConfig)) (sender_username : str) : option str :=
  match items with
  | [] => None
  | (name, config) :: items =>
      if bool_decide (username config = sender_username) && enabled config
      then Some name
      else find_bot items sender_username
  end.

(** The text that goes to [process_message]: the text of the message
    and, on lines of their own, the links of its entities and buttons. *)
Definition with_urls (message_text : str) (extra_urls : list str) : str :=
  match extra_urls with
  | [] => message_text
  | _ => (message_text ++ [10]) ++ join [32; 10] extra_urls
  end.

Section Handler.
Context `{Unicode} `{Runtime} `{BotOrder}.

(** [handle_new_message]; the result is how [process_message] ended,
    [None] when the message was not passed on. *)
Definition handle_new_message (event : NewMessage) : M (option outcome) :=
  try_exceptM
    (match sender event with
     | None => mret None
     | Some sender_username =>
         match truthy sender_username with
         | None => mret None
         | Some sender_username =>
             self ← get;
             let bot_name := find_bot (bot_items (monitored_bots (config self))) sender_username in
             match truthy bot_name with
             | None => mret None
             | Some bot_name =>
                 let message_text := msg_message (msg event) in
                 let extra_urls := _collect_embedded_urls event ++ _collect_button_urls event in
                 let message_text := with_urls message_text extra_urls in
                 let message_id := msg_id (msg event) in
                 o ← process_message message_text bot_name message_id;
                 mret (Some o)
             end
         end
     end)
    (λ _, set_stats bump_errors;; mret None).
End Handler.

(** ** The stand-alone parser: [telegram_bot_parser.py] *)

(** Whether the desktop takes a text into the clipboard and a link into
    the browser; [pyperclip.copy] and [webbrowser.open] raise when it
    does not. *)
Class Desktop := {
  clipboard_accepts : str → bool;
  browser_opens : str → bool
}.

(** [try: return body  except Exception: return None] *)
Definition or_none {A} (body : res (option A)) : option A :=
  match body with
  | Ok a => a
  | Raise _ => None
  end.

Module TelegramBotParser.

(** [dex_patterns] *)
Module dex_patterns.
(** [r'dexscreener\.com/(\w+)/([a-fA-F0-9x]+)'] *)
Definition dexscreener : regex :=
  lit "dexscreener.com/" ⋅ Group 1 (plus word) ⋅ lit "/" ⋅ Group 2 (plus hexx).

(** [r'gmgn\.ai/(\w+)/token/([a-fA-F0-9x]+)'] *)
Definition gmgn : regex :=
  lit "gmgn.ai/" ⋅ Group 1 (plus word) ⋅ lit "/token/" ⋅ Group 2 (plus hexx).
End dex_patterns.

(** The result of a parser. *)
Record Parsed := {
  ticker : option str;
  direction : option str;
  dex_info : option ContractInfo;
  source : str
}.

Section Parser.
Context `{Unicode}.

(** The dexscreener link of a message, as [parse_mexc_tracker_message]
    and [parse_pumply_message] record it. *)
Definition dexscreener_info (message : str) : res (option ContractInfo) :=
  match re_search dex_patterns.dexscreener message with
  | Some dexscreener_match =>
      chain ← group dexscreener_match 1;
      contract ← group dexscreener_match 2;
      Ok (Some {| type_ := cps "dexscreener"; chain := chain; contract := contract;
                  url := cps "https://dexscreener.com/" ++ fmt chain ++ cps "/" ++ fmt contract |})
  | None => Ok None
  end.

(** [parse_mexc_tracker_message] *)
Definition parse_mexc_tracker_message (message : str) : option Parsed :=
  or_none
    match re_search ticker_patterns.mexc_tracker message with
    | None => Ok None
    | Some ticker_match =>
        ticker ← group ticker_match 1;
        direction ← group ticker_match 2;
        dex_info ← dexscreener_info message;
        Ok (Some {| ticker := ticker; direction := direction; dex_info := dex_info;
                    source := cps "mexc_tracker" |})
    end.

(** [parse_kormushka_message] *)
Definition parse_kormushka_message (message : str) : option Parsed :=
  or_none
    match re_search ticker_patterns.kormushka message with
    | None => Ok None
    | Some ticker_match =>
        ticker ← group ticker_match 1;
        dex_info ←
          match re_search dex_patterns.gmgn message with
          | Some gmgn_match =>
              chain ← group gmgn_match 1;
              contract ← group gmgn_match 2;
              Ok (Some {| type_ := cps "gmgn"; chain := chain; contract := contract;
                          url := gmgn_url chain contract |})
          | None => Ok None
          end;
        Ok (Some {| ticker := ticker; direction := None; dex_info := dex_info;
                    source := cps "kormushka" |})
    end.

(** [parse_pumply_message] *)
Definition parse_pumply_message (message : str) : option Parsed :=
  or_none
    match re_search ticker_patterns.pumply message with
    | None => Ok None
    | Some ticker_match =>
        direction ← group ticker_match 1;
        ticker ← group ticker_match 2;
        dex_info ← dexscreener_info message;
        Ok (Some {| ticker := ticker; direction := direction; dex_info := dex_info;
                    source := cps "pumply" |})
    end.

(** [convert_ticker_to_mexc_format] *)
Definition convert_ticker_to_mexc_format (ticker : option str) : str :=
  cps "MEXC:" ++ fmt ticker ++ cps "USDT.p".

(** The loop of [process_message]: the first parser with a result. *)
Fixpoint first_result (parsers : list (str → option Parsed)) (message : str) : option Parsed :=
  match parsers with
  | [] => None
  | parser :: parsers =>
      match parser message with
      | Some result => Some result
      | None => first_result parsers message
      end
  end.

(** [process_message] *)
Definition process_message (message : str) : option Parsed :=
  let parsers := [parse_mexc_tracker_message; parse_kormushka_message; parse_pumply_message] in
  first_result parsers message.

Context `{Desktop}.

(** [copy_to_clipboard]: the result and what the desktop received. *)
Definition copy_to_clipboard (text : str) : bool * list event :=
  if clipboard_accepts text then (true, [Clipboard text]) else (false, []).

(** [open_gmgn_in_browser] *)
Definition open_gmgn_in_browser (dex_info : option ContractInfo) : bool * list event :=
  match dex_info with
  | None => (false, [])
  | Some dex_info =>
      let open (link : str) :=
        if browser_opens link then (true, [Browser link]) else (false, []) in
      if bool_decide (type_ dex_info = cps "gmgn") then open (url dex_info)
      else if bool_decide (type_ dex_info = cps "dexscreener")
      then open (gmgn_url (chain dex_info) (contract dex_info))
      else (false, [])
  end.

(** [handle_message] *)
Definition handle_message (message : str) : bool * list event :=
  match process_message message with
  | None => (false, [])
  | Some parsed_data =>
      let mexc_ticker := convert_ticker_to_mexc_format (ticker parsed_data) in
      let '(copied, ev) := copy_to_clipboard mexc_ticker in
      if negb copied then (false, ev)
      else
        match dex_info parsed_data with
        | Some info => (true, ev ++ (open_gmgn_in_browser (Some info)).2)
        | None => (true, ev)
        end
  end.
End Parser.
End TelegramBotParser.

(** ** The handler of [telegram_integration.py] *)

Module TelegramIntegration.

(** [bot_usernames] *)
Definition bot_usernames : list str :=
  [cps "mexcTracker"; cps "kormushka_mexc"; cps "pumply_futures_dex"].

Section Integration.
Context `{Unicode} `{Desktop}.

(** [handle_new_message]: what the desktop received.  [sender] is the
    sender of the event, if it has one, with its [username], if it has
    one. *)
Definition handle_new_message (sender : option (option str)) (message_text : str)
    : list event :=
  let sender_username := sender ≫= id in
  match sender_username with
  | Some name =>
      if bool_decide (name ∈ bot_usernames)
      then (TelegramBotParser.handle_message message_text).2
      else []
  | None => []
  end.
End Integration.
End TelegramIntegration.

(** ** A concrete interpreter, for the examples

    Unicode tables that know nothing outside ASCII, a polynomial string
    hash, and sets iterated in the order of the slots [h mod 2048] of a
    hash table of 2048 entries (the size of CPython's table for a set of
    a thousand elements). *)

Definition ascii_only : Unicode := {|
  uni_word _ := false;
  uni_space _ := false;
  uni_digit _ := false;
  uni_ci_eq _ _ := false;
  uni_lower s := s;
  uni_upper s := s
|}.

Definition poly_hash (s : str) : Z :=
  foldl (λ h c, (h * 31 + Z.of_N c) `mod` 2 ^ 61)%Z 7%Z s.

Definition slot (h : Z) : Z := (h `mod` 2048)%Z.

Definition slot_le (a b : Z) : Prop := (slot a ≤ slot b)%Z.

#[global] Instance slot_le_dec a b : Decision (slot_le a b) := Z.le_dec _ _.

Definition by_slot (l : list Z) : list Z := merge_sort slot_le l.

Definition slot_order : Runtime := {|
  py_hash := poly_hash;
  set_iter := by_slot;
  set_iter_perm := merge_sort_Permutation _
|}.

(** Sets iterated in the order of insertion. *)
Definition insertion_order : Runtime := {|
  py_hash := poly_hash;
  set_iter l := l;
  set_iter_perm l := reflexivity l
|}.

(** The bot table of [bot_monitor.py] as the configuration, everything
    switched on. *)
Definition bot (name : string) (p : regex) : str * BotConfig :=
  (cps name, {| username := cps name; pattern := p; enabled := true |}).

Definition default_config (blacklist : list str) : Config := {|
  monitored_bots := list_to_map [
    bot "mexcTracker" ticker_patterns.mexc_tracker;
    bot "kormushka_mexc" ticker_patterns.kormushka;
    bot "pumply_futures_dex" ticker_patterns.pumply ];
  auto_copy_clipboard := true;
  auto_open_gmgn := true;
  stats_interval := 10;
  max_errors := 10;
  notifications_enabled := true;
  notifications_desktop := true;
  notifications_sound := false;
  blacklist_cfg_enabled := true;
  blacklist_cfg_tickers := blacklist
|}.

(** The bots in the order of their names. *)
Definition name_order : BotOrder := {|
  bot_items := map_to_list;
  bot_items_perm bots := reflexivity _
|}.

(** A desktop that takes every text and every link. *)
Definition willing_desktop : Desktop := {|
  clipboard_accepts _ := true;
  browser_opens _ := true
|}.

(** The default configuration with another [stats_interval] and
    [max_errors]. *)
Definition config_with (interval errors : Z) : Config := {|
  monitored_bots := monitored_bots (default_config []);
  auto_copy_clipboard := true;
  auto_open_gmgn := true;
  stats_interval := interval;
  max_errors := errors;
  notifications_enabled := true;
  notifications_desktop := true;
  notifications_sound := false;
  blacklist_cfg_enabled := true;
  blacklist_cfg_tickers := []
|}.

(** Tables unlike Python's, for one example: the letter [é] is a word
    character and white space at once. *)
Definition blurred : Unicode := {|
  uni_word c := c =? 233;
  uni_space c := c =? 233;
  uni_digit _ := false;
  uni_ci_eq _ _ := false;
  uni_lower s := s;
  uni_upper s := s
|}.

(** * The vocabulary of the properties *)

(** ** The matcher *)

(** Group [n] is set by every match of the pattern. *)
Fixpoint binds (r : regex) (n : nat) : bool :=
  match r with
  | Seq a b => binds a n || binds b n
  | Alt a b => binds a n && binds b n
  | Group k a => bool_decide (k = n) || binds a n
  | _ => false
  end.

(** The state [st] of a match attempt on a text, seen as a state on that
    text followed by [v]. *)
Definition ext (v : str) (st : mstate) : mstate :=
  MState (prev_word st) (rest st ++ v) (caps st).

(** The attempt has not read into the last [n] characters. *)
Definition leaves (n : nat) (st : mstate) : Prop := (n ≤ length (rest st))%nat.

#[global] Instance leaves_dec n st : Decision (leaves n st) := le_dec _ _.

(** Two states that differ at most in the character before them. *)
Definition same_place (st1 st2 : mstate) : Prop :=
  rest st1 = rest st2 ∧ caps st1 = caps st2.

(** Two match objects with the same text and groups. *)
Definition same_match (a b : option Match) : Prop :=
  (λ m, (m_text m, m_groups m, m_ngroups m)) <$> a =
  (λ m, (m_text m, m_groups m, m_ngroups m)) <$> b.

Section Around.
Context `{Unicode}.

(** Whether the last character of [u] is a word character; [pw] when
    [u] is empty. *)
Definition last_word (pw : bool) (u : str) : bool := foldl (λ _ c, is_word c) pw u.
End Around.

(** ** The contract locator *)

Section LocatorVocabulary.
Context `{Unicode}.

(** The direct-mint strategy fires: a base58 token of 32 to 44
    characters and a Solana marker. *)
Definition direct_mint (message : str) : bool :=
  bool_decide (is_Some (re_search solana_mint_re message)) &&
  bool_decide (is_Some (re_search solana_marker_re message)).

(** [tok] is the first run of non-whitespace characters after a label in
    [message], taken whole: only whitespace lies between the label and
    the run, and whitespace or the end of the message follows it. *)
Definition token_after (label : str → Prop) (message tok : str) : Prop :=
  ∃ pre lab ws post,
    message = pre ++ lab ++ ws ++ tok ++ post ∧ label lab ∧
    Forall (λ c, is_space c = true) ws ∧
    tok ≠ [] ∧ Forall (λ c, is_space c = false) tok ∧
    match post with [] => True | c :: _ => is_space c = true end.

(** The text is [CA:]. *)
Definition is_CA (lab : str) : Prop := lab = cps "CA:".

(** The text is [contract:] in any case. *)
Definition is_contract (lab : str) : Prop :=
  Forall2 (λ l c, ci_eq l c = true) (cps "contract:") lab.
End LocatorVocabulary.

(** ** Ticker extraction *)

(** The ticker and the direction of a result of [extract_ticker_data]. *)
Definition signal (r : res (option TickerData)) : option (option str * option str) :=
  match r with
  | Ok (Some data) => Some (ticker data, direction data)
  | _ => None
  end.

Section ExtractionVocabulary.
Context `{Unicode}.

(** The ticker that a message yields for a source, before the
    blacklist: the group that the source's layout names, in the first
    match of the source's pattern. *)
Definition extracted (self : Monitor) (message bot_name : str)
    : option (option str * option str) :=
  bot_config ← monitored_bots (config self) !! bot_name;
  ticker_match ← re_search (pattern bot_config) message;
  match ticker_fields bot_name ticker_match with
  | Ok fields => Some fields
  | Raise _ => None
  end.

(** The blacklist stops the ticker [t] (a ticker that is [None] stops
    the extraction by an [AttributeError]). *)
Definition blocked (self : Monitor) (t : option str) : bool :=
  blacklist_enabled self &&
  match t with
  | Some s => bool_decide (upper s ∈ blacklisted_tickers self)
  | None => true
  end.
End ExtractionVocabulary.

(** ** The monitor and its cache *)

(** Methods that leave the cache, its bound and the configuration alone. *)
Definition same_cache (self self' : Monitor) : Prop :=
  processed_messages self' = processed_messages self ∧
  max_cache_size self' = max_cache_size self ∧
  config self' = config self ∧
  blacklist_enabled self' = blacklist_enabled self ∧
  blacklisted_tickers self' = blacklisted_tickers self.

Definition keeps_cache {A} (m : M A) : Prop := ∀ self, same_cache self (after m self).

(** What a method can return. *)
Definition yields {A} (P : A → Prop) (m : M A) : Prop :=
  ∀ self a, (m self).1.1 = Ok a → P a.

Section CacheVocabulary.
Context `{Runtime}.

(** The cache after the message with hash [h] went through the first
    step of [process_message]. *)
Definition record (max : Z) (h : Z) (cache : list Z) : list Z :=
  if bool_decide (h ∈ cache) then cache
  else
    let cache' := set_add h cache in
    if (max <? Z.of_nat (length cache'))%Z
    then set_of_list (slice_from ((- max) `div` 2)%Z (set_iter cache'))
    else cache'.
End CacheVocabulary.

(** What holds of the cache throughout a run. *)
Definition cache_inv (self : Monitor) : Prop :=
  max_cache_size self = 1000%Z ∧
  NoDup (processed_messages self) ∧
  (length (processed_messages self) ≤ 1000)%nat.

(** The monitor after the messages with the given ids, same text and
    source, were delivered in order. *)
Definition deliver `{Unicode} `{Runtime} (message bot_name : str) (ids : list Z)
    (self : Monitor) : Monitor :=
  foldl (λ s i, after (process_message message bot_name i) s) self ids.

Definition ftt_message : str := cps "FTT +3.61% in 10 secs!".

Definition first_ids (n : nat) : list Z := Z.of_nat <$> seq 1 n.

(** ** Groups, steps and links *)

(** The bodies of the groups numbered [n] in a pattern. *)
Fixpoint bodies (r : regex) (n : nat) : list regex :=
  match r with
  | Seq a b | Alt a b => bodies a n ++ bodies b n
  | Group k a => (if bool_decide (k = n) then [a] else []) ++ bodies a n
  | _ => []
  end.

(** The text read between two states of a match attempt. *)
Definition taken (st st' : mstate) : str :=
  take (length (rest st) - length (rest st')) (rest st).

(** All the characters of a text are in a set. *)
Definition all_in `{Unicode} (cs : cset) (s : str) : Prop :=
  Forall (λ c, cs_match cs c = true) s.

(** ** The pipeline of [process_message] *)

(** A hit of the blacklist is counted. *)
Definition bump_blacklisted (s : Stats) : Stats :=
  {| messages_processed := messages_processed s; tickers_found := tickers_found s;
     blacklisted_count := blacklisted_count s + 1; errors := errors s |}.

Section PipelineVocabulary.
Context `{Unicode}.

(** What [extract_ticker_data] returns: the fields that the layout of
    the source names, unless the blacklist stops the ticker, and what
    the contract locator finds in the message. *)
Definition ticker_data (self : Monitor) (message bot_name : str) : option TickerData :=
  '(t, d) ← extracted self message bot_name;
  if blocked self t then None
  else Some {| ticker := t; direction := d; dex_info := or_none (locate message);
               bot_name := bot_name |}.

(** The monitor after [extract_ticker_data]: a ticker found in the
    blacklist is counted. *)
Definition counted (self : Monitor) (message bot_name : str) : Monitor :=
  match extracted self message bot_name with
  | Some (Some t, _) =>
      if blocked self (Some t) then after_stats bump_blacklisted self else self
  | _ => self
  end.

(** What the desktop receives for a signal: the symbol for the
    clipboard, the link for the browser, the notification. *)
Definition effects (cfg : Config) (data : TickerData) : list event :=
  let mexc_ticker := convert_ticker_to_mexc (ticker data) in
  (if auto_copy_clipboard cfg then [Clipboard mexc_ticker] else []) ++
  (if auto_open_gmgn cfg
   then match dex_info data with Some info => [Browser (url info)] | None => [] end
   else []) ++
  (if notifications_enabled cfg
   then (if notifications_desktop cfg
         then [Notification (notification_msg (bot_name data) (ticker data) mexc_ticker)]
         else []) ++
        (if notifications_sound cfg then [Beep] else [])
   else []).
End PipelineVocabulary.

Section RecordedVocabulary.
Context `{Unicode} `{Runtime}.

(** The monitor when a new message has been recorded and counted. *)
Definition recorded (message bot_name : str) (message_id : Z) (self : Monitor) : Monitor :=
  after_stats bump_processed
    (after_processed (record (max_cache_size self) (message_hash message bot_name message_id)
                             (processed_messages self)) self).

End RecordedVocabulary.

(** The counters of a run: every ticker found or stopped by the
    blacklist belongs to a message that was processed, and every error
    to a ticker that was found. *)
Definition stats_inv (self : Monitor) : Prop :=
  let s := stats self in
  (0 ≤ errors s ∧ errors s ≤ tickers_found s ∧ 0 ≤ blacklisted_count s ∧
   tickers_found s + blacklisted_count s ≤ messages_processed s ∧
   Z.of_nat (length (processed_messages self)) ≤ messages_processed s)%Z.

(** ** The stand-alone parser *)

Section ParserVocabulary.
Context `{Unicode}.

(** The link that a parser records, if any: a dexscreener or a gmgn.ai
    link of the message with a chain of word characters and an address
    of [a-fA-F0-9x]. *)
Definition parser_link (message : str) (info : option ContractInfo) : Prop :=
  match info with
  | None => True
  | Some info =>
      ∃ pre c a post,
        c ≠ [] ∧ Forall (λ x, is_word x = true) c ∧ a ≠ [] ∧ all_in hexx a ∧
        chain info = Some c ∧ contract info = Some a ∧
        ((type_ info = cps "dexscreener" ∧
          message = pre ++ cps "dexscreener.com/" ++ c ++ cps "/" ++ a ++ post ∧
          url info = cps "https://dexscreener.com/" ++ c ++ cps "/" ++ a) ∨
         (type_ info = cps "gmgn" ∧
          message = pre ++ cps "gmgn.ai/" ++ c ++ cps "/token/" ++ a ++ post ∧
          url info = cps "https://gmgn.ai/" ++ c ++ cps "/token/" ++ a))
  end.

End ParserVocabulary.

(** ** Separators *)

(** The character sets of a pattern. *)
Fixpoint sets (r : regex) : list cset :=
  match r with
  | One cs | Rep cs _ _ => [cs]
  | Seq a b | Alt a b => sets a ++ sets b
  | Group _ a => sets a
  | _ => []
  end.

(** No part of the pattern matches the character [c]. *)
Definition never_reads `{Unicode} (r : regex) (c : char) : Prop :=
  Forall (λ cs, cs_match cs c = false) (sets r).

(** ** The address of a link *)

(** The text [w] does not occur in [s] before the position [n]. *)
Definition not_before (w : str) (n : nat) (s : str) : Prop :=
  ∀ u v, s = u ++ w ++ v → (n ≤ length u)%nat.

Section AddressVocabulary.
Context `{Unicode}.

(** The text does not go on with a character of the set. *)
Definition ends_run (cs : cset) (post : str) : Prop :=
  match post with [] => True | x :: _ => cs_match cs x = false end.

(** [a], with the text [post] after it, is an address that the pattern
    of the gmgn.ai link takes whole: characters of [a-fA-F0-9x] only,
    or base58 characters only, the first of them not in [a-fA-F0-9x];
    and [post] does not go on with a character of either alphabet. *)
Definition whole_address (a post : str) : Prop :=
  a ≠ [] ∧
  (all_in hexx a ∨ (all_in base58 a ∧ cs_match hexx <$> head a = Some false)) ∧
  ends_run hexx post ∧ ends_run base58 post.
End AddressVocabulary.

(** ** The texts of a pattern *)

Section TextVocabulary.
Context `{Unicode}.

(** The texts that a pattern reads from their first to their last
    character; [\b] reads nothing. *)
Fixpoint matches (r : regex) (w : str) : Prop :=
  match r with
  | Eps | Bound => w = []
  | One cs => ∃ c, w = [c] ∧ cs_match cs c = true
  | Seq a b => ∃ w1 w2, w = w1 ++ w2 ∧ matches a w1 ∧ matches b w2
  | Alt a b => matches a w ∨ matches b w
  | Group _ a => matches a w
  | Rep cs lo _ => all_in cs w ∧ (lo ≤ length w)%nat
  end.

(** Two texts of the pattern that begin at the same place end at the
    same place. *)
Definition pfree (r : regex) : Prop :=
  ∀ w1 w2 z1 z2, matches r w1 → matches r w2 → w1 ++ z1 = w2 ++ z2 → w1 = w2.

(** Every text of the pattern begins with a character outside the set. *)
Definition starts_outside (cs : cset) (r : regex) : Prop :=
  ∀ w, matches r w → ∃ c w', w = c :: w' ∧ cs_match cs c = false.

(** Every text of the pattern begins with the character [c]. *)
Definition starts_with (c : char) (r : regex) : Prop :=
  ∀ w, matches r w → ∃ w', w = c :: w'.

(** A match of the pattern that begins at or before another one, and
    ends at or after it, ends where it ends. *)
Definition stops (p : regex) : Prop :=
  ∀ pw1 pw2 g1 g2 x s st st',
    st ∈ run p (MState pw1 (x ++ s) g1) → st' ∈ run p (MState pw2 s g2) →
    (length (rest st) ≤ length (rest st'))%nat → rest st = rest st'.

(** What the properties of the text before a signal take of Python's
    Unicode tables: no character is both a word character and white
    space, and the sign [🔻] is neither a word character, nor white
    space, nor a digit. *)
Definition python_tables : Prop :=
  (∀ c, is_word c = true → is_space c = false) ∧
  is_word 128315 = false ∧ is_space 128315 = false ∧ is_digit 128315 = false.
End TextVocabulary.

(** The pattern cut at its first literal [c] that is not inside a
    group, a choice or a repetition: what comes before it and what
    comes after it. *)
Fixpoint cut (c : char) (r : regex) : option (regex * regex) :=
  match r with
  | One (Lit x) => if x =? c then Some (Eps, Eps) else None
  | Seq a b =>
      match cut c a with
      | Some (a1, a2) => Some (a1, Seq a2 b)
      | None =>
          match cut c b with
          | Some (b1, b2) => Some (Seq a b1, b2)
          | None => None
          end
      end
  | _ => None
  end.

(** ** Messages of the examples *)

Definition nl : str := [10].

Definition ftt_gmgn_message : str :=
  cps "FTT +3.61% in 10 secs!" ++ nl ++
  cps "MEXC (https://futures.mexc.com/exchange/FTT_USDT) - GMGN (https://gmgn.ai/eth/token/0x50d1c9771902476076ecfc8b2a83ad6b9355a4c9) | Limit ~$95900" ++ nl ++
  cps "CA: 0xde4EE8057785A7e8e800Db58F9784845A5C2Cbd6".

Definition solana_gmgn_message : str :=
  cps "CA: 7xKXtg2CW87d97TXJSDpbD5jBkheTqA83TZRuJosgAsU" ++ nl ++
  cps "GMGN (https://gmgn.ai/sol/token/So11111111111111111111111111111111111111112)".

Definition dexscreener_message : str :=
  cps "RICE listed, chart (https://dexscreener.com/bsc/0x2afdf2cd0384a3b5d7836b70c8da5e73841ba826) today".

Definition truncated_ca_message : str :=
  cps "DEXE | 8.17% | Long" ++ nl ++ cps "CA: 3a...(see-pinned)!" ++ nl ++ cps "Chain: ethereum".

Definition punctuated_contract_message : str :=
  cps "Contract:   <ask-admin>,soon" ++ nl ++ cps "network: BEP20".

Definition dexe_line : str := cps "DEXE | 8.17% | Long".

Definition dexe_before : str :=
  cps "Arbitrage (https://t.me/c/2447107119/77592) with DEXE ended 1m, 5s" ++ nl ++ nl.

Definition dexe_after : str :=
  cps " " ++ nl ++ nl ++
  cps "Price Gate (https://www.gate.io/futures/USDT/DEXE_USDT?ref=VLMQUL9YCA): 8.944" ++ nl ++
  cps "CA: 0xde4EE8057785A7e8e800Db58F9784845A5C2Cbd6" ++ nl ++ cps "Chain: ethereum".

Definition doge_message : str := cps "doge | 8.17% | Long".

Definition ftt_link : str :=
  cps "https://gmgn.ai/eth/token/0x50d1c9771902476076ecfc8b2a83ad6b9355a4c9".

(** The kormushka message as Telegram delivers it: the links are behind
    the words [MEXC] and [GMGN]. *)
Definition ftt_event : NewMessage := {|
  sender := Some (Some (cps "kormushka_mexc"));
  msg := {| msg_message := cps "FTT +3.61% in 10 secs!" ++ [10] ++ cps "MEXC - GMGN | Limit ~$95900";
            msg_id := 77592;
            msg_entities := Some [MessageEntityTextUrl 23 4
                                    (Some (cps "https://futures.mexc.com/exchange/FTT_USDT"));
                                  MessageEntityTextUrl 30 4 (Some ftt_link)];
            msg_rows := None |}
|}.

(** A message of somebody else, with a link in the text and a button. *)
Definition stranger_event : NewMessage := {|
  sender := Some (Some (cps "somebody"));
  msg := {| msg_message := cps "see gmgn.ai/eth/token/0xabc now";
            msg_id := 5;
            msg_entities := Some [MessageEntityUrl 4 23];
            msg_rows := Some [[ {| button_url := Some ftt_link |};
                                {| button_url := None |} ]] |}
|}.

Definition rain_message : str :=
  cps "RAIN | 8.05% | Short " ++ [10] ++
  cps "Price Dexscreener (https://dexscreener.com/arbitrum/0x25118290e6A5f4139381D072181157035864099d): 0.003415".

Definition pumply_message : str :=
  [128315] ++ cps " SHORT $RICE +6.32% on MEXC" ++ [10] ++
  cps "network: BEP20 (https://dexscreener.com/bsc/0x2afdf2cd0384a3b5d7836b70c8da5e73841ba826)" ++ [10] ++
  cps "contract: 0xb5761f36FdFE2892f1b54Bc8EE8baBb2a1b698D3".

Definition bare_ca_message : str := cps "CA: 0xde4EE8057785A7e8e800Db58F9784845A5C2Cbd6".

(** Two texts that differ after their first hundred characters. *)
Definition long_message (ending : string) : str := replicate 100 65 ++ cps ending.

(** A link whose base58 address begins with characters of
    [a-fA-F0-9x], on a chain that is no Solana marker. *)
Definition cut_short_message : str :=
  cps "GMGN (https://gmgn.ai/bsc/token/7xKXtg2CW87d97TXJSDpbD5jBkheTqA83TZRuJosgAsU)" ++ nl ++
  cps "CA: 0xabc".

(** A link with a base58 address that begins outside [a-fA-F0-9x]. *)
Definition tron_message : str :=
  cps "USDT: gmgn.ai/tron/token/TR7NHqjeKQxGTCi8q8ZY4pL8otSzgjLj6t (TRC20)".

Definition pumply_line : str := [128315] ++ cps " SHORT $RICE +6.32% on MEXC".

(** A text in which the grammar of mexcTracker matches, but not at its
    beginning. *)
Definition late_match : str := cps "| 1% | Long DEXE | 8% | Short".

(** * Properties *)

(** ** The monad of the methods *)

Lemma bind_get {B} (f : Monitor → M B) self : (get ≫= f) self = f self self.
Proof. unfold mbind, M_bind, get. by destruct (f self self) as [[??]?]. Qed.

Lemma bind_ret {A B} (a : A) (f : A → M B) self : (mret a ≫= f) self = f a self.
Proof. unfold mbind, M_bind, mret, M_ret. by destruct (f a self) as [[??]?]. Qed.

Lemma bind_lift_ok {A B} (a : A) (f : A → M B) self : (lift (Ok a) ≫= f) self = f a self.
Proof. unfold mbind, M_bind, lift. by destruct (f a self) as [[??]?]. Qed.

Lemma bind_set_stats {B} g (f : () → M B) self :
  (set_stats g ≫= f) self = f () (after_stats g self).
Proof. unfold mbind, M_bind, set_stats, after_stats. by destruct (f _ _) as [[??]?]. Qed.

Lemma bind_set_processed {B} l (f : () → M B) self :
  (set_processed l ≫= f) self = f () (after_processed l self).
Proof. unfold mbind, M_bind, set_processed, after_processed. by destruct (f _ _) as [[??]?]. Qed.

Lemma bind_bind {A B C} (x : M A) (f : A → M B) (g : B → M C) self :
  ((x ≫= f) ≫= g) self = (x ≫= λ a, f a ≫= g) self.
Proof.
  unfold mbind, M_bind.
  destruct (x self) as [[[a|e] s1] ev1]; [|done].
  destruct (f a s1) as [[[b|e] s2] ev2]; [|done].
  destruct (g b s2) as [[r s3] ev3]. by rewrite (assoc (++)).
Qed.

(** ** The matcher *)

Section EngineFacts.
Context `{Unicode}.

Lemma rep_from_caps cs lo hi n pw s g st :
  st ∈ rep_from cs lo hi n pw s g → caps st = g.
Proof.
  revert n pw. induction s as [|c t IH]; intros n pw; simpl.
  - destruct (lo <=? n)%nat; simpl; [|by intros ?%elem_of_nil].
    by intros ->%list_elem_of_singleton.
  - rewrite elem_of_app. intros [Hin|Hin].
    + destruct (cs_match cs c && room n hi); [eauto|by apply elem_of_nil in Hin].
    + destruct (lo <=? n)%nat; [|by apply elem_of_nil in Hin].
      by apply list_elem_of_singleton in Hin as ->.
Qed.

(** The text left after a match is a suffix of the text before it. *)
Lemma rep_from_suffix cs lo hi n pw s g st :
  st ∈ rep_from cs lo hi n pw s g → rest st `suffix_of` s.
Proof.
  revert n pw. induction s as [|c t IH]; intros n pw; simpl.
  - destruct (lo <=? n)%nat; simpl; [|by intros ?%elem_of_nil].
    by intros ->%list_elem_of_singleton.
  - rewrite elem_of_app. intros [Hin|Hin].
    + destruct (cs_match cs c && room n hi); [|by apply elem_of_nil in Hin].
      apply suffix_cons_r. eauto.
    + destruct (lo <=? n)%nat; [|by apply elem_of_nil in Hin].
      by apply list_elem_of_singleton in Hin as ->.
Qed.

Lemma run_suffix r st st' : st' ∈ run r st → rest st' `suffix_of` rest st.
Proof.
  revert st st'. induction r as [|cs|a IHa b IHb|a IHa b IHb|n a IHa|cs lo hi|];
    intros st st'; simpl.
  - by intros ->%list_elem_of_singleton.
  - destruct (rest st) as [|c t]; [by intros ?%elem_of_nil|].
    destruct (cs_match cs c); [|by intros ?%elem_of_nil].
    intros ->%list_elem_of_singleton. simpl. by apply suffix_cons_r.
  - intros (mid & Hb & Ha)%list_elem_of_bind.
    etrans; [by apply IHb|by apply IHa].
  - rewrite elem_of_app. intros [?|?]; eauto.
  - intros (st0 & -> & Hin)%list_elem_of_fmap. simpl. eauto.
  - apply rep_from_suffix.
  - destruct (xorb _ _); [|by intros ?%elem_of_nil].
    by intros ->%list_elem_of_singleton.
Qed.

(** A group that is set stays set. *)
Lemma run_caps_mono r n st st' :
  st' ∈ run r st → is_Some (caps st !! n) → is_Some (caps st' !! n).
Proof.
  revert st st'. induction r as [|cs|a IHa b IHb|a IHa b IHb|k a IHa|cs lo hi|];
    intros st st'; simpl.
  - by intros ->%list_elem_of_singleton.
  - destruct (rest st) as [|c t]; [by intros ?%elem_of_nil|].
    destruct (cs_match cs c); [|by intros ?%elem_of_nil].
    by intros ->%list_elem_of_singleton.
  - intros (mid & Hb & Ha)%list_elem_of_bind ?. eauto.
  - rewrite elem_of_app. intros [?|?]; eauto.
  - intros (st0 & -> & Hin)%list_elem_of_fmap Hn. simpl.
    destruct (decide (k = n)) as [->|Hne].
    + rewrite lookup_insert_eq. eauto.
    + rewrite lookup_insert_ne by done. eauto.
  - intros Hin. by rewrite (rep_from_caps _ _ _ _ _ _ _ _ Hin).
  - destruct (xorb _ _); [|by intros ?%elem_of_nil].
    by intros ->%list_elem_of_singleton.
Qed.

Lemma run_binds r n st st' :
  binds r n = true → st' ∈ run r st → is_Some (caps st' !! n).
Proof.
  revert st st'. induction r as [|cs|a IHa b IHb|a IHa b IHb|k a IHa|cs lo hi|];
    intros st st'; simpl; try done.
  - intros [Hn|Hn]%orb_true_iff (mid & Hb & Ha)%list_elem_of_bind.
    + eapply run_caps_mono; eauto.
    + eauto.
  - intros [??]%andb_true_iff. rewrite elem_of_app. intros [?|?]; eauto.
  - intros Hn (st0 & -> & Hin)%list_elem_of_fmap. simpl.
    destruct (decide (k = n)) as [->|Hne].
    + rewrite lookup_insert_eq. eauto.
    + rewrite lookup_insert_ne by done.
      apply orb_true_iff in Hn as [Hn|Hn]; [|eauto].
      by apply bool_decide_eq_true in Hn.
Qed.

(** What [re.search] returns: the first way to match at the first
    position where the pattern matches at all. *)
Lemma search_from_Some r i pw s m :
  search_from r i pw s = Some m →
  ∃ pre suf pw' st l,
    s = pre ++ suf ∧ m_start m = (i + length pre)%nat ∧
    run r (MState pw' suf ∅) = st :: l ∧
    m_text m = take (length suf - length (rest st)) suf ∧
    m_groups m = caps st ∧ m_ngroups m = ngroups r.
Proof.
  revert i pw. induction s as [|c t IH]; intros i pw; simpl; unfold match_at.
  - destruct (run r (MState pw [] ∅)) as [|st l] eqn:Hrun; [done|]. simpl.
    intros [= <-]. exists [], [], pw, st, l. simpl. rewrite Nat.add_0_r. done.
  - destruct (run r (MState pw (c :: t) ∅)) as [|st l] eqn:Hrun; simpl.
    + intros (pre & suf & pw' & st & l & -> & Hi & ?)%IH.
      exists (c :: pre), suf, pw', st, l. simpl. split; [done|]. split; [lia|done].
    + intros [= <-]. exists [], (c :: t), pw, st, l. simpl. rewrite Nat.add_0_r. done.
Qed.

(** A group that every match sets is a string in the match object. *)
Lemma group_bound r s m k :
  re_search r s = Some m → binds r k = true → (k ≤ ngroups r)%nat →
  ∃ x, group m k = Ok (Some x).
Proof.
  intros (pre & suf & pw & st & l & _ & _ & Hrun & _ & Hg & Hn)%search_from_Some Hb Hk.
  unfold group. destruct (k =? 0)%nat; [eauto|].
  rewrite Hn. destruct (Nat.leb_spec k (ngroups r)); [|lia].
  rewrite Hg. destruct (run_binds r k (MState pw suf ∅) st Hb) as [x ->]; [|eauto].
  rewrite Hrun. left.
Qed.
End EngineFacts.

(** ** The contract locator *)

Section Locator.
Context `{Unicode}.

(** Rewrites [group m k] to the string it holds, for a group that the
    pattern of the match [Hm] always sets. *)
Local Ltac group_of Hm k :=
  let x := fresh "x" in
  let Hx := fresh "Hx" in
  destruct (group_bound _ _ _ k Hm eq_refl ltac:(cbv; lia)) as [x Hx];
  rewrite Hx; simpl.

Lemma labelled_chain_ok label message :
  binds label 1 = true → (1 ≤ ngroups label)%nat →
  ∃ c, labelled_chain label message = Ok c.
Proof.
  intros Hb Hn. unfold labelled_chain.
  destruct (re_search label message) as [m|] eqn:Hm.
  - destruct (group_bound _ _ _ 1%nat Hm Hb Hn) as [x ->]. simpl. eauto.
  - destruct (re_search dexscreener_chain_re message) as [m|] eqn:Hd; [|eauto].
    group_of Hd 1%nat. eauto.
Qed.

(** The body of [extract_contract_info] raises nothing, and a result
    has a chain, a contract and the GMGN link made of them. *)
Lemma locate_spec message :
  locate message = Ok None ∨
  ∃ ty ch co,
    locate message =
      Ok (Some {| type_ := ty; chain := Some ch; contract := Some co;
                  url := cps "https://gmgn.ai/" ++ ch ++ cps "/token/" ++ co |}).
Proof.
  unfold locate.
  destruct (re_search solana_mint_re message) as [mint|] eqn:Hmint;
    [destruct (re_search solana_marker_re message) as [mark|] eqn:Hmark|].
  { group_of Hmint 1%nat. right. by eexists _, _, _. }
  all: destruct (re_search gmgn_re message) as [gm|] eqn:Hgm;
    [group_of Hgm 1%nat; group_of Hgm 2%nat; right; by eexists _, _, _|].
  all: destruct (re_search ca_re message) as [ca|] eqn:Hca;
    [group_of Hca 1%nat;
     destruct (labelled_chain_ok chain_re message eq_refl ltac:(cbv; lia)) as [c ->];
     right; by eexists _, _, _|].
  all: destruct (re_search contract_re message) as [co|] eqn:Hco;
    [group_of Hco 1%nat;
     destruct (labelled_chain_ok network_re message eq_refl ltac:(cbv; lia)) as [c ->];
     right; by eexists _, _, _|].
  all: destruct (re_search dexscreener_re message) as [dx|] eqn:Hdx;
    [group_of Hdx 1%nat; group_of Hdx 2%nat; right; by eexists _, _, _|].
  all: by left.
Qed.

Lemma extract_contract_info_locate message :
  extract_contract_info message = locate message.
Proof.
  unfold extract_contract_info.
  destruct (locate_spec message) as [->|(?&?&?&->)]; done.
Qed.

(** C4: whatever strategy found the contract, the result has a chain
    and a contract, and its [url] is ["https://gmgn.ai/"], the chain,
    ["/token/"] and the contract. *)
Theorem located_url_is_gmgn message info :
  extract_contract_info message = Ok (Some info) →
  ∃ ch co, chain info = Some ch ∧ contract info = Some co ∧
           url info = cps "https://gmgn.ai/" ++ ch ++ cps "/token/" ++ co.
Proof.
  rewrite extract_contract_info_locate.
  destruct (locate_spec message) as [->|(ty & ch & co & ->)]; [done|].
  intros [= <-]. by exists ch, co.
Qed.
End Locator.

(** ** The chain normaliser *)

Section Normalizer.
Context `{Unicode}.

(** C7: on the codes that the table maps to (eth, arb, bsc, polygon,
    base, sol, avax), normalising twice is normalising once. *)
Theorem gmgn_chain_idempotent_on_codes name code :
  chain_mapping !! name = Some code →
  gmgn_chain (gmgn_chain code) = gmgn_chain code.
Proof.
  intros Hin%elem_of_map_to_list.
  vm_compute map_to_list in Hin.
  repeat (apply elem_of_cons in Hin as [[= -> ->]|Hin]; [by vm_compute|]).
  by apply elem_of_nil in Hin.
Qed.

(** The codes are the seven of the table, and each is left as it is. *)
Lemma canonical_codes code :
  (∃ name, chain_mapping !! name = Some code) ↔
  code ∈ cps <$> ["eth"; "arb"; "bsc"; "polygon"; "base"; "sol"; "avax"]%string.
Proof.
  split.
  - intros [name Hin%elem_of_map_to_list].
    vm_compute map_to_list in Hin.
    repeat (apply elem_of_cons in Hin as [[= -> ->]|Hin];
            [vm_compute; repeat first [by left | right]|]).
    by apply elem_of_nil in Hin.
  - intros Hin. vm_compute fmap in Hin.
    repeat (apply elem_of_cons in Hin as [->|Hin];
      [first [by exists (cps "ethereum") | by exists (cps "arbitrum") | by exists (cps "bsc")
             | by exists (cps "polygon") | by exists (cps "base") | by exists (cps "sol")
             | by exists (cps "avalanche")]|]).
    by apply elem_of_nil in Hin.
Qed.

Lemma gmgn_chain_code_fixed name code :
  chain_mapping !! name = Some code → gmgn_chain code = code.
Proof.
  intros Hin%elem_of_map_to_list.
  vm_compute map_to_list in Hin.
  repeat (apply elem_of_cons in Hin as [[= -> ->]|Hin]; [by vm_compute|]).
  by apply elem_of_nil in Hin.
Qed.
End Normalizer.

(** ** Ticker extraction *)

Section Extraction.
Context `{Unicode}.

Lemma try_except_ok {A} (body : res A) handler :
  try_except body handler = Ok (match body with Ok a => a | Raise e => handler e end).
Proof. by destruct body. Qed.

Lemma try_exceptM_ret_ok {A} (body : M (option A)) self :
  (try_exceptM body (λ _, mret None) self).1.1 =
    Ok (match (body self).1.1 with Ok a => a | Raise _ => None end).
Proof.
  unfold try_exceptM. by destruct (body self) as [[[a|e] self'] ev].
Qed.

(** C5: ticker extraction and contract location return to their caller
    whatever the message: what the body of the [try] block returned,
    and [None] whenever it raised. *)
Theorem extraction_never_raises message bot_name self :
  (extract_ticker_data message bot_name self).1.1 =
    Ok (match (ticker_data_of message bot_name self).1.1 with
        | Ok data => data
        | Raise _ => None
        end) ∧
  extract_contract_info message =
    Ok (match locate message with Ok info => info | Raise _ => None end).
Proof.
  split.
  - apply try_exceptM_ret_ok.
  - apply try_except_ok.
Qed.

Lemma ticker_data_of_extracted self message bot_name t d :
  extracted self message bot_name = Some (t, d) →
  ticker_data_of message bot_name self =
    (is_ticker_blacklisted t ≫= λ blacklisted : bool,
       if blacklisted then mret None
       else dex_info ← lift (extract_contract_info message);
            mret (Some {| ticker := t; direction := d;
                          dex_info := dex_info; bot_name := bot_name |})) self.
Proof.
  unfold extracted, ticker_data_of, getitem. rewrite bind_get.
  destruct (monitored_bots (config self) !! bot_name) as [bot_config|]; [cbn|done].
  rewrite bind_lift_ok.
  destruct (re_search (pattern bot_config) message) as [tm|]; [cbn|done].
  destruct (ticker_fields bot_name tm) as [[t' d']|]; [|done].
  intros [= -> ->]. by rewrite bind_lift_ok.
Qed.

(** C8: with the blacklist enabled, a ticker whose upper-cased form is
    in the blacklist gives no signal, and the hit is counted. *)
Theorem blacklisted_ticker_no_signal self message bot_name t d :
  blacklist_enabled self = true →
  extracted self message bot_name = Some (Some t, d) →
  upper t ∈ blacklisted_tickers self →
  (extract_ticker_data message bot_name self).1.1 = Ok None ∧
  blacklisted_count (stats (after (extract_ticker_data message bot_name) self))
    = (blacklisted_count (stats self) + 1)%Z.
Proof.
  intros Hen Hex Hin.
  unfold after, extract_ticker_data, try_exceptM.
  rewrite (ticker_data_of_extracted _ _ _ _ _ Hex).
  unfold is_ticker_blacklisted. rewrite bind_bind, bind_get, Hen. cbn.
  rewrite bind_bind, bind_lift_ok, bool_decide_eq_true_2 by done.
  by rewrite !bind_bind, bind_set_stats, !bind_ret.
Qed.
End Extraction.

(** ** Strategy order of the contract locator *)

Section Priority.
Context `{Unicode}.

Lemma locate_gmgn message gm :
  direct_mint message = false →
  re_search gmgn_re message = Some gm →
  locate message =
    (chain ← group gm 1; contract ← group gm 2;
     Ok (Some {| type_ := cps "gmgn"; chain := chain; contract := contract;
                 url := gmgn_url chain contract |})).
Proof.
  unfold direct_mint, locate. intros Hno ->.
  destruct (re_search solana_mint_re message); [|done].
  destruct (re_search solana_marker_re message); [|done].
  apply andb_false_iff in Hno as [Hno|Hno];
    apply bool_decide_eq_false in Hno; by destruct Hno.
Qed.

End Priority.

(** ** The deduplication cache *)

Create HintDb keeps.

Lemma same_cache_trans s1 s2 s3 : same_cache s1 s2 → same_cache s2 s3 → same_cache s1 s3.
Proof. unfold same_cache. intros (?&?&?&?&?) (?&?&?&?&?). split_and!; congruence. Qed.

Lemma keeps_ret {A} (a : A) : keeps_cache (mret a).
Proof. done. Qed.

Lemma keeps_get : keeps_cache get.
Proof. done. Qed.

Lemma keeps_lift {A} (x : res A) : keeps_cache (lift x).
Proof. done. Qed.

Lemma keeps_emit e : keeps_cache (emit e).
Proof. done. Qed.

Lemma keeps_set_stats f : keeps_cache (set_stats f).
Proof. done. Qed.

Lemma keeps_bind {A B} (x : M A) (f : A → M B) :
  keeps_cache x → (∀ a, keeps_cache (f a)) → keeps_cache (x ≫= f).
Proof.
  intros Hx Hf self. specialize (Hx self). unfold after, mbind, M_bind in *.
  destruct (x self) as [[[a|e] s1] ev1]; [|done].
  specialize (Hf a s1). unfold after in Hf.
  destruct (f a s1) as [[r s2] ev2]. by eapply same_cache_trans.
Qed.

Lemma keeps_try {A} (x : M A) (h : exn → M A) :
  keeps_cache x → (∀ e, keeps_cache (h e)) → keeps_cache (try_exceptM x h).
Proof.
  intros Hx Hh self. specialize (Hx self). unfold after, try_exceptM in *.
  destruct (x self) as [[[a|e] s1] ev1]; [done|].
  specialize (Hh e s1). unfold after in Hh.
  destruct (h e s1) as [[r s2] ev2]. by eapply same_cache_trans.
Qed.

Lemma keeps_if {A} (b : bool) (x y : M A) :
  keeps_cache x → keeps_cache y → keeps_cache (if b then x else y).
Proof. by destruct b. Qed.

#[global] Hint Resolve keeps_ret keeps_get keeps_lift keeps_emit keeps_set_stats
  keeps_bind keeps_try keeps_if : keeps.

Section Keeps.
Context `{Unicode}.

Lemma keeps_is_ticker_blacklisted t : keeps_cache (is_ticker_blacklisted t).
Proof. unfold is_ticker_blacklisted. auto 10 with keeps. Qed.

Lemma keeps_extract_ticker_data message bot_name :
  keeps_cache (extract_ticker_data message bot_name).
Proof.
  unfold extract_ticker_data, ticker_data_of.
  apply keeps_try; [|auto with keeps].
  apply keeps_bind; [auto with keeps|intros self].
  apply keeps_bind; [auto with keeps|intros bot_config].
  destruct (re_search _ _); [|auto with keeps].
  apply keeps_bind; [auto with keeps|intros [t d]].
  apply keeps_bind; [apply keeps_is_ticker_blacklisted|intros b].
  auto 10 with keeps.
Qed.

Lemma keeps_copy_to_clipboard text : keeps_cache (copy_to_clipboard text).
Proof. unfold copy_to_clipboard. auto 10 with keeps. Qed.

Lemma keeps_open_gmgn info : keeps_cache (open_gmgn info).
Proof. unfold open_gmgn. destruct info; auto 10 with keeps. Qed.

Lemma keeps_send_notification message : keeps_cache (send_notification message).
Proof. unfold send_notification. auto 10 with keeps. Qed.
End Keeps.

#[global] Hint Resolve keeps_is_ticker_blacklisted keeps_extract_ticker_data
  keeps_copy_to_clipboard keeps_open_gmgn keeps_send_notification : keeps.

Lemma set_add_new x s : x ∉ s → set_add x s = s ++ [x].
Proof. intros. unfold set_add. by rewrite bool_decide_eq_false_2. Qed.

Lemma set_of_list_NoDup l : NoDup l → set_of_list l = l.
Proof.
  unfold set_of_list. change l with ([] ++ l) at 1 3.
  generalize (@nil Z) as acc. induction l as [|x l IH]; intros acc Hnd; simpl.
  - by rewrite app_nil_r.
  - rewrite cons_middle, (assoc (++)) in Hnd.
    pose proof Hnd as (Hacc & _)%NoDup_app.
    apply NoDup_app in Hacc as (_ & Hx & _).
    rewrite set_add_new by (intros Hin; eapply Hx; [done|left]).
    rewrite IH by done. by rewrite <- (assoc (++)).
Qed.

Lemma NoDup_drop {A} (n : nat) (l : list A) : NoDup l → NoDup (drop n l).
Proof. intros Hnd. eapply sublist_NoDup; [done|apply sublist_drop]. Qed.

Lemma NoDup_snoc {A} (l : list A) x : NoDup l → x ∉ l → NoDup (l ++ [x]).
Proof.
  intros Hnd Hx. apply NoDup_app. split_and!; [done| |apply NoDup_singleton].
  by intros y Hy ->%list_elem_of_singleton.
Qed.

Lemma slice_from_drop {A} (k : Z) (l : list A) :
  (k < 0)%Z → (- k ≤ Z.of_nat (length l))%Z →
  slice_from k l = drop (length l - Z.to_nat (- k)) l.
Proof.
  intros Hk Hlen. unfold slice_from.
  destruct (Z.ltb_spec k 0); [|lia]. f_equal. lia.
Qed.

Lemma yields_ret {A} (P : A → Prop) a : P a → yields P (mret a).
Proof. intros ? self a' [= <-]. done. Qed.

Lemma yields_bind {A B} (P : B → Prop) (x : M A) (f : A → M B) :
  (∀ a, yields P (f a)) → yields P (x ≫= f).
Proof.
  intros Hf self b. unfold mbind, M_bind.
  destruct (x self) as [[[a|e] s1] ev1]; [|done].
  specialize (Hf a s1 b). destruct (f a s1) as [[r s2] ev2]. done.
Qed.

Lemma yields_if {A} (P : A → Prop) (b : bool) (x y : M A) :
  yields P x → yields P y → yields P (if b then x else y).
Proof. by destruct b. Qed.

#[global] Hint Resolve yields_ret yields_bind yields_if : keeps.

Section Cache.
Context `{Unicode} `{Runtime}.

Lemma seen_before_old message bot_name message_id self :
  message_hash message bot_name message_id ∈ processed_messages self →
  seen_before message bot_name message_id self = (Ok true, self, []).
Proof.
  intros Hin. unfold seen_before. rewrite bind_get.
  by rewrite bool_decide_eq_true_2.
Qed.

Lemma seen_before_new message bot_name message_id self :
  let h := message_hash message bot_name message_id in
  h ∉ processed_messages self →
  seen_before message bot_name message_id self =
    (Ok false,
     after_processed (record (max_cache_size self) h (processed_messages self)) self, []).
Proof.
  intros h Hin. unfold seen_before, record. rewrite bind_get.
  fold h. rewrite !bool_decide_eq_false_2 by done.
  rewrite bind_set_processed, bind_get. cbn [after_processed processed_messages max_cache_size].
  destruct (_ <? _)%Z.
  - by rewrite bind_set_processed.
  - by rewrite bind_ret.
Qed.

Lemma bind_run {A B} (x : M A) (f : A → M B) self a self' :
  x self = (Ok a, self', []) → (x ≫= f) self = f a self'.
Proof. unfold mbind, M_bind. intros ->. by destruct (f a self') as [[??]?]. Qed.

Lemma keeps_process_new message bot_name : keeps_cache (process_new message bot_name).
Proof.
  unfold process_new.
  apply keeps_bind; [auto with keeps|intros _].
  apply keeps_bind; [auto with keeps|intros [td|]]; [|auto with keeps].
  auto 20 with keeps.
Qed.

Lemma keeps_on_error e : keeps_cache (on_error e).
Proof. unfold on_error. auto 20 with keeps. Qed.

Lemma process_new_yields message bot_name :
  yields (λ o, o = NoTicker ∨ o = Handled) (process_new message bot_name).
Proof.
  unfold process_new.
  apply yields_bind; intros _. apply yields_bind; intros [td|]; auto 20 with keeps.
Qed.

Lemma on_error_yields e : yields (λ o, o = Exited ∨ o = Failed e) (on_error e).
Proof.
  unfold on_error. apply yields_bind; intros _. apply yields_bind; intros self.
  auto 20 with keeps.
Qed.

(** A repeated message: nothing happens. *)
Lemma process_message_old message bot_name message_id self :
  message_hash message bot_name message_id ∈ processed_messages self →
  process_message message bot_name message_id self = (Ok Duplicate, self, []).
Proof.
  intros Hin. unfold process_message, try_exceptM, process_body.
  by rewrite (bind_run _ _ _ _ _ (seen_before_old _ _ _ _ Hin)).
Qed.

(** A new message goes on to be processed; the cache is the recorded one
    whatever happens afterwards. *)
Lemma process_message_new message bot_name message_id self :
  let h := message_hash message bot_name message_id in
  h ∉ processed_messages self →
  (process_message message bot_name message_id self).1.1 ≠ Ok Duplicate ∧
  same_cache (after_processed (record (max_cache_size self) h (processed_messages self)) self)
             (after (process_message message bot_name message_id) self).
Proof.
  intros h Hin. unfold after, process_message, try_exceptM, process_body.
  rewrite (bind_run _ _ _ _ _ (seen_before_new _ _ _ _ Hin)). fold h.
  set (self1 := after_processed _ self).
  pose proof (keeps_process_new message bot_name self1) as Hkeep.
  pose proof (process_new_yields message bot_name self1) as Hy.
  unfold after in Hkeep.
  destruct (process_new message bot_name self1) as [[[o|e] s2] ev2].
  - split; [|done]. simpl. intros [= ->]. by destruct (Hy Duplicate eq_refl).
  - pose proof (keeps_on_error e s2) as Hkeep'.
    pose proof (on_error_yields e s2) as Hy'. unfold after in Hkeep'.
    destruct (on_error e s2) as [[[o|e'] s3] ev3]; simpl in *.
    + split; [|by eapply same_cache_trans].
      intros [= ->]. by destruct (Hy' Duplicate eq_refl).
    + split; [done|by eapply same_cache_trans].
Qed.
End Cache.

Section CacheBound.
Context `{Unicode} `{Runtime}.

Lemma record_room h cache :
  h ∉ cache → (length cache < 1000)%nat → record 1000 h cache = cache ++ [h].
Proof.
  intros Hin Hlen. unfold record. rewrite bool_decide_eq_false_2 by done.
  rewrite set_add_new by done. rewrite length_app. simpl.
  destruct (Z.ltb_spec 1000 (Z.of_nat (length cache + 1))); [lia|done].
Qed.

(** The half-flush: of the 1001 hashes, the last 500 that the
    iteration of the set visits are kept. *)
Lemma record_full h cache :
  h ∉ cache → NoDup cache → length cache = 1000%nat →
  record 1000 h cache = drop 501 (set_iter (cache ++ [h])).
Proof.
  intros Hin Hnd Hlen. unfold record. rewrite bool_decide_eq_false_2 by done.
  rewrite set_add_new by done. rewrite length_app. simpl.
  destruct (Z.ltb_spec 1000 (Z.of_nat (length cache + 1))); [|lia].
  assert (length (set_iter (cache ++ [h])) = 1001%nat) as Hl.
  { rewrite (set_iter_perm _), length_app. simpl. lia. }
  rewrite slice_from_drop by (rewrite ?Hl; done). rewrite Hl.
  change (1001 - Z.to_nat (- (-1000 `div` 2)))%nat with 501%nat.
  apply set_of_list_NoDup, NoDup_drop. rewrite (set_iter_perm _).
  by apply NoDup_snoc.
Qed.

Lemma record_inv h cache :
  NoDup cache → (length cache ≤ 1000)%nat →
  NoDup (record 1000 h cache) ∧ (length (record 1000 h cache) ≤ 1000)%nat ∧
  ((1000 < length (set_add h cache))%nat → length (record 1000 h cache) = 500%nat).
Proof.
  intros Hnd Hlen. destruct (decide (h ∈ cache)) as [Hin|Hin].
  { unfold record, set_add. rewrite !bool_decide_eq_true_2 by done.
    split_and!; [done..|lia]. }
  rewrite set_add_new, length_app by done. simpl.
  destruct (decide (length cache = 1000%nat)) as [Hfull|Hroom].
  - rewrite record_full by done.
    assert (length (set_iter (cache ++ [h])) = 1001%nat) as Hl.
    { rewrite (set_iter_perm _), length_app. simpl. lia. }
    rewrite length_drop, Hl. split_and!; [|lia..].
    apply NoDup_drop. rewrite (set_iter_perm _). by apply NoDup_snoc.
  - rewrite record_room by (done || lia). rewrite length_app. simpl.
    split_and!; [|lia..]. by apply NoDup_snoc.
Qed.

(** The cache after [process_message], whatever the call does next. *)
Lemma process_message_cache message bot_name message_id self :
  let self' := after (process_message message bot_name message_id) self in
  processed_messages self' =
    record (max_cache_size self) (message_hash message bot_name message_id)
           (processed_messages self) ∧
  max_cache_size self' = max_cache_size self ∧ config self' = config self.
Proof.
  intros self'. subst self'.
  destruct (decide (message_hash message bot_name message_id ∈ processed_messages self))
    as [Hin|Hin].
  - unfold after. rewrite process_message_old by done. simpl.
    unfold record. by rewrite bool_decide_eq_true_2.
  - destruct (process_message_new message bot_name message_id self Hin)
      as (_ & Hc & Hm & Hcfg & _).
    by rewrite Hc, Hm, Hcfg.
Qed.

Lemma process_message_inv message bot_name message_id self :
  cache_inv self → cache_inv (after (process_message message bot_name message_id) self).
Proof.
  intros (Hmax & Hnd & Hlen). unfold cache_inv.
  destruct (process_message_cache message bot_name message_id self) as (-> & -> & _).
  rewrite Hmax.
  destruct (record_inv (message_hash message bot_name message_id) _ Hnd Hlen) as (?&?&_).
  done.
Qed.

Lemma reachable_inv cfg self : reachable cfg self → cache_inv self.
Proof.
  induction 1 as [|self message bot_name message_id _ IH].
  - unfold cache_inv. simpl. split_and!; [done|constructor|lia].
  - by apply process_message_inv.
Qed.

(** C9: in every run, the cache holds at most [max_cache_size] hashes
    when [process_message] is over, and exactly [max_cache_size // 2]
    when the hash just added made it larger than [max_cache_size]. *)
Theorem cache_bounded cfg self message bot_name message_id :
  reachable cfg self →
  let self' := after (process_message message bot_name message_id) self in
  let added := set_add (message_hash message bot_name message_id) (processed_messages self) in
  (Z.of_nat (length (processed_messages self')) ≤ max_cache_size self')%Z ∧
  ((max_cache_size self < Z.of_nat (length added))%Z →
   Z.of_nat (length (processed_messages self')) = (max_cache_size self `div` 2)%Z).
Proof.
  intros (Hmax & Hnd & Hlen)%reachable_inv self' added. subst self' added.
  destruct (process_message_cache message bot_name message_id self) as (-> & -> & _).
  rewrite Hmax.
  destruct (record_inv (message_hash message bot_name message_id) _ Hnd Hlen) as (_&?&Hhalf).
  split; [lia|]. intros Hbig. rewrite Hhalf by lia. done.
Qed.
End CacheBound.

(** ** Repeated messages and the half-flush *)

Section Repeats.
Context `{Unicode} `{Runtime}.

Lemma deliver_reachable cfg message bot_name ids self :
  reachable cfg self → reachable cfg (deliver message bot_name ids self).
Proof.
  unfold deliver. revert self. induction ids as [|i ids IH]; intros self Hr; simpl; [done|].
  apply IH. by constructor.
Qed.

(** Accept, then duplicate: a message whose hash is not in the cache is
    processed and recorded, and the same message is then dropped without
    any effect, as long as recording it did not flush the cache. *)
Lemma accept_then_duplicate cfg self message bot_name message_id :
  reachable cfg self →
  message_hash message bot_name message_id ∉ processed_messages self →
  (length (processed_messages self) < 1000)%nat →
  let first := process_message message bot_name message_id self in
  first.1.1 ≠ Ok Duplicate ∧
  message_hash message bot_name message_id ∈ processed_messages first.1.2 ∧
  process_message message bot_name message_id first.1.2 = (Ok Duplicate, first.1.2, []).
Proof.
  intros (Hmax & Hnd & Hlen)%reachable_inv Hnew Hroom first. subst first.
  destruct (process_message_new message bot_name message_id self Hnew) as [Hacc _].
  destruct (process_message_cache message bot_name message_id self) as (Hc & _).
  unfold after in Hc. rewrite Hmax, record_room in Hc by done.
  assert (message_hash message bot_name message_id
            ∈ processed_messages (process_message message bot_name message_id self).1.2).
  { rewrite Hc. apply elem_of_app. right. by left. }
  split_and!; [done..|]. by apply process_message_old.
Qed.
(** When recording the message flushes the cache, the repeated message
    is dropped exactly if the iteration of the set visits its hash among
    the last 500. *)
Lemma repeat_after_flush cfg self message bot_name message_id :
  reachable cfg self →
  message_hash message bot_name message_id ∉ processed_messages self →
  length (processed_messages self) = 1000%nat →
  let first := process_message message bot_name message_id self in
  (process_message message bot_name message_id first.1.2).1.1 = Ok Duplicate ↔
  message_hash message bot_name message_id
    ∈ drop 501 (set_iter (processed_messages self ++ [message_hash message bot_name message_id])).
Proof.
  intros (Hmax & Hnd & Hlen)%reachable_inv Hnew Hfull first. subst first.
  destruct (process_message_cache message bot_name message_id self) as (Hc & _).
  unfold after in Hc. rewrite Hmax, record_full in Hc by done.
  rewrite <- Hc. split.
  - intros Hdup.
    destruct (decide (message_hash message bot_name message_id
                        ∈ processed_messages (process_message message bot_name message_id self).1.2))
      as [Hin|Hin]; [done|].
    by destruct (process_message_new message bot_name message_id _ Hin) as [Hacc _].
  - intros Hin. by rewrite process_message_old.
Qed.
End Repeats.

(** With sets iterated in the order of insertion, accept-then-duplicate
    holds in every state of a run, and the flush keeps the 500 hashes
    added last. *)
Lemma flush_keeps_newest_if_ordered `{Unicode} h cache :
  h ∉ cache → NoDup cache → length cache = 1000%nat →
  @record insertion_order 1000 h cache = drop 501 (cache ++ [h]).
Proof. intros. by rewrite record_full. Qed.

Lemma accept_then_duplicate_if_ordered `{Unicode} cfg self message bot_name message_id :
  let R := insertion_order in
  reachable cfg self →
  message_hash message bot_name message_id ∉ processed_messages self →
  let first := process_message message bot_name message_id self in
  first.1.1 ≠ Ok Duplicate ∧
  process_message message bot_name message_id first.1.2 = (Ok Duplicate, first.1.2, []).
Proof.
  intros R Hreach Hnew first. subst first.
  pose proof (reachable_inv _ _ Hreach) as (Hmax & Hnd & Hlen).
  destruct (process_message_new message bot_name message_id self Hnew) as [Hacc _].
  split; [done|]. apply process_message_old.
  destruct (process_message_cache message bot_name message_id self) as (Hc & _).
  unfold after in Hc. rewrite Hc, Hmax.
  destruct (decide (length (processed_messages self) = 1000%nat)) as [Hfull|Hroom].
  - rewrite record_full by done. simpl.
    rewrite drop_app_le by lia. apply elem_of_app. right. by left.
  - rewrite record_room by (done || lia). apply elem_of_app. right. by left.
Qed.

(** ** The labelled-field strategies *)

Section Labelled.
Context `{Unicode}.

Lemma head_bind {A B} (f : A → list B) (l : list A) y :
  head (l ≫= f) = Some y → ∃ x, x ∈ l ∧ head (f x) = Some y.
Proof.
  induction l as [|x l IH]; [done|]. rewrite bind_cons.
  destruct (f x) as [|z k] eqn:Hfx; simpl.
  - intros (x' & ? & ?)%IH. exists x'. split; [by right|done].
  - intros [= ->]. exists x. split; [by left|]. by rewrite Hfx.
Qed.

Lemma run_lits mk l st st' :
  st' ∈ run (lits mk l) st →
  ∃ lab, rest st = lab ++ rest st' ∧ caps st' = caps st ∧
         Forall2 (λ c x, cs_match (mk c) x = true) l lab.
Proof.
  revert st. induction l as [|c l IH]; intros st; simpl.
  - intros ->%list_elem_of_singleton. by exists [].
  - intros (mid & Hl & Hc)%list_elem_of_bind.
    destruct (rest st) as [|x t] eqn:Hrest; [by apply elem_of_nil in Hc|].
    destruct (cs_match (mk c) x) eqn:Hx; [|by apply elem_of_nil in Hc].
    apply list_elem_of_singleton in Hc as ->.
    apply IH in Hl as (lab & Ht & Hcaps & Hlab). simpl in *.
    exists (x :: lab). rewrite Ht. split_and!; [done..|by constructor].
Qed.

Lemma rep_from_elem cs lo hi n pw s g st :
  st ∈ rep_from cs lo hi n pw s g →
  ∃ taken, s = taken ++ rest st ∧ Forall (λ x, cs_match cs x = true) taken ∧
           (lo ≤ n + length taken)%nat.
Proof.
  revert n pw. induction s as [|c t IH]; intros n pw; simpl.
  - destruct (Nat.leb_spec lo n); [|by intros ?%elem_of_nil].
    intros ->%list_elem_of_singleton. exists []. simpl. split_and!; [done..|lia].
  - rewrite elem_of_app. intros [Hin|Hin].
    + destruct (cs_match cs c) eqn:Hc; [|by apply elem_of_nil in Hin].
      destruct (room n hi); [|by apply elem_of_nil in Hin]. simpl in Hin.
      apply IH in Hin as (taken & -> & Hall & Hlo).
      exists (c :: taken). simpl. split_and!; [done|by constructor|lia].
    + destruct (Nat.leb_spec lo n); [|by apply elem_of_nil in Hin].
      apply list_elem_of_singleton in Hin as ->.
      exists []. simpl. split_and!; [done..|lia].
Qed.

Lemma rep_from_nonempty cs lo hi n pw s g :
  (lo ≤ n)%nat → rep_from cs lo hi n pw s g ≠ [].
Proof.
  intros Hlo Heq.
  assert (MState pw s g ∈ rep_from cs lo hi n pw s g) as Hin.
  { destruct s; simpl; destruct (Nat.leb_spec lo n); try lia;
      [left|apply elem_of_app; right; left]. }
  rewrite Heq in Hin. by apply elem_of_nil in Hin.
Qed.

(** The first result of an unbounded greedy repetition stops at the end
    of the text or before a character that the item does not match. *)
Lemma rep_from_head_stop cs lo n pw s g st :
  head (rep_from cs lo None n pw s g) = Some st →
  match rest st with [] => True | c :: _ => cs_match cs c = false end.
Proof.
  revert n pw. induction s as [|c t IH]; intros n pw; simpl.
  - destruct (lo <=? n)%nat; [|done]. by intros [= <-].
  - destruct (cs_match cs c) eqn:Hc; simpl.
    + destruct (rep_from cs lo None (S n) (is_word c) t g) as [|st0 l] eqn:Hrep; simpl.
      * destruct (Nat.leb_spec lo n); [|done].
        exfalso. eapply (rep_from_nonempty cs lo None (S n)); [|done]. lia.
      * intros [= <-]. apply (IH (S n) (is_word c)). by rewrite Hrep.
    + destruct (lo <=? n)%nat; [|done]. intros [= <-]. simpl. done.
Qed.

Lemma nonspace_match c : cs_match nonspace c = negb (is_space c).
Proof.
  unfold nonspace, cs_match, existsb, item_match. rewrite !orb_false_r. f_equal.
  destruct (N.eqb_spec c 10) as [->|]; [done|]. apply orb_false_r.
Qed.

Lemma space_match c : cs_match space c = is_space c.
Proof. unfold space, cs_match, existsb, item_match. apply orb_false_r. Qed.

(** What [label\s*([^\s\n]+)] finds. *)
Lemma labelled_search mk label message m :
  re_search (lits mk label ⋅ star space ⋅ Group 1 (plus nonspace)) message = Some m →
  ∃ tok, group m 1 = Ok (Some tok) ∧
    token_after (λ lab, Forall2 (λ l c, cs_match (mk l) c = true) label lab) message tok.
Proof.
  intros (pre & suf & pw & st & l & -> & _ & Hrun & _ & Hg & Hn)%search_from_Some.
  assert (head (run (lits mk label ⋅ star space ⋅ Group 1 (plus nonspace)) (MState pw suf ∅))
          = Some st) as Hhead by (by rewrite Hrun).
  clear Hrun. unfold plus, star in Hhead. cbn [run] in Hhead.
  apply head_bind in Hhead as (s1 & Hlab & Hhead).
  apply head_bind in Hhead as (s2 & Hws & Hhead).
  apply run_lits in Hlab as (lab & Hsuf & _ & Hlab). simpl in Hsuf.
  apply rep_from_elem in Hws as (ws & Hs1 & Hws & _).
  destruct (rep_from nonspace 1 None 0 (prev_word s2) (rest s2) (caps s2))
    as [|s3 k] eqn:Hrep; [done|].
  simpl in Hhead. injection Hhead as <-.
  assert (s3 ∈ rep_from nonspace 1 None 0 (prev_word s2) (rest s2) (caps s2)) as Hin
    by (rewrite Hrep; left).
  apply rep_from_elem in Hin as (tok & Hs2 & Htok & Hlen).
  pose proof (rep_from_head_stop nonspace 1 0 (prev_word s2) (rest s2) (caps s2) s3) as Hstop.
  rewrite Hrep in Hstop. specialize (Hstop eq_refl).
  exists tok. split.
  - unfold group. change (1 =? 0)%nat with false. cbv iota.
    destruct (Nat.leb_spec 1 (m_ngroups m)) as [_|Hlt]; [|rewrite Hn in Hlt; simpl in Hlt; lia].
    rewrite Hg. simpl. rewrite lookup_insert_eq.
    rewrite Hs2, length_app, Nat.add_sub, take_app_length. done.
  - exists pre, lab, ws, (rest s3). rewrite Hsuf, Hs1, Hs2. split_and!; [done..| | | |].
    + eapply Forall_impl; [exact Hws|]. intros c. cbv beta. by rewrite space_match.
    + destruct tok; [simpl in Hlen; lia|done].
    + eapply Forall_impl; [exact Htok|]. intros c. cbv beta. rewrite nonspace_match.
      by destruct (is_space c).
    + destruct (rest s3) as [|c ?]; [done|]. rewrite nonspace_match in Hstop.
      by destruct (is_space c).
Qed.

Lemma lit_label l lab :
  Forall2 (λ c x, cs_match (Lit c) x = true) l lab → lab = l.
Proof.
  induction 1 as [|c x l lab Hc _ IH]; [done|]. simpl in Hc.
  apply N.eqb_eq in Hc. by subst.
Qed.

(** C10: when the [CA:] strategy, or failing it the [contract:]
    strategy, supplies the contract, the contract is the first run of
    non-whitespace characters after the label, whatever these
    characters are, and it goes as it is into the GMGN link. *)
Theorem labelled_contract_is_any_token message :
  direct_mint message = false →
  re_search gmgn_re message = None →
  (is_Some (re_search ca_re message) →
   ∃ tok ch, token_after is_CA message tok ∧
     extract_contract_info message =
       Ok (Some {| type_ := cps "contract"; chain := Some ch; contract := Some tok;
                   url := cps "https://gmgn.ai/" ++ ch ++ cps "/token/" ++ tok |})) ∧
  (re_search ca_re message = None → is_Some (re_search contract_re message) →
   ∃ tok ch, token_after is_contract message tok ∧
     extract_contract_info message =
       Ok (Some {| type_ := cps "contract"; chain := Some ch; contract := Some tok;
                   url := cps "https://gmgn.ai/" ++ ch ++ cps "/token/" ++ tok |})).
Proof.
  intros Hmint Hgm. rewrite extract_contract_info_locate. unfold locate.
  assert (match re_search solana_mint_re message, re_search solana_marker_re message with
          | Some _, Some _ => False | _, _ => True end) as Hno.
  { unfold direct_mint in Hmint.
    by destruct (re_search solana_mint_re message), (re_search solana_marker_re message). }
  rewrite Hgm. split.
  - intros [m Hm]. rewrite Hm.
    destruct (labelled_search _ _ _ _ Hm) as (tok & -> & pre & lab & ws & post & ? & Hl & ?).
    apply lit_label in Hl.
    destruct (labelled_chain_ok chain_re message eq_refl ltac:(cbv; lia)) as [c Hc].
    exists tok, (gmgn_chain c). split; [by exists pre, lab, ws, post|].
    destruct (re_search solana_mint_re message), (re_search solana_marker_re message);
      try done; simpl; by rewrite Hc.
  - intros Hca [m Hm]. rewrite Hca, Hm.
    destruct (labelled_search _ _ _ _ Hm) as (tok & -> & Htok).
    destruct (labelled_chain_ok network_re message eq_refl ltac:(cbv; lia)) as [c Hc].
    exists tok, (gmgn_chain c). split; [done|].
    destruct (re_search solana_mint_re message), (re_search solana_marker_re message);
      try done; simpl; by rewrite Hc.
Qed.
End Labelled.

(** ** Text around a match *)

Section AroundFacts.
Context `{Unicode}.

Lemma filter_bind {A B} (P : B → Prop) `{∀ x, Decision (P x)} (f : A → list B) l :
  filter P (l ≫= f) = l ≫= (λ x, filter P (f x)).
Proof.
  induction l as [|x l IH]; [done|]. by rewrite !bind_cons, filter_app, IH.
Qed.

Lemma bind_filter_nil {A B} (P : A → Prop) `{∀ x, Decision (P x)} (f : A → list B) l :
  (∀ x, ¬ P x → f x = []) → l ≫= f = filter P l ≫= f.
Proof.
  intros Hf. induction l as [|x l IH]; [done|]. rewrite bind_cons, IH.
  destruct (decide (P x)) as [Hx|Hx].
  - by rewrite filter_cons_True, bind_cons.
  - by rewrite filter_cons_False, (Hf x Hx).
Qed.

Lemma fmap_bind_list {A B C} (g : B → C) (f : A → list B) (l : list A) :
  g <$> (l ≫= f) = l ≫= (λ x, g <$> f x).
Proof.
  induction l as [|x l IH]; [done|]. by rewrite !bind_cons, fmap_app, IH.
Qed.

Lemma filter_none {A} (P : A → Prop) `{∀ x, Decision (P x)} l :
  Forall (λ x, ¬ P x) l → filter P l = [].
Proof.
  induction 1 as [|x l Hx _ IH]; [done|]. by rewrite filter_cons_False, IH.
Qed.

(** *** Text after the match *)

Lemma rep_from_ext cs lo hi n pw s g v :
  filter (leaves (length v)) (rep_from cs lo hi n pw (s ++ v) g) =
  ext v <$> rep_from cs lo hi n pw s g.
Proof.
  revert n pw. induction s as [|c t IH]; intros n pw.
  - change ([] ++ v) with v.
    assert (filter (leaves (length v))
              (match v with
               | c :: t => if cs_match cs c && room n hi
                           then rep_from cs lo hi (S n) (is_word c) t g else []
               | [] => []
               end) = []) as Hpast.
    { destruct v as [|c t]; [done|]. destruct (cs_match cs c && room n hi); [|done].
      apply filter_none, Forall_forall. intros st Hst%rep_from_suffix%suffix_length.
      unfold leaves. simpl. lia. }
    destruct v as [|c t]; simpl in *.
    + destruct (lo <=? n)%nat; [|done]. rewrite filter_cons_True by (unfold leaves; simpl; lia).
      done.
    + rewrite filter_app, Hpast. destruct (lo <=? n)%nat; [|done].
      rewrite filter_cons_True by (unfold leaves; simpl; lia). done.
  - simpl. rewrite filter_app, fmap_app. f_equal.
    + destruct (cs_match cs c && room n hi); [apply IH|done].
    + destruct (lo <=? n)%nat; [|done].
      rewrite filter_cons_True by (unfold leaves; simpl; rewrite length_app; lia). done.
Qed.

Lemma set_group_ext n v st st' :
  rest st' `suffix_of` rest st →
  set_group n (ext v st) (ext v st') = ext v (set_group n st st').
Proof.
  intros Hsuf%suffix_length. unfold set_group, ext. simpl. f_equal. f_equal.
  rewrite !length_app, take_app_le by lia. f_equal. lia.
Qed.

(** The matches that stay clear of the text [v] after [s] are the
    matches in [s] alone. *)
Lemma run_ext r v st :
  has_bound r = false ∨ next_word v = false →
  filter (leaves (length v)) (run r (ext v st)) = ext v <$> run r st.
Proof.
  revert st. induction r as [|cs|a IHa b IHb|a IHa b IHb|n a IHa|cs lo hi|];
    intros st Hb; simpl.
  - rewrite filter_cons_True by (unfold leaves; simpl; rewrite length_app; lia). done.
  - destruct (rest st) as [|c t] eqn:Hrest; simpl.
    + destruct v as [|c t]; [done|]. destruct (cs_match cs c); [|done].
      rewrite filter_cons_False by (unfold leaves; simpl; lia). done.
    + destruct (cs_match cs c); [|done].
      rewrite filter_cons_True by (unfold leaves; simpl; rewrite length_app; lia). done.
  - assert (has_bound a = false ∨ next_word v = false) as Ha.
    { destruct Hb as [[??]%orb_false_iff|?]; auto. }
    assert (has_bound b = false ∨ next_word v = false) as Hb'.
    { destruct Hb as [[??]%orb_false_iff|?]; auto. }
    rewrite filter_bind.
    rewrite (bind_filter_nil (leaves (length v))).
    2:{ intros x Hx. apply filter_none, Forall_forall.
        intros st' Hst'%run_suffix%suffix_length. unfold leaves in *. lia. }
    rewrite IHa, list_fmap_bind, fmap_bind_list by done.
    apply list_bind_ext; [|done]. intros x. simpl. by apply IHb.
  - assert (has_bound a = false ∨ next_word v = false) as Ha.
    { destruct Hb as [[??]%orb_false_iff|?]; auto. }
    assert (has_bound b = false ∨ next_word v = false) as Hb'.
    { destruct Hb as [[??]%orb_false_iff|?]; auto. }
    by rewrite filter_app, fmap_app, IHa, IHb.
  - assert (filter (leaves (length v)) (set_group n (ext v st) <$> run a (ext v st))
            = set_group n (ext v st) <$> filter (leaves (length v)) (run a (ext v st))) as ->.
    { induction (run a (ext v st)) as [|x l IH]; [done|]. rewrite fmap_cons.
      destruct (decide (leaves (length v) x)) as [Hx|Hx].
      - rewrite !filter_cons_True by done. by rewrite fmap_cons, IH.
      - rewrite !filter_cons_False by done. done. }
    rewrite IHa by done. rewrite <- !list_fmap_compose.
    apply Forall_fmap_ext_1, Forall_forall. intros x Hx%run_suffix. simpl.
    by apply set_group_ext.
  - apply rep_from_ext.
  - destruct Hb as [?|Hv]; [done|].
    replace (next_word (rest st ++ v)) with (next_word (rest st)).
    2:{ destruct (rest st); [done|done]. }
    destruct (xorb _ _); [|done].
    rewrite filter_cons_True by (unfold leaves; simpl; rewrite length_app; lia). done.
Qed.

(** *** The character before the match *)

Lemma rep_from_same_place cs lo hi n pw1 pw2 s g :
  Forall2 same_place (rep_from cs lo hi n pw1 s g) (rep_from cs lo hi n pw2 s g).
Proof.
  destruct s as [|c t]; simpl.
  - destruct (lo <=? n)%nat; repeat constructor.
  - apply Forall2_app.
    + destruct (cs_match cs c && room n hi); [|constructor].
      apply Forall_Forall2_diag, Forall_forall. by intros.
    + destruct (lo <=? n)%nat; repeat constructor.
Qed.

Lemma run_same_place r st1 st2 :
  has_bound r = false → same_place st1 st2 →
  Forall2 same_place (run r st1) (run r st2).
Proof.
  revert st1 st2. induction r as [|cs|a IHa b IHb|a IHa b IHb|n a IHa|cs lo hi|];
    intros st1 st2 Hb Hp; pose proof Hp as [Hrest Hcaps]; simpl in *.
  - by repeat constructor.
  - rewrite Hrest, Hcaps. destruct (rest st2) as [|c t]; [constructor|].
    destruct (cs_match cs c); repeat constructor.
  - apply orb_false_iff in Hb as [Ha Hb].
    eapply Forall2_bind, Forall2_impl; [by apply IHa|]. intros x1 x2 Hx. by apply IHb.
  - apply orb_false_iff in Hb as [Ha Hb]. apply Forall2_app; [by apply IHa|by apply IHb].
  - apply Forall2_fmap. eapply Forall2_impl; [by apply IHa|].
    intros x1 x2 [Hx1 Hx2]. unfold set_group. split; simpl; [done|].
    by rewrite Hrest, Hx1, Hx2.
  - rewrite Hrest, Hcaps. apply rep_from_same_place.
  - done.
Qed.

Lemma match_at_same r i j pw1 pw2 s :
  has_bound r = false ∨ pw1 = pw2 →
  same_match (match_at r i pw1 s) (match_at r j pw2 s).
Proof.
  intros Hb. unfold match_at, same_match.
  assert (Forall2 same_place (run r (MState pw1 s ∅)) (run r (MState pw2 s ∅))) as Hrun.
  { destruct Hb as [Hb| ->].
    - by apply run_same_place.
    - apply Forall_Forall2_diag, Forall_forall. by intros. }
  destruct Hrun as [|st1 st2 l1 l2 [Hrest Hcaps] _]; simpl; [done|].
  by rewrite Hrest, Hcaps.
Qed.

Lemma search_from_same r i j pw1 pw2 s :
  has_bound r = false ∨ pw1 = pw2 →
  same_match (search_from r i pw1 s) (search_from r j pw2 s).
Proof.
  revert i j pw1 pw2. induction s as [|c t IH]; intros i j pw1 pw2 Hb; simpl.
  - pose proof (match_at_same r i j pw1 pw2 [] Hb) as Hm.
    destruct (match_at r i pw1 []), (match_at r j pw2 []); done.
  - pose proof (match_at_same r i j pw1 pw2 (c :: t) Hb) as Hm.
    destruct (match_at r i pw1 (c :: t)), (match_at r j pw2 (c :: t)); try done.
    apply IH. by right.
Qed.

(** *** Text before and after the match *)

Lemma search_from_unfold r i pw s :
  search_from r i pw s =
    match match_at r i pw s with
    | Some m => Some m
    | None => match s with
              | c :: t => search_from r (S i) (is_word c) t
              | [] => None
              end
    end.
Proof. by destruct s. Qed.

Lemma match_at_Some r i pw s mt :
  match_at r i pw s = Some mt →
  ∃ st l, run r (MState pw s ∅) = st :: l ∧
          mt = MkMatch i (take (length s - length (rest st)) s) (caps st) (ngroups r) ∧
          (length (rest st) ≤ length s)%nat.
Proof.
  unfold match_at. destruct (run r (MState pw s ∅)) as [|st l] eqn:Hrun; [done|].
  simpl. intros [= <-]. exists st, l. split_and!; [done..|].
  apply suffix_length, (run_suffix r (MState pw s ∅)). rewrite Hrun. left.
Qed.

(** *** The ticker and the direction *)

Lemma group_same a b k : same_match (Some a) (Some b) → group a k = group b k.
Proof. unfold same_match, group. simpl. by intros [= -> -> ->]. Qed.

Lemma ticker_fields_same bot_name a b :
  same_match (Some a) (Some b) → ticker_fields bot_name a = ticker_fields bot_name b.
Proof.
  intros Hab. unfold ticker_fields. by rewrite !(group_same a b _ Hab).
Qed.

Lemma extracted_same self bot_name bot s1 s2 :
  monitored_bots (config self) !! bot_name = Some bot →
  same_match (re_search (pattern bot) s1) (re_search (pattern bot) s2) →
  extracted self s1 bot_name = extracted self s2 bot_name.
Proof.
  intros Hbot Hsame. unfold extracted. rewrite Hbot. simpl.
  destruct (re_search (pattern bot) s1) as [a|], (re_search (pattern bot) s2) as [b|];
    try done.
  simpl. by rewrite (ticker_fields_same bot_name a b).
Qed.

(** What [extract_ticker_data] gives: the extracted fields, unless the
    blacklist stops the ticker. *)
Lemma extract_signal self message bot_name :
  signal (extract_ticker_data message bot_name self).1.1 =
    '(t, d) ← extracted self message bot_name;
    if blocked self t then None else Some (t, d).
Proof.
  unfold extract_ticker_data. rewrite try_exceptM_ret_ok.
  destruct (extracted self message bot_name) as [[t d]|] eqn:Hex; simpl.
  - rewrite (ticker_data_of_extracted _ _ _ _ _ Hex).
    unfold is_ticker_blacklisted, blocked. rewrite bind_bind, bind_get.
    destruct (blacklist_enabled self); simpl.
    + destruct t as [s|]; simpl; [|done].
      rewrite bind_bind, bind_lift_ok.
      destruct (bool_decide (upper s ∈ blacklisted_tickers self)).
      * by rewrite !bind_bind, bind_set_stats, !bind_ret.
      * rewrite !bind_bind, !bind_ret. simpl.
        destruct (locate_spec message) as [Hl|(?&?&?&Hl)];
          by rewrite extract_contract_info_locate, Hl, bind_lift_ok.
    + rewrite bind_ret. simpl.
      destruct (locate_spec message) as [Hl|(?&?&?&Hl)];
        by rewrite extract_contract_info_locate, Hl, bind_lift_ok.
  - unfold extracted in Hex. unfold ticker_data_of, getitem. rewrite bind_get.
    destruct (monitored_bots (config self) !! bot_name) as [bot|]; [|done].
    rewrite bind_lift_ok. simpl in Hex.
    destruct (re_search (pattern bot) message) as [tm|]; [|done]. simpl in Hex.
    destruct (ticker_fields bot_name tm); done.
Qed.

End AroundFacts.

(** [naive_solver] may clear a hypothesis twice; the warning says no more. *)
#[local] Set Warnings "-clear-no-such-hyp".

(** ** Groups and repetitions *)

Section GroupFacts.
Context `{Unicode}.

Lemma last_word_app pw u v : last_word pw (u ++ v) = last_word (last_word pw u) v.
Proof. unfold last_word. by rewrite foldl_app. Qed.

Lemma last_word_snoc pw u c : last_word pw (u ++ [c]) = is_word c.
Proof. by rewrite last_word_app. Qed.

(** What a repetition takes: between [lo] and [hi] characters of the
    set, and the state after them. *)
Lemma rep_from_taken cs lo hi n pw s g st :
  st ∈ rep_from cs lo hi n pw s g →
  ∃ tk, s = tk ++ rest st ∧ all_in cs tk ∧ (lo ≤ n + length tk)%nat ∧
        (∀ h, hi = Some h → (n ≤ h)%nat → (n + length tk ≤ h)%nat) ∧
        prev_word st = last_word pw tk ∧ caps st = g.
Proof.
  revert n pw. induction s as [|c t IH]; intros n pw; simpl.
  - destruct (Nat.leb_spec lo n); [|by intros ?%elem_of_nil].
    intros ->%list_elem_of_singleton. exists []. simpl.
    split_and!; [done|constructor|lia|intros; lia|done..].
  - rewrite elem_of_app. intros [Hin|Hin].
    + destruct (cs_match cs c) eqn:Hc; [|by apply elem_of_nil in Hin].
      destruct (room n hi) eqn:Hroom; [|by apply elem_of_nil in Hin]. simpl in Hin.
      apply IH in Hin as (tk & -> & Hall & Hlo & Hhi & Hpw & Hg).
      exists (c :: tk). simpl. split_and!; [done|by constructor|lia| |done..].
      intros h -> Hn. simpl in Hroom. apply Nat.ltb_lt in Hroom.
      specialize (Hhi h eq_refl). lia.
    + destruct (Nat.leb_spec lo n); [|by apply elem_of_nil in Hin].
      apply list_elem_of_singleton in Hin as ->.
      exists []. simpl. split_and!; [done|constructor|lia|intros; lia|done..].
Qed.

Lemma run_group_text r n st st' t :
  st' ∈ run r st → caps st' !! n = Some t →
  caps st !! n = Some t ∨
  ∃ a st1 st2, a ∈ bodies r n ∧ st2 ∈ run a st1 ∧ t = taken st1 st2.
Proof.
  revert st st' t. induction r as [|cs|a IHa b IHb|a IHa b IHb|k a IHa|cs lo hi|];
    intros st st' t; simpl.
  - intros ->%list_elem_of_singleton. by left.
  - destruct (rest st) as [|c u]; [by intros ?%elem_of_nil|].
    destruct (cs_match cs c); [|by intros ?%elem_of_nil].
    intros ->%list_elem_of_singleton. by left.
  - intros (mid & Hb & Ha)%list_elem_of_bind Ht.
    destruct (IHb _ _ _ Hb Ht) as [Hmid|(x & s1 & s2 & ? & ? & ?)].
    + destruct (IHa _ _ _ Ha Hmid) as [?|(x & s1 & s2 & ? & ? & ?)]; [by left|].
      right. exists x, s1, s2. rewrite elem_of_app. auto.
    + right. exists x, s1, s2. rewrite elem_of_app. auto.
  - rewrite elem_of_app. intros [Hin|Hin] Ht.
    + destruct (IHa _ _ _ Hin Ht) as [?|(x & s1 & s2 & ? & ? & ?)]; [by left|].
      right. exists x, s1, s2. rewrite elem_of_app. auto.
    + destruct (IHb _ _ _ Hin Ht) as [?|(x & s1 & s2 & ? & ? & ?)]; [by left|].
      right. exists x, s1, s2. rewrite elem_of_app. auto.
  - intros (st0 & -> & Hin)%list_elem_of_fmap. simpl.
    destruct (decide (k = n)) as [->|Hne].
    + rewrite lookup_insert_eq. intros [= <-]. right.
      exists a, st, st0. rewrite bool_decide_eq_true_2 by done.
      split; [left|done].
    + rewrite lookup_insert_ne by done. intros Ht.
      destruct (IHa _ _ _ Hin Ht) as [?|(x & s1 & s2 & ? & ? & ?)]; [by left|].
      right. exists x, s1, s2. rewrite bool_decide_eq_false_2 by done. auto.
  - intros Hin. rewrite (rep_from_caps _ _ _ _ _ _ _ _ Hin). by left.
  - destruct (xorb _ _); [|by intros ?%elem_of_nil].
    intros ->%list_elem_of_singleton. by left.
Qed.

(** The text of a group of a match is text that a body of that group took. *)
Lemma group_text r s m k t :
  re_search r s = Some m → group m k = Ok (Some t) → (k ≠ 0)%nat →
  ∃ a st1 st2, a ∈ bodies r k ∧ st2 ∈ run a st1 ∧ t = taken st1 st2.
Proof.
  intros (pre & suf & pw & st & l & _ & _ & Hrun & _ & Hg & Hn)%search_from_Some Hk Hne.
  unfold group in Hk. destruct (Nat.eqb_spec k 0); [done|].
  destruct (k <=? m_ngroups m)%nat; [|done]. injection Hk as Hk. rewrite Hg in Hk.
  destruct (run_group_text r k (MState pw suf ∅) st t) as [Hemp|?]; [|done| |done].
  - rewrite Hrun. left.
  - simpl in Hemp. by rewrite lookup_empty in Hemp.
Qed.

Lemma taken_app tk st st' : rest st = tk ++ rest st' → taken st st' = tk.
Proof.
  intros Heq. unfold taken. rewrite Heq, length_app, Nat.add_sub. apply take_app_length.
Qed.

(** A group around a repetition holds characters of the repeated set,
    as many as the repetition allows. *)
Lemma taken_rep cs lo hi st st' :
  st' ∈ run (Rep cs lo hi) st →
  all_in cs (taken st st') ∧ (lo ≤ length (taken st st'))%nat ∧
  (∀ h, hi = Some h → (length (taken st st') ≤ h)%nat).
Proof.
  simpl. intros (tk & Heq & Hall & Hlo & Hhi & _)%rep_from_taken.
  rewrite (taken_app tk) by done. split_and!; [done|lia|].
  intros h Hh. specialize (Hhi h Hh). lia.
Qed.

(** A group around a literal holds the literal. *)
Lemma taken_lit l st st' : st' ∈ run (lits Lit l) st → taken st st' = l.
Proof.
  intros (lab & Heq & _ & Hlab)%run_lits. apply lit_label in Hlab as ->.
  by apply taken_app.
Qed.

(** [re.search] tries the pattern after every prefix of the text; the
    matcher knows whether the prefix ends in a word character. *)
Lemma search_from_head r i pw s m :
  search_from r i pw s = Some m →
  ∃ pre suf st,
    s = pre ++ suf ∧ m_start m = (i + length pre)%nat ∧
    head (run r (MState (last_word pw pre) suf ∅)) = Some st ∧
    m_text m = taken (MState (last_word pw pre) suf ∅) st ∧
    m_groups m = caps st ∧ m_ngroups m = ngroups r.
Proof.
  revert i pw. induction s as [|c t IH]; intros i pw; simpl; unfold match_at.
  - destruct (run r (MState pw [] ∅)) as [|st l] eqn:Hrun; [done|]. simpl.
    intros [= <-]. exists [], [], st. simpl. rewrite Hrun, Nat.add_0_r. done.
  - destruct (run r (MState pw (c :: t) ∅)) as [|st l] eqn:Hrun; simpl.
    + intros (pre & suf & st & -> & Hi & ?)%IH.
      exists (c :: pre), suf, st. simpl. split; [done|]. split; [lia|done].
    + intros [= <-]. exists [], (c :: t), st. simpl. rewrite Hrun, Nat.add_0_r. done.
Qed.
End GroupFacts.

(** ** The direct-mint strategy *)

Section LocatorShapes.
Context `{Unicode}.

Lemma in_range_spec lo hi c : in_range lo hi c = true ↔ lo ≤ c ≤ hi.
Proof. unfold in_range. rewrite andb_true_iff, !N.leb_le. done. Qed.

Lemma is_word_ascii c :
  48 ≤ c ≤ 57 ∨ 65 ≤ c ≤ 90 ∨ 97 ≤ c ≤ 122 ∨ c = 95 → is_word c = true.
Proof.
  intros Hc. unfold is_word, is_ascii.
  destruct (N.ltb_spec c 128); [|lia].
  rewrite !orb_true_iff, !in_range_spec, N.eqb_eq. tauto.
Qed.

Lemma base58_word c : cs_match base58 c = true → is_word c = true.
Proof.
  unfold cs_match, base58, existsb, item_match.
  rewrite !orb_true_iff, !in_range_spec. intros Hc. apply is_word_ascii. lia.
Qed.

Lemma hexx_word c : cs_match hexx c = true → is_word c = true.
Proof.
  unfold cs_match, hexx, existsb, item_match.
  rewrite !orb_true_iff, !in_range_spec, N.eqb_eq. intros Hc. apply is_word_ascii. lia.
Qed.

Lemma word_match c : cs_match word c = is_word c.
Proof. unfold word, cs_match, existsb, item_match. apply orb_false_r. Qed.

Lemma last_word_all pw s :
  s ≠ [] → Forall (λ c, is_word c = true) s → last_word pw s = true.
Proof.
  destruct s as [|c s _] using rev_ind; [done|]. intros _ Hall.
  rewrite last_word_snoc. apply Forall_app in Hall as [_ Hc]. by inversion Hc.
Qed.

Lemma next_word_all s v :
  s ≠ [] → Forall (λ c, is_word c = true) s → next_word (s ++ v) = true.
Proof. destruct s as [|c s]; [done|]. intros _ Hall. by inversion Hall. Qed.

(** What the direct-mint pattern finds: a whole word of 32 to 44 base58
    characters. *)
Lemma solana_mint_search message m :
  re_search solana_mint_re message = Some m →
  ∃ pre a post,
    message = pre ++ a ++ post ∧ group m 1 = Ok (Some a) ∧
    (32 ≤ length a ≤ 44)%nat ∧ all_in base58 a ∧
    last_word false pre = false ∧ next_word post = false.
Proof.
  intros (pre & suf & st & -> & _ & Hhead & _ & Hg & Hn)%search_from_head.
  unfold solana_mint_re in Hhead. cbn [run] in Hhead.
  apply head_bind in Hhead as (s1 & Hb1 & Hhead).
  apply head_bind in Hhead as (s2 & Hgr & Hhead).
  cbn [prev_word rest] in Hb1.
  destruct (xorb _ _) eqn:Hx1 in Hb1; [|by apply elem_of_nil in Hb1].
  apply list_elem_of_singleton in Hb1 as ->.
  apply list_elem_of_fmap in Hgr as (s3 & -> & Hrep).
  apply rep_from_taken in Hrep as (a & Hsuf & Hall & Hlo & Hhi & Hpw & Hcaps).
  simpl in Hsuf, Hpw, Hcaps, Hlo. specialize (Hhi 44%nat eq_refl). simpl in Hhi.
  cbn [set_group prev_word rest] in Hhead.
  destruct (xorb _ _) eqn:Hx2 in Hhead; [|done]. injection Hhead as <-.
  assert (a ≠ []) as Hne by (intros ->; simpl in Hlo; lia).
  assert (Forall (λ c, is_word c = true) a) as Hword.
  { eapply Forall_impl; [exact Hall|]. apply base58_word. }
  exists pre, a, (rest s3). split_and!.
  - by rewrite Hsuf.
  - unfold group. change (1 =? 0)%nat with false. cbv iota.
    rewrite Hn, Hg. simpl. rewrite lookup_insert_eq.
    by rewrite Hsuf, length_app, Nat.add_sub, take_app_length.
  - lia.
  - lia.
  - done.
  - rewrite Hsuf, next_word_all in Hx1 by done. by destruct (last_word false pre).
  - rewrite Hpw, last_word_all in Hx2 by done. by destruct (next_word (rest s3)).
Qed.

(** X1: The direct-mint strategy returns a whole word of the message, of
    32 to 44 base58 characters, on the chain [sol]. *)
Theorem direct_mint_is_whole_word message :
  direct_mint message = true →
  ∃ pre a post,
    message = pre ++ a ++ post ∧
    (32 ≤ length a ≤ 44)%nat ∧ all_in base58 a ∧
    last_word false pre = false ∧ next_word post = false ∧
    extract_contract_info message =
      Ok (Some {| type_ := cps "gmgn"; chain := Some (cps "sol"); contract := Some a;
                  url := cps "https://gmgn.ai/sol/token/" ++ a |}).
Proof.
  unfold direct_mint. intros [Hmint Hmark]%andb_true_iff.
  apply bool_decide_eq_true in Hmint as [mint Hmint].
  apply bool_decide_eq_true in Hmark as [mark Hmark].
  destruct (solana_mint_search _ _ Hmint) as (pre & a & post & Hm & Hg & Hlen & Hall & Hpre & Hpost).
  exists pre, a, post. split_and!; try done; try lia.
  rewrite extract_contract_info_locate. unfold locate. rewrite Hmint, Hmark, Hg. reflexivity.
Qed.
End LocatorShapes.

(** ** The link strategies *)

Section Links.
Context `{Unicode}.

Lemma ngroups_lits mk l : ngroups (lits mk l) = 0%nat.
Proof. induction l as [|c l IH]; [done|]. simpl. by rewrite IH. Qed.

(** What a link pattern [l1(\w+)l2(body)] finds: the text of the link
    in the message, and its two groups. *)
Lemma link_search l1 l2 body message m :
  ngroups body = 0%nat →
  (∀ s s', s' ∈ run body s → caps s' = caps s) →
  re_search (lits Lit l1 ⋅ Group 1 (plus word) ⋅ lits Lit l2 ⋅ Group 2 body) message = Some m →
  ∃ pre c a post s1 s2,
    message = pre ++ l1 ++ c ++ l2 ++ a ++ post ∧
    group m 1 = Ok (Some c) ∧ group m 2 = Ok (Some a) ∧
    c ≠ [] ∧ Forall (λ x, is_word x = true) c ∧
    head (run body s1) = Some s2 ∧ rest s1 = a ++ post ∧ rest s2 = post.
Proof.
  intros Hng Hcaps (pre & suf & st & -> & _ & Hhead & _ & Hg & Hn)%search_from_head.
  unfold plus in Hhead. cbn [run] in Hhead.
  apply head_bind in Hhead as (s1 & Hl1 & Hhead).
  apply head_bind in Hhead as (s2 & Hc & Hhead).
  apply head_bind in Hhead as (s3 & Hl2 & Hhead).
  apply run_lits in Hl1 as (lab1 & Hsuf & Hcaps1 & Hlab1). apply lit_label in Hlab1 as ->.
  simpl in Hsuf, Hcaps1.
  apply list_elem_of_fmap in Hc as (s2' & -> & Hc).
  apply rep_from_taken in Hc as (c & Hs1 & Hall & Hlo & _ & _ & Hcaps2).
  apply run_lits in Hl2 as (lab2 & Hs2 & Hcaps3 & Hlab2). apply lit_label in Hlab2 as ->.
  cbn [set_group rest caps] in Hs2, Hcaps3.
  destruct (run body s3) as [|s4 k] eqn:Hbody; [done|].
  simpl in Hhead. injection Hhead as <-.
  assert (s4 ∈ run body s3) as Hin by (rewrite Hbody; left).
  pose proof (run_suffix _ _ _ Hin) as [a Ha].
  exists pre, c, a, (rest s4), s3, s4.
  assert (take (length (rest s1) - length (rest s2')) (rest s1) = c) as Hc1.
  { by rewrite Hs1, length_app, Nat.add_sub, take_app_length. }
  split_and!.
  - rewrite Hsuf, Hs1, Hs2, Ha. reflexivity.
  - unfold group. change (1 =? 0)%nat with false. cbv iota.
    rewrite Hn, Hg. simpl. rewrite !ngroups_lits, Hng. simpl.
    rewrite lookup_insert_ne by done. rewrite (Hcaps _ _ Hin), Hcaps3.
    by rewrite lookup_insert_eq, Hc1.
  - unfold group. change (2 =? 0)%nat with false. cbv iota.
    rewrite Hn, Hg. simpl. rewrite !ngroups_lits, Hng. simpl.
    by rewrite lookup_insert_eq, Ha, length_app, Nat.add_sub, take_app_length.
  - intros ->. simpl in Hlo. lia.
  - eapply Forall_impl; [exact Hall|]. intros x. cbv beta. by rewrite word_match.
  - by rewrite Hbody.
  - done.
  - done.
Qed.

Lemma rep_caps cs lo hi s s' : s' ∈ run (Rep cs lo hi) s → caps s' = caps s.
Proof. simpl. apply rep_from_caps. Qed.

(** The first result of [cs+] at a state: the longest run of characters
    of the set, which is not empty. *)
Lemma plus_head cs s1 s2 a post :
  head (run (plus cs) s1) = Some s2 → rest s1 = a ++ post → rest s2 = post →
  a ≠ [] ∧ all_in cs a ∧ match post with [] => True | c :: _ => cs_match cs c = false end.
Proof.
  unfold plus. cbn [run]. intros Hhead Hs1 Hs2.
  pose proof (rep_from_head_stop _ _ _ _ _ _ _ Hhead) as Hstop. rewrite Hs2 in Hstop.
  destruct (rep_from cs 1 None 0 (prev_word s1) (rest s1) (caps s1)) as [|s k] eqn:Hrep; [done|].
  injection Hhead as ->.
  assert (s2 ∈ rep_from cs 1 None 0 (prev_word s1) (rest s1) (caps s1)) as Hin
    by (rewrite Hrep; left).
  apply rep_from_taken in Hin as (tk & Htk & Hall & Hlo & _).
  rewrite Hs1, Hs2 in Htk. apply app_inv_tail in Htk as ->.
  split_and!; [|done..]. intros ->. simpl in Hlo. lia.
Qed.

Lemma head_app_Some {A} (l k : list A) x :
  head (l ++ k) = Some x → head l = Some x ∨ (l = [] ∧ head k = Some x).
Proof. destruct l; simpl; auto. Qed.

(** What the gmgn.ai pattern finds. *)
Lemma gmgn_search message m :
  re_search gmgn_re message = Some m →
  ∃ pre c a post,
    message = pre ++ cps "gmgn.ai/" ++ c ++ cps "/token/" ++ a ++ post ∧
    group m 1 = Ok (Some c) ∧ group m 2 = Ok (Some a) ∧
    c ≠ [] ∧ Forall (λ x, is_word x = true) c ∧
    a ≠ [] ∧ (all_in hexx a ∨ all_in base58 a).
Proof.
  intros Hm. apply link_search in Hm as (pre & c & a & post & s1 & s2 & Hmsg & Hc & Ha
    & Hne & Hw & Hhead & Hs1 & Hs2); [|done|].
  - exists pre, c, a, post. split_and!; [done..| |].
    + cbn [run] in Hhead. apply head_app_Some in Hhead as [Hhead|[_ Hhead]];
        by destruct (plus_head _ _ _ _ _ Hhead Hs1 Hs2).
    + cbn [run] in Hhead. apply head_app_Some in Hhead as [Hhead|[_ Hhead]];
        destruct (plus_head _ _ _ _ _ Hhead Hs1 Hs2) as (_ & ? & _); auto.
  - intros s s'. cbn [run]. rewrite elem_of_app. intros [?|?]; by eapply rep_caps.
Qed.

(** X2: When the direct-mint strategy does not fire, the link that is
    opened for a message with a gmgn.ai link is [https://] and the text
    of that link in the message: a chain made of word characters and an
    address made of [a-fA-F0-9x] or of base58 characters. *)
Theorem gmgn_link_is_copied message :
  direct_mint message = false →
  is_Some (re_search gmgn_re message) →
  ∃ pre c a post,
    message = pre ++ (cps "gmgn.ai/" ++ c ++ cps "/token/" ++ a) ++ post ∧
    c ≠ [] ∧ Forall (λ x, is_word x = true) c ∧
    a ≠ [] ∧ (all_in hexx a ∨ all_in base58 a) ∧
    extract_contract_info message =
      Ok (Some {| type_ := cps "gmgn"; chain := Some c; contract := Some a;
                  url := cps "https://" ++ (cps "gmgn.ai/" ++ c ++ cps "/token/" ++ a) |}).
Proof.
  intros Hno [gm Hgm].
  destruct (gmgn_search _ _ Hgm) as (pre & c & a & post & Hmsg & Hc & Ha & ? & ? & ? & ?).
  exists pre, c, a, post. split_and!; try done.
  - rewrite Hmsg. by rewrite <- !(assoc (++)).
  - rewrite extract_contract_info_locate, (locate_gmgn _ _ Hno Hgm), Hc, Ha. reflexivity.
Qed.

(** What the dexscreener pattern of the locator finds. *)
Lemma dexscreener_search message m :
  re_search dexscreener_re message = Some m →
  ∃ pre c a post,
    message = pre ++ cps "dexscreener.com/" ++ c ++ cps "/" ++ a ++ post ∧
    group m 1 = Ok (Some c) ∧ group m 2 = Ok (Some a) ∧
    c ≠ [] ∧ Forall (λ x, is_word x = true) c ∧
    a ≠ [] ∧ (41 ∉ a) ∧ match post with [] => True | x :: _ => x = 41 end.
Proof.
  intros Hm. apply link_search in Hm as (pre & c & a & post & s1 & s2 & Hmsg & Hc & Ha
    & Hne & Hw & Hhead & Hs1 & Hs2); [|done|apply rep_caps].
  destruct (plus_head _ _ _ _ _ Hhead Hs1 Hs2) as (Hane & Hall & Hstop).
  exists pre, c, a, post. split_and!; [done..| |].
  - intros Hin. unfold all_in in Hall. rewrite Forall_forall in Hall.
    specialize (Hall _ Hin). by vm_compute in Hall.
  - destruct post as [|x post]; [done|]. simpl in Hstop.
    rewrite orb_false_r in Hstop. apply negb_false_iff, N.eqb_eq in Hstop. done.
Qed.

(** X3: A bare dexscreener link: when no other strategy fires, the contract
    is the text after [dexscreener.com/<chain>/] up to the next closing
    parenthesis, or up to the end of the message when there is none. *)
Theorem dexscreener_contract_runs_to_parenthesis message :
  direct_mint message = false →
  re_search gmgn_re message = None →
  re_search ca_re message = None →
  re_search contract_re message = None →
  is_Some (re_search dexscreener_re message) →
  ∃ pre c a post,
    message = pre ++ cps "dexscreener.com/" ++ c ++ cps "/" ++ a ++ post ∧
    c ≠ [] ∧ Forall (λ x, is_word x = true) c ∧
    a ≠ [] ∧ (41 ∉ a) ∧ match post with [] => True | x :: _ => x = 41 end ∧
    extract_contract_info message =
      Ok (Some {| type_ := cps "dexscreener"; chain := Some (gmgn_chain c);
                  contract := Some a;
                  url := cps "https://gmgn.ai/" ++ gmgn_chain c ++ cps "/token/" ++ a |}).
Proof.
  intros Hno Hgm Hca Hco [dx Hdx].
  destruct (dexscreener_search _ _ Hdx) as (pre & c & a & post & Hmsg & Hc & Ha & ? & ? & ? & ? & ?).
  exists pre, c, a, post. split_and!; try done.
  rewrite extract_contract_info_locate. unfold locate. rewrite Hgm, Hca, Hco, Hdx, Hc, Ha.
  unfold direct_mint in Hno.
  destruct (re_search solana_mint_re message), (re_search solana_marker_re message);
    try done; reflexivity.
Qed.
End Links.

(** ** The steps of [process_message] *)

Lemma bind_run_events {A B} (x : M A) (f : A → M B) self a self' ev :
  x self = (Ok a, self', ev) →
  (x ≫= f) self = ((f a self').1.1, (f a self').1.2, ev ++ (f a self').2).
Proof. unfold mbind, M_bind. intros ->. by destruct (f a self') as [[??]?]. Qed.

Lemma bind_emit {B} e (f : () → M B) self :
  (emit e ≫= f) self = ((f () self).1.1, (f () self).1.2, e :: (f () self).2).
Proof. by rewrite (bind_run_events _ _ _ () self [e]). Qed.

Lemma bind_raise {A B} e (f : A → M B) self : (lift (Raise e) ≫= f) self = (Raise e, self, []).
Proof. done. Qed.

Section Pipeline.
Context `{Unicode}.

Lemma extracted_frame self self' message bot_name :
  same_cache self self' → extracted self' message bot_name = extracted self message bot_name.
Proof. intros (_ & _ & Hcfg & _). unfold extracted. by rewrite Hcfg. Qed.

Lemma blocked_frame self self' t : same_cache self self' → blocked self' t = blocked self t.
Proof. intros (_ & _ & _ & Hen & Hbl). unfold blocked. by rewrite Hen, Hbl. Qed.

Lemma ticker_data_frame self self' message bot_name :
  same_cache self self' → ticker_data self' message bot_name = ticker_data self message bot_name.
Proof.
  intros Hs. unfold ticker_data. rewrite (extracted_frame _ _ _ _ Hs).
  destruct (extracted self message bot_name) as [[t d]|]; [simpl|done].
  by rewrite (blocked_frame _ _ _ Hs).
Qed.

(** [extract_ticker_data], run. *)
Lemma extract_ticker_data_run message bot_name self :
  extract_ticker_data message bot_name self =
    (Ok (ticker_data self message bot_name), counted self message bot_name, []).
Proof.
  unfold extract_ticker_data, try_exceptM, ticker_data, counted.
  destruct (extracted self message bot_name) as [[t d]|] eqn:Hex; simpl.
  - rewrite (ticker_data_of_extracted _ _ _ _ _ Hex).
    unfold is_ticker_blacklisted, blocked. rewrite bind_bind, bind_get.
    destruct (blacklist_enabled self); simpl.
    + destruct t as [s|]; simpl; [|done].
      rewrite bind_bind, bind_lift_ok.
      destruct (bool_decide (upper s ∈ blacklisted_tickers self)).
      * by rewrite !bind_bind, bind_set_stats, !bind_ret.
      * rewrite !bind_bind, !bind_ret. simpl.
        destruct (locate_spec message) as [Hl|(?&?&?&Hl)];
          by rewrite extract_contract_info_locate, Hl, bind_lift_ok.
    + rewrite bind_ret. simpl.
      destruct (locate_spec message) as [Hl|(?&?&?&Hl)];
        rewrite extract_contract_info_locate, Hl, bind_lift_ok; by destruct t.
  - unfold extracted in Hex. unfold ticker_data_of, getitem. rewrite bind_get.
    destruct (monitored_bots (config self) !! bot_name) as [bot|]; [|done].
    rewrite bind_lift_ok. simpl in Hex.
    destruct (re_search (pattern bot) message) as [tm|]; [|done]. simpl in Hex.
    destruct (ticker_fields bot_name tm); done.
Qed.

Lemma ticker_data_signal self message bot_name :
  signal (extract_ticker_data message bot_name self).1.1 =
    (λ data, (ticker data, direction data)) <$> ticker_data self message bot_name.
Proof. rewrite extract_ticker_data_run. simpl. by destruct (ticker_data _ _ _). Qed.

(** The clipboard, the browser and the notification, run. *)
Lemma desktop_run {B} (data : TickerData) (f : () → M B) self :
  let mexc_ticker := convert_ticker_to_mexc (ticker data) in
  (copy_to_clipboard mexc_ticker;;
   open_gmgn (dex_info data);;
   send_notification (notification_msg (bot_name data) (ticker data) mexc_ticker) ≫= f) self =
  ((f () self).1.1, (f () self).1.2, effects (config self) data ++ (f () self).2).
Proof.
  intros mexc_ticker. unfold effects. fold mexc_ticker.
  unfold copy_to_clipboard, open_gmgn, send_notification.
  destruct (f () self) as [[r s'] ev'] eqn:Hf.
  rewrite !bind_bind, bind_get.
  destruct (auto_copy_clipboard (config self)); simpl.
  all: rewrite ?bind_bind, ?bind_emit, ?bind_ret, ?bind_bind, bind_get.
  all: destruct (auto_open_gmgn (config self)); simpl.
  all: try destruct (dex_info data) as [info|]; simpl.
  all: rewrite ?bind_bind, ?bind_emit, ?bind_ret, ?bind_bind, bind_get.
  all: destruct (notifications_enabled (config self)); simpl.
  all: try destruct (notifications_desktop (config self)); simpl.
  all: try destruct (notifications_sound (config self)); simpl.
  all: rewrite ?bind_bind, ?bind_emit, ?bind_ret, ?bind_bind, ?bind_emit, ?bind_ret, ?Hf; try done.
Qed.
End Pipeline.

Section ProcessRun.
Context `{Unicode} `{Runtime}.

Lemma ticker_data_Some self message name data :
  ticker_data self message name = Some data →
  bot_name data = name ∧ counted self message name = self ∧
  dex_info data = or_none (locate message).
Proof.
  unfold ticker_data, counted.
  destruct (extracted self message name) as [[t d]|]; [simpl|done].
  destruct (blocked self t) eqn:Hb; [done|]. intros [= <-]. simpl.
  split; [done|]. split; [|done]. destruct t; [|done]. by rewrite Hb.
Qed.

Lemma same_cache_stats f self : same_cache self (after_stats f self).
Proof. done. Qed.

Lemma same_cache_processed_config l self : config (after_processed l self) = config self.
Proof. done. Qed.

Lemma recorded_frame message bot_name message_id self m b :
  extracted (recorded message bot_name message_id self) m b = extracted self m b ∧
  (∀ t, blocked (recorded message bot_name message_id self) t = blocked self t) ∧
  ticker_data (recorded message bot_name message_id self) m b = ticker_data self m b.
Proof. done. Qed.

(** A new message without a signal. *)
Lemma process_message_silent message bot_name message_id self :
  message_hash message bot_name message_id ∉ processed_messages self →
  ticker_data self message bot_name = None →
  process_message message bot_name message_id self =
    (Ok NoTicker, counted (recorded message bot_name message_id self) message bot_name, []).
Proof.
  intros Hnew Hnone. unfold process_message, try_exceptM, process_body.
  rewrite (bind_run _ _ _ _ _ (seen_before_new _ _ _ _ Hnew)).
  unfold process_new. rewrite bind_set_stats. fold (recorded message bot_name message_id self).
  rewrite (bind_run _ _ _ _ _ (extract_ticker_data_run _ _ _)).
  destruct (recorded_frame message bot_name message_id self message bot_name) as (_ & _ & ->).
  by rewrite Hnone.
Qed.

(** A new message with a signal. *)
Lemma process_message_signal message bot_name message_id self data :
  message_hash message bot_name message_id ∉ processed_messages self →
  ticker_data self message bot_name = Some data →
  let cfg := config self in
  let self2 := after_stats bump_found (recorded message bot_name message_id self) in
  process_message message bot_name message_id self =
    if (stats_interval cfg =? 0)%Z then
      if (max_errors cfg <=? errors (stats self) + 1)%Z
      then (Ok Exited, after_stats bump_errors self2, effects cfg data ++ [Disconnect; Exit 1])
      else (Ok (Failed ZeroDivisionError), after_stats bump_errors self2, effects cfg data)
    else
      (Ok Handled, self2,
       effects cfg data ++
       if ((messages_processed (stats self) + 1) `mod` stats_interval cfg =? 0)%Z
       then [PrintStats] else []).
Proof.
  intros Hnew Hdata cfg self2. unfold process_message, try_exceptM, process_body.
  rewrite (bind_run _ _ _ _ _ (seen_before_new _ _ _ _ Hnew)).
  unfold process_new. rewrite bind_set_stats. fold (recorded message bot_name message_id self).
  rewrite (bind_run _ _ _ _ _ (extract_ticker_data_run _ _ _)).
  destruct (recorded_frame message bot_name message_id self message bot_name) as (_ & _ & Hfr).
  rewrite Hfr, Hdata.
  assert (ticker_data (recorded message bot_name message_id self) message bot_name = Some data)
    as Hdata' by (by rewrite Hfr).
  destruct (ticker_data_Some _ _ _ _ Hdata') as (Hbn & -> & _).
  rewrite bind_set_stats. fold self2. subst bot_name.
  pose proof (λ B (f : () → M B), desktop_run data f self2) as Hrun. cbv zeta in Hrun.
  rewrite Hrun. clear Hrun. rewrite bind_get.
  change (config self2) with cfg.
  change (messages_processed (stats self2)) with (messages_processed (stats self) + 1)%Z.
  destruct (stats_interval cfg =? 0)%Z.
  - rewrite bind_raise. cbn [fst snd]. rewrite app_nil_r.
    unfold on_error. rewrite bind_set_stats, bind_get.
    change (config (after_stats bump_errors self2)) with cfg.
    change (errors (stats (after_stats bump_errors self2))) with (errors (stats self) + 1)%Z.
    destruct (max_errors cfg <=? errors (stats self) + 1)%Z.
    + by rewrite !bind_emit.
    + cbn. by rewrite app_nil_r.
  - destruct (_ =? 0)%Z.
    + by rewrite bind_emit.
    + rewrite !bind_ret. cbn. by rewrite app_nil_r.
Qed.
End ProcessRun.

(** ** What the desktop receives *)

Section Effects.
Context `{Unicode}.

Lemma clipboard_in_effects cfg data text :
  Clipboard text ∈ effects cfg data ↔
  auto_copy_clipboard cfg = true ∧ text = convert_ticker_to_mexc (ticker data).
Proof.
  unfold effects. rewrite !elem_of_app.
  destruct (auto_copy_clipboard cfg), (auto_open_gmgn cfg), (dex_info data),
    (notifications_enabled cfg), (notifications_desktop cfg), (notifications_sound cfg);
    rewrite ?elem_of_app, ?elem_of_cons, ?elem_of_nil; naive_solver.
Qed.

Lemma browser_in_effects cfg data link :
  Browser link ∈ effects cfg data ↔
  auto_open_gmgn cfg = true ∧ ∃ info, dex_info data = Some info ∧ link = url info.
Proof.
  unfold effects. rewrite !elem_of_app.
  destruct (auto_copy_clipboard cfg), (auto_open_gmgn cfg), (dex_info data),
    (notifications_enabled cfg), (notifications_desktop cfg), (notifications_sound cfg);
    rewrite ?elem_of_app, ?elem_of_cons, ?elem_of_nil; naive_solver.
Qed.

Lemma shutdown_not_in_effects cfg data e :
  e ∈ effects cfg data → e ≠ Disconnect ∧ (∀ c, e ≠ Exit c) ∧ e ≠ PrintStats.
Proof.
  unfold effects. rewrite !elem_of_app.
  destruct (auto_copy_clipboard cfg), (auto_open_gmgn cfg), (dex_info data),
    (notifications_enabled cfg), (notifications_desktop cfg), (notifications_sound cfg);
    rewrite ?elem_of_app, ?elem_of_cons, ?elem_of_nil; naive_solver.
Qed.

Lemma or_none_locate message info :
  or_none (locate message) = Some info ↔ extract_contract_info message = Ok (Some info).
Proof.
  rewrite extract_contract_info_locate.
  destruct (locate_spec message) as [->|(?&?&?&->)]; simpl; naive_solver.
Qed.
End Effects.

Section ProcessFacts.
Context `{Unicode} `{Runtime}.

(** The three ways a call of [process_message] goes. *)
Lemma process_message_cases message bot_name message_id self :
  let h := message_hash message bot_name message_id in
  (h ∈ processed_messages self ∧
   process_message message bot_name message_id self = (Ok Duplicate, self, [])) ∨
  ((h ∉ processed_messages self) ∧ ticker_data self message bot_name = None ∧
   process_message message bot_name message_id self =
     (Ok NoTicker, counted (recorded message bot_name message_id self) message bot_name, [])) ∨
  ((h ∉ processed_messages self) ∧ ∃ data, ticker_data self message bot_name = Some data ∧
   process_message message bot_name message_id self =
     if (stats_interval (config self) =? 0)%Z then
       if (max_errors (config self) <=? errors (stats self) + 1)%Z
       then (Ok Exited,
             after_stats bump_errors (after_stats bump_found (recorded message bot_name message_id self)),
             effects (config self) data ++ [Disconnect; Exit 1])
       else (Ok (Failed ZeroDivisionError),
             after_stats bump_errors (after_stats bump_found (recorded message bot_name message_id self)),
             effects (config self) data)
     else
       (Ok Handled, after_stats bump_found (recorded message bot_name message_id self),
        effects (config self) data ++
        if ((messages_processed (stats self) + 1) `mod` stats_interval (config self) =? 0)%Z
        then [PrintStats] else [])).
Proof.
  intros h.
  destruct (decide (h ∈ processed_messages self)) as [Hin|Hnew].
  { left. split; [done|]. by apply process_message_old. }
  right. destruct (ticker_data self message bot_name) as [data|] eqn:Hdata.
  - right. split; [done|]. exists data. split; [done|].
    by apply process_message_signal.
  - left. split; [done|]. split; [done|]. by apply process_message_silent.
Qed.

(** X4: A message is dropped as a duplicate exactly when its hash is in the
    cache, and then the monitor is left as it was and the desktop
    receives nothing. *)
Theorem duplicate_iff_cached message bot_name message_id self :
  let r := process_message message bot_name message_id self in
  (r.1.1 = Ok Duplicate ↔
   message_hash message bot_name message_id ∈ processed_messages self) ∧
  (r.1.1 = Ok Duplicate → r.1.2 = self ∧ r.2 = []).
Proof.
  intros r. subst r.
  destruct (process_message_cases message bot_name message_id self)
    as [[Hin ->]|[(Hnew & _ & ->)|(Hnew & data & _ & ->)]]; simpl.
  - done.
  - split; [|done]. split; [done|]. intros ?. by destruct Hnew.
  - destruct (_ =? 0)%Z; [destruct (_ <=? _)%Z|]; simpl;
      (split; [|done]); (split; [done|]); intros ?; by destruct Hnew.
Qed.

(** X5: Without a signal (no ticker for the source, an unknown source, a
    ticker in the blacklist) the desktop receives nothing and nothing is
    counted as found or as an error. *)
Theorem silent_without_signal message bot_name message_id self :
  signal (extract_ticker_data message bot_name self).1.1 = None →
  let r := process_message message bot_name message_id self in
  r.2 = [] ∧ (r.1.1 = Ok Duplicate ∨ r.1.1 = Ok NoTicker) ∧
  tickers_found (stats r.1.2) = tickers_found (stats self) ∧
  errors (stats r.1.2) = errors (stats self).
Proof.
  rewrite ticker_data_signal. intros Hsig r. subst r.
  destruct (process_message_cases message bot_name message_id self)
    as [[Hin ->]|[(Hnew & _ & ->)|(Hnew & data & Hdata & _)]]; simpl.
  - auto.
  - split; [done|]. split; [auto|]. unfold counted.
    destruct (extracted _ _ _) as [[[t|] d]|]; try done.
    by destruct (blocked _ _).
  - by rewrite Hdata in Hsig.
Qed.

(** X6: The clipboard receives a text exactly for a message that is new and
    gives a signal, with [auto_copy_clipboard] on, and the text is
    [MEXC:], the ticker and [USDT.p]. *)
Theorem clipboard_gets_mexc_symbol message bot_name message_id self text :
  Clipboard text ∈ (process_message message bot_name message_id self).2 ↔
  (message_hash message bot_name message_id ∉ processed_messages self) ∧
  auto_copy_clipboard (config self) = true ∧
  ∃ t d, signal (extract_ticker_data message bot_name self).1.1 = Some (t, d) ∧
         text = cps "MEXC:" ++ fmt t ++ cps "USDT.p".
Proof.
  rewrite ticker_data_signal.
  destruct (process_message_cases message bot_name message_id self)
    as [[Hin ->]|[(Hnew & Hdata & ->)|(Hnew & data & Hdata & ->)]]; simpl.
  - rewrite elem_of_nil. naive_solver.
  - rewrite elem_of_nil, Hdata. naive_solver.
  - rewrite Hdata. simpl.
    assert (Clipboard text ∈ effects (config self) data ↔
            auto_copy_clipboard (config self) = true ∧
            ∃ t d, Some (ticker data, direction data) = Some (t, d) ∧
                   text = cps "MEXC:" ++ fmt t ++ cps "USDT.p") as Heff.
    { rewrite clipboard_in_effects. unfold convert_ticker_to_mexc. naive_solver. }
    destruct (_ =? 0)%Z; [destruct (_ <=? _)%Z|destruct (_ =? 0)%Z]; simpl;
      rewrite ?elem_of_app, ?elem_of_cons, ?elem_of_nil, ?app_nil_r, Heff; naive_solver.
Qed.

(** X7: The browser receives a link exactly for a message that is new and
    gives a signal, with [auto_open_gmgn] on and a contract located in
    the message; the link is the GMGN link of that contract. *)
Theorem browser_gets_gmgn_link message bot_name message_id self link :
  Browser link ∈ (process_message message bot_name message_id self).2 ↔
  (message_hash message bot_name message_id ∉ processed_messages self) ∧
  auto_open_gmgn (config self) = true ∧
  is_Some (signal (extract_ticker_data message bot_name self).1.1) ∧
  ∃ ch co ty,
    extract_contract_info message =
      Ok (Some {| type_ := ty; chain := Some ch; contract := Some co; url := link |}) ∧
    link = cps "https://gmgn.ai/" ++ ch ++ cps "/token/" ++ co.
Proof.
  rewrite ticker_data_signal.
  destruct (process_message_cases message bot_name message_id self)
    as [[Hin ->]|[(Hnew & Hdata & ->)|(Hnew & data & Hdata & ->)]]; simpl.
  - rewrite elem_of_nil. naive_solver.
  - rewrite elem_of_nil, Hdata. simpl. split; [done|]. by intros (_ & _ & [? [=]] & _).
  - rewrite Hdata. simpl.
    destruct (ticker_data_Some _ _ _ _ Hdata) as (_ & _ & Hdex).
    assert (Browser link ∈ effects (config self) data ↔
            auto_open_gmgn (config self) = true ∧
            ∃ ch co ty,
              extract_contract_info message =
                Ok (Some {| type_ := ty; chain := Some ch; contract := Some co; url := link |}) ∧
              link = cps "https://gmgn.ai/" ++ ch ++ cps "/token/" ++ co) as Heff.
    { rewrite browser_in_effects, Hdex. split.
      - intros (Hopen & info & Hinfo%or_none_locate & ->). split; [done|].
        rewrite extract_contract_info_locate in Hinfo.
        destruct (locate_spec message) as [Hl|(ty & ch & co & Hl)]; rewrite Hl in Hinfo; [done|].
        injection Hinfo as <-. simpl. exists ch, co, ty.
        by rewrite extract_contract_info_locate, Hl.
      - intros (Hopen & ch & co & ty & Hinfo & _). split; [done|].
        eexists. split; [by apply or_none_locate|done]. }
    destruct (_ =? 0)%Z; [destruct (_ <=? _)%Z|destruct (_ =? 0)%Z]; simpl;
      rewrite ?elem_of_app, ?elem_of_cons, ?elem_of_nil, ?app_nil_r, Heff; naive_solver.
Qed.
End ProcessFacts.

(** ** Errors, shutdown and counters *)

Lemma set_of_list_length l : (length (set_of_list l) ≤ length l)%nat.
Proof.
  unfold set_of_list.
  assert (∀ acc, length (foldl (λ s x, set_add x s) acc l) ≤ length acc + length l)%nat as Hgen.
  { induction l as [|x l IH]; intros acc; simpl; [lia|].
    etrans; [apply IH|]. unfold set_add. destruct (bool_decide _); [lia|].
    rewrite length_app. simpl. lia. }
  apply (Hgen []).
Qed.

Lemma slice_from_length {A} k (l : list A) : (length (slice_from k l) ≤ length l)%nat.
Proof. unfold slice_from. rewrite length_drop. lia. Qed.

Section Counters.
Context `{Unicode} `{Runtime}.

Lemma record_length max h cache :
  (length (record max h cache) ≤ length cache + 1)%nat.
Proof.
  unfold record. destruct (bool_decide (h ∈ cache)) eqn:Hin; [lia|].
  apply bool_decide_eq_false in Hin. rewrite set_add_new by done.
  destruct (_ <? _)%Z.
  - etrans; [apply set_of_list_length|]. etrans; [apply slice_from_length|].
    rewrite (set_iter_perm _), length_app. simpl. lia.
  - rewrite length_app. simpl. lia.
Qed.

(** X8: [process_message] fails exactly on a new message that gives a signal
    when [stats_interval] is 0 (the remainder by it raises
    [ZeroDivisionError]); this is the only way an error is counted. *)
Theorem fails_iff_zero_interval message bot_name message_id self :
  let r := process_message message bot_name message_id self in
  let zero :=
    stats_interval (config self) = 0%Z ∧
    (message_hash message bot_name message_id ∉ processed_messages self) ∧
    is_Some (signal (extract_ticker_data message bot_name self).1.1) in
  (r.1.1 = Ok (Failed ZeroDivisionError) ∨ r.1.1 = Ok Exited ↔ zero) ∧
  (r.1.1 = Ok Duplicate ∨ r.1.1 = Ok NoTicker ∨ r.1.1 = Ok Handled ↔ ¬ zero) ∧
  (zero → errors (stats r.1.2) = (errors (stats self) + 1)%Z) ∧
  (¬ zero → errors (stats r.1.2) = errors (stats self)).
Proof.
  intros r zero. subst r zero. rewrite ticker_data_signal.
  destruct (process_message_cases message bot_name message_id self)
    as [[Hin ->]|[(Hnew & Hdata & ->)|(Hnew & data & Hdata & ->)]]; simpl.
  - split_and!; [naive_solver..|done].
  - rewrite Hdata. simpl.
    assert (errors (stats (counted (recorded message bot_name message_id self) message bot_name))
            = errors (stats self)) as ->.
    { unfold counted.
      destruct (extracted _ _ _) as [[[t|] d]|]; try done. by destruct (blocked _ _). }
    assert (¬ is_Some (@None (option str * option str))) as Hno by (by intros [? [=]]).
    split_and!; [naive_solver..|done].
  - rewrite Hdata. simpl.
    assert (is_Some (Some (ticker data, direction data))) as Hyes by eauto.
    destruct (Z.eqb_spec (stats_interval (config self)) 0) as [Hz|Hz].
    + destruct (_ <=? _)%Z; simpl; split_and!; naive_solver.
    + simpl. split_and!; naive_solver.
Qed.

(** X9: The monitor shuts down exactly when a failure brings the number of
    errors to [max_errors]: it then disconnects and exits with status 1,
    after the desktop was served. *)
Theorem shutdown_at_max_errors message bot_name message_id self :
  let r := process_message message bot_name message_id self in
  (r.1.1 = Ok Exited ↔
   (r.1.1 = Ok (Failed ZeroDivisionError) ∨ r.1.1 = Ok Exited) ∧
   (max_errors (config self) ≤ errors (stats self) + 1)%Z) ∧
  (r.1.1 = Ok Exited → ∃ served, r.2 = served ++ [Disconnect; Exit 1] ∧
                                  (Disconnect ∉ served) ∧ ∀ c, Exit c ∉ served) ∧
  (r.1.1 ≠ Ok Exited → (Disconnect ∉ r.2) ∧ ∀ c, Exit c ∉ r.2).
Proof.
  intros r. subst r.
  destruct (process_message_cases message bot_name message_id self)
    as [[Hin ->]|[(Hnew & Hdata & ->)|(Hnew & data & Hdata & ->)]]; simpl.
  - split_and!; [naive_solver..|]. intros _. split; [|intros c]; apply not_elem_of_nil.
  - split_and!; [naive_solver..|]. intros _. split; [|intros c]; apply not_elem_of_nil.
  - assert ((Disconnect ∉ effects (config self) data) ∧ ∀ c, Exit c ∉ effects (config self) data)
      as [Hd He].
    { split; [|intros c]; intros Hin%shutdown_not_in_effects; naive_solver. }
    destruct (Z.eqb_spec (stats_interval (config self)) 0) as [Hz|Hz];
      [destruct (Z.leb_spec (max_errors (config self)) (errors (stats self) + 1))|];
      simpl.
    + split_and!; [naive_solver| |done]. intros _. by eexists.
    + split_and!; [split; [done|]; intros [_ ?]; lia|done|done].
    + split_and!; [naive_solver|done|]. intros _.
      split; [|intros c]; rewrite elem_of_app; intros [?|Hin]; try naive_solver;
        destruct (_ =? 0)%Z; rewrite ?elem_of_cons, ?elem_of_nil in Hin; naive_solver.
Qed.

Lemma process_message_stats_inv message bot_name message_id self :
  stats_inv self → stats_inv (after (process_message message bot_name message_id) self).
Proof.
  unfold stats_inv, after. intros Hinv.
  pose proof (record_length (max_cache_size self) (message_hash message bot_name message_id)
                (processed_messages self)) as Hrec.
  destruct (process_message_cases message bot_name message_id self)
    as [[Hin ->]|[(Hnew & Hdata & ->)|(Hnew & data & Hdata & ->)]]; simpl.
  - done.
  - unfold counted.
    destruct (extracted _ _ _) as [[[t|] d]|]; try destruct (blocked _ _); simpl; lia.
  - destruct (_ =? 0)%Z; [destruct (_ <=? _)%Z|]; simpl; lia.
Qed.

(** X10: In every run the counters are consistent: the tickers found and
    those stopped by the blacklist are at most the messages processed,
    the errors at most the tickers found, and the cache holds at most
    one hash for each message processed. *)
Theorem counters_consistent cfg self : reachable cfg self → stats_inv self.
Proof.
  induction 1 as [|self message bot_name message_id _ IH].
  - unfold stats_inv. simpl. lia.
  - by apply process_message_stats_inv.
Qed.

(** X11: Only the first 100 characters of the text take part in the check
    for duplicates: after a message, a message of the same source with
    the same id whose text differs after them is dropped. *)
Theorem same_prefix_is_duplicate cfg self m1 m2 bot_name message_id :
  reachable cfg self →
  (length (processed_messages self) < 1000)%nat →
  take 100 m1 = take 100 m2 →
  let self' := after (process_message m1 bot_name message_id) self in
  process_message m2 bot_name message_id self' = (Ok Duplicate, self', []).
Proof.
  intros (Hmax & Hnd & Hlen)%reachable_inv Hroom Hpre self'. subst self'.
  apply process_message_old.
  assert (message_hash m2 bot_name message_id = message_hash m1 bot_name message_id) as ->.
  { unfold message_hash. by rewrite Hpre. }
  destruct (process_message_cache m1 bot_name message_id self) as (-> & _).
  rewrite Hmax. unfold record.
  destruct (decide (message_hash m1 bot_name message_id ∈ processed_messages self)) as [Hin|Hin].
  - by rewrite bool_decide_eq_true_2.
  - rewrite bool_decide_eq_false_2, set_add_new by done. rewrite length_app. simpl.
    destruct (Z.ltb_spec 1000 (Z.of_nat (length (processed_messages self) + 1))); [lia|].
    apply elem_of_app. right. left.
Qed.
End Counters.

(** ** Letter case: the chain normaliser and the blacklist *)

Section Case.
Context `{Unicode}.

Lemma lower_ascii_spec c :
  is_ascii c = true →
  is_ascii (lower_ascii c) = true ∧ in_range 65 90 (lower_ascii c) = false ∧
  lower_ascii (lower_ascii c) = lower_ascii c ∧ upper_ascii (lower_ascii c) = upper_ascii c.
Proof.
  unfold is_ascii, lower_ascii, upper_ascii. intros Hc%N.ltb_lt.
  destruct (in_range 65 90 c) eqn:Hr.
  - apply in_range_spec in Hr.
    assert (in_range 65 90 (c + 32) = false) as ->.
    { apply not_true_is_false. rewrite in_range_spec. lia. }
    assert (in_range 97 122 (c + 32) = true) as -> by (apply in_range_spec; lia).
    assert (in_range 97 122 c = false) as ->.
    { apply not_true_is_false. rewrite in_range_spec. lia. }
    split_and!; [apply N.ltb_lt; lia|done|done|lia].
  - rewrite Hr. split_and!; [by apply N.ltb_lt|done..].
Qed.

Lemma upper_ascii_spec c :
  is_ascii c = true →
  is_ascii (upper_ascii c) = true ∧ in_range 97 122 (upper_ascii c) = false ∧
  lower_ascii (upper_ascii c) = lower_ascii c.
Proof.
  unfold is_ascii, lower_ascii, upper_ascii. intros Hc%N.ltb_lt.
  destruct (in_range 97 122 c) eqn:Hr.
  - apply in_range_spec in Hr.
    assert (in_range 97 122 (c - 32) = false) as ->.
    { apply not_true_is_false. rewrite in_range_spec. lia. }
    assert (in_range 65 90 (c - 32) = true) as -> by (apply in_range_spec; lia).
    assert (in_range 65 90 c = false) as ->.
    { apply not_true_is_false. rewrite in_range_spec. lia. }
    split_and!; [apply N.ltb_lt; lia|done|lia].
  - split_and!; [by apply N.ltb_lt|done..].
Qed.

Lemma forallb_ascii_fmap (f : N → N) s :
  (∀ c, is_ascii c = true → is_ascii (f c) = true) →
  forallb is_ascii s = true → forallb is_ascii (f <$> s) = true.
Proof.
  intros Hf. induction s as [|c s IH]; [done|]. rewrite fmap_cons. cbn [forallb].
  intros [Hc Hs]%andb_true_iff. by rewrite Hf, IH.
Qed.

Lemma ascii_elem s c : forallb is_ascii s = true → c ∈ s → is_ascii c = true.
Proof.
  induction s as [|x s IH]; [by intros _ ?%elem_of_nil|]. cbn [forallb].
  intros [Hx Hs]%andb_true_iff [->|Hc]%elem_of_cons; auto.
Qed.

(** [lower] and [upper] on ASCII strings. *)
Lemma lower_ascii_str s :
  forallb is_ascii s = true →
  lower s = lower_ascii <$> s ∧ forallb is_ascii (lower s) = true ∧
  lower (lower s) = lower s ∧ lower (upper s) = lower s ∧ upper (lower s) = upper s.
Proof.
  intros Hs.
  assert (forallb is_ascii (lower_ascii <$> s) = true) as Hl.
  { apply forallb_ascii_fmap; [|done]. intros c Hc. by destruct (lower_ascii_spec c Hc). }
  assert (forallb is_ascii (upper_ascii <$> s) = true) as Hu.
  { apply forallb_ascii_fmap; [|done]. intros c Hc. by destruct (upper_ascii_spec c Hc). }
  unfold lower, upper. rewrite !Hs, ?Hl, ?Hu.
  split_and!; [done..| | |]; rewrite <- list_fmap_compose;
    apply Forall_fmap_ext_1, Forall_forall; intros c Hc; simpl.
  - by destruct (lower_ascii_spec c (ascii_elem _ _ Hs Hc)) as (?&?&?&?).
  - by destruct (upper_ascii_spec c (ascii_elem _ _ Hs Hc)) as (?&?&?).
  - by destruct (lower_ascii_spec c (ascii_elem _ _ Hs Hc)) as (?&?&?&?).
Qed.

(** X12: On names written in ASCII the chain normaliser does not look at the
    case of the letters, and normalising twice is normalising once. *)
Theorem gmgn_chain_ascii name :
  forallb is_ascii name = true →
  gmgn_chain (upper name) = gmgn_chain name ∧
  gmgn_chain (lower name) = gmgn_chain name ∧
  gmgn_chain (gmgn_chain name) = gmgn_chain name.
Proof.
  intros Hs. destruct (lower_ascii_str name Hs) as (_ & Hl & Hll & Hlu & _).
  split_and!.
  - unfold gmgn_chain. by rewrite Hlu.
  - unfold gmgn_chain. by rewrite Hll.
  - assert (gmgn_chain name = default (lower name) (chain_mapping !! lower name)) as Hn by done.
    destruct (chain_mapping !! lower name) as [code|] eqn:Hcode; simpl in Hn; rewrite Hn.
    + by eapply gmgn_chain_code_fixed.
    + unfold gmgn_chain. by rewrite Hll, Hcode.
Qed.

Lemma upper_no_lower_case s c :
  forallb is_ascii s = true → c ∈ upper s → in_range 97 122 c = false.
Proof.
  intros Hs. unfold upper. rewrite Hs.
  intros (x & -> & Hx)%list_elem_of_fmap.
  by destruct (upper_ascii_spec x (ascii_elem _ _ Hs Hx)) as (?&?&?).
Qed.

(** X13: The blacklist is looked up with the ticker in upper case, so the
    case of an ASCII ticker does not matter. *)
Theorem blacklist_ignores_ticker_case self t t' :
  forallb is_ascii t = true → forallb is_ascii t' = true →
  lower t = lower t' →
  is_ticker_blacklisted (Some t) self = is_ticker_blacklisted (Some t') self.
Proof.
  intros Ht Ht' Heq.
  assert (upper t = upper t') as Hup.
  { destruct (lower_ascii_str t Ht) as (_ & _ & _ & _ & <-).
    destruct (lower_ascii_str t' Ht') as (_ & _ & _ & _ & <-). by rewrite Heq. }
  unfold is_ticker_blacklisted. simpl. by rewrite Hup.
Qed.

(** X14: An entry of the blacklist that holds a lower-case letter a-z stops
    no ASCII ticker: when every entry holds one, no ticker is stopped and
    nothing is counted. *)
Theorem lower_case_entries_block_nothing self t :
  forallb is_ascii t = true →
  (∀ e, e ∈ blacklisted_tickers self → ∃ c, c ∈ e ∧ in_range 97 122 c = true) →
  is_ticker_blacklisted (Some t) self = (Ok false, self, []).
Proof.
  intros Ht Hentries. unfold is_ticker_blacklisted. rewrite bind_get.
  destruct (blacklist_enabled self); [simpl|done].
  rewrite bind_lift_ok. rewrite bool_decide_eq_false_2.
  - by rewrite bind_ret.
  - intros (c & Hc & Hr)%Hentries. by rewrite (upper_no_lower_case t c) in Hr.
Qed.
End Case.

(** ** The handler of new messages *)

Lemma find_bot_None items u :
  (∀ name bot, (name, bot) ∈ items → username bot = u → enabled bot = false) →
  find_bot items u = None.
Proof.
  induction items as [|[name bot] items IH]; intros Hall; simpl; [done|].
  destruct (decide (username bot = u)) as [Hu|Hu].
  - rewrite (Hall name bot ltac:(left) Hu), andb_false_r.
    apply IH. intros n b Hin. apply (Hall n b). by right.
  - rewrite bool_decide_eq_false_2 by done. simpl.
    apply IH. intros n b Hin. apply (Hall n b). by right.
Qed.

Lemma find_bot_Some items u name :
  find_bot items u = Some name →
  ∃ bot, (name, bot) ∈ items ∧ username bot = u ∧ enabled bot = true.
Proof.
  induction items as [|[n b] items IH]; simpl; [done|].
  destruct (bool_decide (username b = u)) eqn:Hu; simpl.
  - destruct (enabled b) eqn:He.
    + intros [= <-]. apply bool_decide_eq_true in Hu. exists b. split; [left|done].
    + intros (bot & ? & ?)%IH. exists bot. split; [by right|done].
  - intros (bot & ? & ?)%IH. exists bot. split; [by right|done].
Qed.

Lemma find_bot_is_Some items u name bot :
  (name, bot) ∈ items → username bot = u → enabled bot = true →
  is_Some (find_bot items u).
Proof.
  intros Hin Hu He.
  destruct (find_bot items u) eqn:Hf; [done|].
  induction items as [|[n b] items IH]; [by apply elem_of_nil in Hin|].
  simpl in Hf. apply elem_of_cons in Hin as [[= <- <-]|Hin].
  - rewrite bool_decide_eq_true_2, He in Hf by done. done.
  - destruct (bool_decide (username b = u) && enabled b); [done|]. by apply IH.
Qed.

Lemma truthy_Some x s : truthy x = Some s ↔ x = Some s ∧ s ≠ [].
Proof. destruct x as [[|c t]|]; simpl; naive_solver. Qed.

Lemma truthy_None x : truthy x = None ↔ x = None ∨ x = Some [].
Proof. destruct x as [[|c t]|]; simpl; naive_solver. Qed.

Section HandlerFacts.
Context `{Unicode} `{Runtime} `{BotOrder}.

Lemma bot_items_lookup bots name bot :
  (name, bot) ∈ bot_items bots ↔ bots !! name = Some bot.
Proof. by rewrite (bot_items_perm bots), elem_of_map_to_list. Qed.

Lemma process_message_ok message bot_name message_id self :
  ∃ o, (process_message message bot_name message_id self).1.1 = Ok o.
Proof.
  destruct (process_message_cases message bot_name message_id self)
    as [[Hin ->]|[(Hnew & Hdata & ->)|(Hnew & data & Hdata & ->)]]; simpl; [eauto..|].
  destruct (_ =? 0)%Z; [destruct (_ <=? _)%Z|]; simpl; eauto.
Qed.

(** X15: A message whose sender is not a user, a channel or a chat, has no
    username, or has a username under which no enabled bot is
    configured, is not processed: the monitor stays as it is and the
    desktop receives nothing. *)
Theorem foreign_sender_is_ignored event self :
  (∀ u name bot,
     sender event = Some (Some u) →
     monitored_bots (config self) !! name = Some bot →
     username bot = u → enabled bot = false) →
  handle_new_message event self = (Ok None, self, []).
Proof.
  intros Hforeign. unfold handle_new_message, try_exceptM.
  destruct (sender event) as [[u|]|] eqn:Hs; [|reflexivity..].
  destruct (truthy (Some u)) as [u'|] eqn:Hu; [|reflexivity].
  apply truthy_Some in Hu as [[= <-] Hne].
  rewrite bind_get. rewrite find_bot_None; [reflexivity|].
  intros name bot Hin%bot_items_lookup Hname. by apply (Hforeign u name bot).
Qed.

(** X16: A message of a sender under whose username exactly one enabled bot
    is configured goes to [process_message] with the name of that bot,
    the id of the message and its text followed by the links of its
    entities and buttons, whatever the order of the bots in the
    configuration. *)
Theorem known_sender_is_dispatched event self u name bot :
  sender event = Some (Some u) → u ≠ [] → name ≠ [] →
  monitored_bots (config self) !! name = Some bot →
  username bot = u → enabled bot = true →
  (∀ name' bot',
     monitored_bots (config self) !! name' = Some bot' →
     username bot' = u → enabled bot' = true → name' = name) →
  let text := with_urls (msg_message (msg event))
                (_collect_embedded_urls event ++ _collect_button_urls event) in
  let r := process_message text name (msg_id (msg event)) self in
  ∃ o, r.1.1 = Ok o ∧ handle_new_message event self = (Ok (Some o), r.1.2, r.2).
Proof.
  intros Hs Hu Hname Hbot Huser Hen Huniq text r. subst r.
  destruct (process_message_ok text name (msg_id (msg event)) self) as [o Ho].
  exists o. split; [done|].
  unfold handle_new_message, try_exceptM. rewrite Hs.
  destruct (truthy (Some u)) as [u'|] eqn:Hu'.
  2:{ apply truthy_None in Hu' as [?|[= ->]]; done. }
  apply truthy_Some in Hu' as [[= <-] _]. rewrite bind_get.
  destruct (find_bot_is_Some (bot_items (monitored_bots (config self))) u name bot)
    as [name' Hfind]; [by apply bot_items_lookup|done..|].
  rewrite Hfind.
  apply find_bot_Some in Hfind as (bot' & Hin%bot_items_lookup & Hu' & He').
  rewrite (Huniq name' bot' Hin Hu' He').
  destruct (truthy (Some name)) as [n|] eqn:Hn.
  2:{ apply truthy_None in Hn as [?|[= ->]]; done. }
  apply truthy_Some in Hn as [[= <-] _].
  fold text. unfold mbind, M_bind.
  destruct (process_message text name (msg_id (msg event)) self) as [[r s] ev].
  simpl in Ho. subst r. simpl. by rewrite app_nil_r.
Qed.
End HandlerFacts.

Lemma slice_sublist {A} (a b : Z) (l : list A) :
  ∃ pre post, l = pre ++ slice a b l ++ post.
Proof.
  unfold slice. eexists (take _ l), (drop _ (drop _ l)).
  by rewrite take_drop, take_drop.
Qed.

Lemma slice_middle {A} (pre u post : list A) :
  slice (Z.of_nat (length pre)) (Z.of_nat (length pre) + Z.of_nat (length u))
        (pre ++ u ++ post) = u.
Proof.
  unfold slice. rewrite !length_app.
  destruct (Z.ltb_spec (Z.of_nat (length pre)) 0); [lia|].
  destruct (Z.ltb_spec (Z.of_nat (length pre) + Z.of_nat (length u)) 0); [lia|].
  rewrite !Z.min_l by lia. rewrite Nat2Z.id.
  replace (Z.to_nat (Z.of_nat (length pre) + Z.of_nat (length u)) - length pre)%nat
    with (length u) by lia.
  by rewrite drop_app_length, take_app_length.
Qed.

Lemma slice_beyond {A} (a b : Z) (l : list A) :
  (Z.of_nat (length l) ≤ a)%Z → slice a b l = [].
Proof.
  intros Ha. unfold slice.
  destruct (Z.ltb_spec a 0); [lia|]. rewrite (Z.min_r a) by lia.
  rewrite Nat2Z.id, drop_all. by rewrite take_nil.
Qed.

(** X17: Every link that the handler adds to the text is text of the message
    under a URL entity, or the non-empty target of a text link or of a
    button. *)
Theorem collected_urls_come_from_the_message event u :
  u ∈ _collect_embedded_urls event ++ _collect_button_urls event →
  (∃ offset length pre post,
     MessageEntityUrl offset length ∈ default [] (msg_entities (msg event)) ∧
     u = slice offset (offset + length) (msg_message (msg event)) ∧
     msg_message (msg event) = pre ++ u ++ post) ∨
  (u ≠ [] ∧
   ((∃ offset length,
       MessageEntityTextUrl offset length (Some u) ∈ default [] (msg_entities (msg event))) ∨
    (∃ rows row btn,
       msg_rows (msg event) = Some rows ∧ row ∈ rows ∧ btn ∈ row ∧ button_url btn = Some u))).
Proof.
  rewrite elem_of_app. intros [Hin|Hin].
  - unfold _collect_embedded_urls in Hin.
    apply list_elem_of_bind in Hin as (ent & Hu & Hent).
    destruct ent as [offset length|offset length target|].
    + apply list_elem_of_singleton in Hu as ->. left.
      destruct (slice_sublist offset (offset + length) (msg_message (msg event)))
        as (pre & post & Heq).
      by exists offset, length, pre, post.
    + destruct (truthy target) as [s|] eqn:Ht; simpl in Hu; [|by apply elem_of_nil in Hu].
      apply list_elem_of_singleton in Hu as ->. apply truthy_Some in Ht as [-> Hne].
      right. split; [done|]. left. by exists offset, length.
    + by apply elem_of_nil in Hu.
  - unfold _collect_button_urls in Hin.
    destruct (msg_rows (msg event)) as [[|row0 rows]|] eqn:Hrows;
      [by apply elem_of_nil in Hin| |by apply elem_of_nil in Hin].
    apply list_elem_of_bind in Hin as (row & Hin & Hrow).
    apply list_elem_of_bind in Hin as (btn & Hu & Hbtn).
    destruct (truthy (button_url btn)) as [s|] eqn:Ht; simpl in Hu; [|by apply elem_of_nil in Hu].
    apply list_elem_of_singleton in Hu as ->. apply truthy_Some in Ht as [Hb Hne].
    right. split; [done|]. right. by exists (row0 :: rows), row, btn.
Qed.

(** X18: A URL entity that spans the text [u] of the message yields [u]. *)
Theorem url_entity_yields_its_text event pre u post :
  msg_message (msg event) = pre ++ u ++ post →
  MessageEntityUrl (Z.of_nat (length pre)) (Z.of_nat (length u))
    ∈ default [] (msg_entities (msg event)) →
  u ∈ _collect_embedded_urls event.
Proof.
  intros Htext Hent. unfold _collect_embedded_urls.
  apply list_elem_of_bind. eexists. split; [|exact Hent].
  cbv beta iota. rewrite Htext, slice_middle. left.
Qed.

(** ** The grammars and the stand-alone parser *)

Section GrammarFacts.
Context `{Unicode}.

(** A group [(\w+)] that every match sets holds a word. *)
Lemma word_group r k message m :
  re_search r message = Some m →
  binds r k = true → (k ≤ ngroups r)%nat → (k ≠ 0)%nat →
  bodies r k = [plus word] →
  ∃ t, group m k = Ok (Some t) ∧ t ≠ [] ∧ Forall (λ c, is_word c = true) t.
Proof.
  intros Hm Hb Hk Hk0 Hbodies.
  destruct (group_bound _ _ _ _ Hm Hb Hk) as [t Ht]. exists t. split; [done|].
  destruct (group_text _ _ _ _ _ Hm Ht Hk0) as (a & s1 & s2 & Ha & Hrun & ->).
  rewrite Hbodies in Ha. apply list_elem_of_singleton in Ha as ->.
  apply taken_rep in Hrun as (Hall & Hlo & _). split.
  - intros Hnil. rewrite Hnil in Hlo. simpl in Hlo. lia.
  - eapply Forall_impl; [exact Hall|]. intros c. cbv beta. by rewrite word_match.
Qed.

(** A group [(x|y)] of two literals that every match sets holds one of them. *)
Lemma choice_group r k x y message m :
  re_search r message = Some m →
  binds r k = true → (k ≤ ngroups r)%nat → (k ≠ 0)%nat →
  bodies r k = [lits Lit x ∣ lits Lit y]%re →
  group m k = Ok (Some x) ∨ group m k = Ok (Some y).
Proof.
  intros Hm Hb Hk Hk0 Hbodies.
  destruct (group_bound _ _ _ _ Hm Hb Hk) as [t Ht]. rewrite Ht.
  destruct (group_text _ _ _ _ _ Hm Ht Hk0) as (a & s1 & s2 & Ha & Hrun & ->).
  rewrite Hbodies in Ha. apply list_elem_of_singleton in Ha as ->.
  cbn [run] in Hrun. apply elem_of_app in Hrun as [Hrun|Hrun];
    apply taken_lit in Hrun as ->; auto.
Qed.

Lemma mexc_tracker_groups message m :
  re_search ticker_patterns.mexc_tracker message = Some m →
  ∃ t d, group m 1 = Ok (Some t) ∧ group m 2 = Ok (Some d) ∧
         t ≠ [] ∧ Forall (λ c, is_word c = true) t ∧ (d = cps "Long" ∨ d = cps "Short").
Proof.
  intros Hm.
  destruct (word_group _ 1%nat _ _ Hm) as (t & Ht & ? & ?); [done|cbv; lia|done|done|].
  destruct (choice_group _ 2%nat (cps "Long") (cps "Short") _ _ Hm) as [Hd|Hd];
    [done|cbv; lia|done|done|..]; eexists t, _; split_and!; eauto.
Qed.

Lemma kormushka_groups message m :
  re_search ticker_patterns.kormushka message = Some m →
  ∃ t, group m 1 = Ok (Some t) ∧ t ≠ [] ∧ Forall (λ c, is_word c = true) t.
Proof.
  intros Hm. by destruct (word_group _ 1%nat _ _ Hm) as (t & Ht & ? & ?); [done|cbv; lia|done|done|eauto].
Qed.

Lemma pumply_groups message m :
  re_search ticker_patterns.pumply message = Some m →
  ∃ t d, group m 2 = Ok (Some t) ∧ group m 1 = Ok (Some d) ∧
         t ≠ [] ∧ Forall (λ c, is_word c = true) t ∧ (d = cps "SHORT" ∨ d = cps "LONG").
Proof.
  intros Hm.
  destruct (word_group _ 2%nat _ _ Hm) as (t & Ht & ? & ?); [done|cbv; lia|done|done|].
  destruct (choice_group _ 1%nat (cps "SHORT") (cps "LONG") _ _ Hm) as [Hd|Hd];
    [done|cbv; lia|done|done|..]; eexists t, _; split_and!; eauto.
Qed.
End GrammarFacts.

Section ParserFacts.
Context `{Unicode}.

(** What a link pattern of the parser, with the address [([a-fA-F0-9x]+)],
    finds. *)
Lemma hex_link_search l1 l2 message m :
  re_search (lits Lit l1 ⋅ Group 1 (plus word) ⋅ lits Lit l2 ⋅ Group 2 (plus hexx)) message
    = Some m →
  ∃ pre c a post,
    message = pre ++ l1 ++ c ++ l2 ++ a ++ post ∧
    group m 1 = Ok (Some c) ∧ group m 2 = Ok (Some a) ∧
    c ≠ [] ∧ Forall (λ x, is_word x = true) c ∧ a ≠ [] ∧ all_in hexx a.
Proof.
  intros Hm. apply link_search in Hm as (pre & c & a & post & s1 & s2 & Hmsg & Hc & Ha
    & Hne & Hw & Hhead & Hs1 & Hs2); [|done|apply rep_caps].
  destruct (plus_head _ _ _ _ _ Hhead Hs1 Hs2) as (Hane & Hall & _).
  by exists pre, c, a, post.
Qed.

Lemma dexscreener_info_spec message :
  ∃ info, TelegramBotParser.dexscreener_info message = Ok info ∧ parser_link message info.
Proof.
  unfold TelegramBotParser.dexscreener_info.
  destruct (re_search TelegramBotParser.dex_patterns.dexscreener message) as [m|] eqn:Hm; [|by exists None].
  apply hex_link_search in Hm as (pre & c & a & post & Hmsg & -> & -> & ? & ? & ? & ?).
  eexists. split; [done|]. exists pre, c, a, post. split_and!; try done. by left.
Qed.

Lemma parse_mexc_tracker_spec message :
  match re_search ticker_patterns.mexc_tracker message with
  | None => TelegramBotParser.parse_mexc_tracker_message message = None
  | Some _ =>
      ∃ t d info,
        TelegramBotParser.parse_mexc_tracker_message message =
          Some {| TelegramBotParser.ticker := Some t; TelegramBotParser.direction := Some d; TelegramBotParser.dex_info := info;
                  TelegramBotParser.source := cps "mexc_tracker" |} ∧
        t ≠ [] ∧ Forall (λ c, is_word c = true) t ∧ (d = cps "Long" ∨ d = cps "Short") ∧
        parser_link message info
  end.
Proof.
  unfold TelegramBotParser.parse_mexc_tracker_message.
  destruct (re_search ticker_patterns.mexc_tracker message) as [m|] eqn:Hm; [|done].
  destruct (mexc_tracker_groups _ _ Hm) as (t & d & -> & -> & ? & ? & ?).
  destruct (dexscreener_info_spec message) as (info & -> & ?).
  by exists t, d, info.
Qed.

Lemma parse_kormushka_spec message :
  match re_search ticker_patterns.kormushka message with
  | None => TelegramBotParser.parse_kormushka_message message = None
  | Some _ =>
      ∃ t info,
        TelegramBotParser.parse_kormushka_message message =
          Some {| TelegramBotParser.ticker := Some t; TelegramBotParser.direction := None; TelegramBotParser.dex_info := info;
                  TelegramBotParser.source := cps "kormushka" |} ∧
        t ≠ [] ∧ Forall (λ c, is_word c = true) t ∧ parser_link message info
  end.
Proof.
  unfold TelegramBotParser.parse_kormushka_message.
  destruct (re_search ticker_patterns.kormushka message) as [m|] eqn:Hm; [|done].
  destruct (kormushka_groups _ _ Hm) as (t & -> & ? & ?).
  destruct (re_search TelegramBotParser.dex_patterns.gmgn message) as [gm|] eqn:Hgm.
  - apply hex_link_search in Hgm as (pre & c & a & post & Hmsg & -> & -> & ? & ? & ? & ?).
    eexists t, _. split; [done|]. split_and!; try done.
    exists pre, c, a, post. split_and!; try done. by right.
  - by exists t, None.
Qed.

Lemma parse_pumply_spec message :
  match re_search ticker_patterns.pumply message with
  | None => TelegramBotParser.parse_pumply_message message = None
  | Some _ =>
      ∃ t d info,
        TelegramBotParser.parse_pumply_message message =
          Some {| TelegramBotParser.ticker := Some t; TelegramBotParser.direction := Some d; TelegramBotParser.dex_info := info;
                  TelegramBotParser.source := cps "pumply" |} ∧
        t ≠ [] ∧ Forall (λ c, is_word c = true) t ∧ (d = cps "SHORT" ∨ d = cps "LONG") ∧
        parser_link message info
  end.
Proof.
  unfold TelegramBotParser.parse_pumply_message.
  destruct (re_search ticker_patterns.pumply message) as [m|] eqn:Hm; [|done].
  destruct (pumply_groups _ _ Hm) as (t & d & -> & -> & ? & ? & ?).
  destruct (dexscreener_info_spec message) as (info & -> & ?).
  by exists t, d, info.
Qed.

(** X19: The parser tries the grammars of mexcTracker, kormushka and pumply
    in this order; the first that matches decides the source, and a
    grammar that matches always gives a result.  The ticker is a
    non-empty run of word characters, and the direction is one of the
    two words of the grammar, or missing for kormushka. *)
Theorem parser_takes_first_grammar message :
  match TelegramBotParser.process_message message with
  | None =>
      re_search ticker_patterns.mexc_tracker message = None ∧
      re_search ticker_patterns.kormushka message = None ∧
      re_search ticker_patterns.pumply message = None
  | Some p =>
      (∃ t, TelegramBotParser.ticker p = Some t ∧ t ≠ [] ∧ Forall (λ c, is_word c = true) t) ∧
      ((TelegramBotParser.source p = cps "mexc_tracker" ∧
        is_Some (re_search ticker_patterns.mexc_tracker message) ∧
        (TelegramBotParser.direction p = Some (cps "Long") ∨ TelegramBotParser.direction p = Some (cps "Short"))) ∨
       (TelegramBotParser.source p = cps "kormushka" ∧
        re_search ticker_patterns.mexc_tracker message = None ∧
        is_Some (re_search ticker_patterns.kormushka message) ∧ TelegramBotParser.direction p = None) ∨
       (TelegramBotParser.source p = cps "pumply" ∧
        re_search ticker_patterns.mexc_tracker message = None ∧
        re_search ticker_patterns.kormushka message = None ∧
        is_Some (re_search ticker_patterns.pumply message) ∧
        (TelegramBotParser.direction p = Some (cps "SHORT") ∨ TelegramBotParser.direction p = Some (cps "LONG"))))
  end.
Proof.
  unfold TelegramBotParser.process_message, TelegramBotParser.first_result.
  pose proof (parse_mexc_tracker_spec message) as H1.
  pose proof (parse_kormushka_spec message) as H2.
  pose proof (parse_pumply_spec message) as H3.
  destruct (re_search ticker_patterns.mexc_tracker message) as [m1|].
  { destruct H1 as (t & d & info & -> & ? & ? & Hd & _). split; [by exists t|].
    left. simpl. split_and!; [done|done|]. destruct Hd as [-> | ->]; auto. }
  rewrite H1.
  destruct (re_search ticker_patterns.kormushka message) as [m2|].
  { destruct H2 as (t & info & -> & ? & ? & _). split; [by exists t|].
    right. left. by simpl. }
  rewrite H2.
  destruct (re_search ticker_patterns.pumply message) as [m3|].
  { destruct H3 as (t & d & info & -> & ? & ? & Hd & _). split; [by exists t|].
    right. right. simpl. split_and!; [done..|]. destruct Hd as [-> | ->]; auto. }
  by rewrite H3.
Qed.

Lemma process_message_link message p :
  TelegramBotParser.process_message message = Some p →
  parser_link message (TelegramBotParser.dex_info p) ∧
  ∃ t, TelegramBotParser.ticker p = Some t ∧ t ≠ [] ∧ Forall (λ c, is_word c = true) t.
Proof.
  unfold TelegramBotParser.process_message, TelegramBotParser.first_result.
  pose proof (parse_mexc_tracker_spec message) as H1.
  pose proof (parse_kormushka_spec message) as H2.
  pose proof (parse_pumply_spec message) as H3.
  destruct (re_search ticker_patterns.mexc_tracker message) as [m1|].
  { destruct H1 as (t & d & info & -> & ? & ? & Hd & ?). intros [= <-]. simpl. eauto. }
  rewrite H1.
  destruct (re_search ticker_patterns.kormushka message) as [m2|].
  { destruct H2 as (t & info & -> & ? & ? & ?). intros [= <-]. simpl. eauto. }
  rewrite H2.
  destruct (re_search ticker_patterns.pumply message) as [m3|].
  { destruct H3 as (t & d & info & -> & ? & ? & Hd & ?). intros [= <-]. simpl. eauto. }
  by rewrite H3.
Qed.

Context `{Desktop}.

(** What the desktop can receive from [TelegramBotParser.handle_message]. *)
Lemma handle_message_events message e :
  e ∈ (TelegramBotParser.handle_message message).2 →
  (∃ t, e = Clipboard (cps "MEXC:" ++ t ++ cps "USDT.p") ∧
        t ≠ [] ∧ Forall (λ c, is_word c = true) t) ∨
  (∃ pre c a post,
     e = Browser (cps "https://gmgn.ai/" ++ c ++ cps "/token/" ++ a) ∧
     c ≠ [] ∧ Forall (λ x, is_word x = true) c ∧ a ≠ [] ∧ all_in hexx a ∧
     (message = pre ++ cps "dexscreener.com/" ++ c ++ cps "/" ++ a ++ post ∨
      message = pre ++ cps "gmgn.ai/" ++ c ++ cps "/token/" ++ a ++ post)).
Proof.
  unfold TelegramBotParser.handle_message.
  destruct (TelegramBotParser.process_message message) as [p|] eqn:Hp;
    [|by intros ?%elem_of_nil].
  destruct (process_message_link _ _ Hp) as (Hlink & t & Ht & ? & ?).
  unfold TelegramBotParser.copy_to_clipboard. destruct (clipboard_accepts _); cbn [fst snd negb];
    [|by intros ?%elem_of_nil].
  assert (e = Clipboard (TelegramBotParser.convert_ticker_to_mexc_format (TelegramBotParser.ticker p)) →
          ∃ t, e = Clipboard (cps "MEXC:" ++ t ++ cps "USDT.p") ∧
               t ≠ [] ∧ Forall (λ c, is_word c = true) t) as Hclip.
  { intros ->. exists t. rewrite Ht. split_and!; [reflexivity|done..]. }
  destruct (TelegramBotParser.dex_info p) as [info|]; cbn [fst snd].
  2:{ intros [->|?%elem_of_nil]%elem_of_cons; [|done]. left. by apply Hclip. }
  intros [->|Hin]%elem_of_cons; [left; by apply Hclip|]. right.
  destruct Hlink as (pre & c & a & post & ? & ? & ? & ? & Hc & Ha & Hty).
  exists pre, c, a, post.
  assert (e = Browser (cps "https://gmgn.ai/" ++ c ++ cps "/token/" ++ a)) as ->.
  { cbn [TelegramBotParser.open_gmgn_in_browser] in Hin.
    destruct Hty as [(Hty & _ & Hurl)|(Hty & _ & Hurl)]; rewrite Hty in Hin.
    - rewrite bool_decide_eq_false_2, bool_decide_eq_true_2 in Hin by done.
      rewrite Hc, Ha in Hin. destruct (browser_opens _); [|by apply elem_of_nil in Hin].
      by apply list_elem_of_singleton in Hin as ->.
    - rewrite bool_decide_eq_true_2 in Hin by done.
      destruct (browser_opens _); [|by apply elem_of_nil in Hin].
      apply list_elem_of_singleton in Hin as ->. by rewrite Hurl. }
  split_and!; try done. destruct Hty as [(_ & ? & _)|(_ & ? & _)]; auto.
Qed.

(** X20: Whatever link the parser found, dexscreener or gmgn.ai, the browser
    is given the GMGN link of its chain and address. *)
Theorem parser_opens_gmgn_links_only message link :
  Browser link ∈ (TelegramBotParser.handle_message message).2 →
  ∃ pre c a post,
    link = cps "https://gmgn.ai/" ++ c ++ cps "/token/" ++ a ∧
    c ≠ [] ∧ Forall (λ x, is_word x = true) c ∧ a ≠ [] ∧ all_in hexx a ∧
    (message = pre ++ cps "dexscreener.com/" ++ c ++ cps "/" ++ a ++ post ∨
     message = pre ++ cps "gmgn.ai/" ++ c ++ cps "/token/" ++ a ++ post).
Proof.
  intros [(t & [=] & _)|(pre & c & a & post & [= ->] & ?)]%handle_message_events.
  by exists pre, c, a, post.
Qed.

(** X21: [TelegramBotParser.handle_message] succeeds exactly when a grammar matches and the
    clipboard takes the symbol; the symbol is [MEXC:], a non-empty run of
    word characters and [USDT.p], and a call that fails gives the
    desktop nothing. *)
Theorem parser_copies_symbol message :
  let r := TelegramBotParser.handle_message message in
  (r.1 = true ↔
   ∃ p, TelegramBotParser.process_message message = Some p ∧
        clipboard_accepts (TelegramBotParser.convert_ticker_to_mexc_format (TelegramBotParser.ticker p)) = true) ∧
  (r.1 = true →
   ∃ t rest, r.2 = Clipboard (cps "MEXC:" ++ t ++ cps "USDT.p") :: rest ∧
             t ≠ [] ∧ Forall (λ c, is_word c = true) t ∧ ∀ text, Clipboard text ∉ rest) ∧
  (r.1 = false → r.2 = []).
Proof.
  intros r. subst r. unfold TelegramBotParser.handle_message.
  destruct (TelegramBotParser.process_message message) as [p|] eqn:Hp; simpl.
  2:{ split_and!; [|done..]. split; [done|]. by intros (? & [=] & _). }
  destruct (process_message_link _ _ Hp) as (_ & t & Ht & Hne & Hw).
  unfold TelegramBotParser.copy_to_clipboard.
  destruct (clipboard_accepts (TelegramBotParser.convert_ticker_to_mexc_format (TelegramBotParser.ticker p))) eqn:Hacc; simpl.
  2:{ split_and!; [|done..]. split; [done|]. intros (? & [= <-] & ?). congruence. }
  assert (∀ info text, Clipboard text ∉ (TelegramBotParser.open_gmgn_in_browser info).2) as Hopen.
  { intros [info|] text; simpl; [|apply not_elem_of_nil].
    destruct (bool_decide _); [|destruct (bool_decide _)];
      try destruct (browser_opens _); simpl;
      rewrite ?elem_of_cons, ?elem_of_nil; naive_solver. }
  assert (∃ q, Some p = Some q ∧
               clipboard_accepts (TelegramBotParser.convert_ticker_to_mexc_format (TelegramBotParser.ticker q)) = true) as Hex
    by (by exists p).
  rewrite Ht.
  destruct (TelegramBotParser.dex_info p) as [info|]; cbn [fst snd].
  - split; [done|]. split; [|done].
    intros _. exists t, (TelegramBotParser.open_gmgn_in_browser (Some info)).2.
    split_and!; [reflexivity|done..|]. intros text. apply Hopen.
  - split; [done|]. split; [|done].
    intros _. exists t, []. split_and!; [reflexivity|done..|].
    intros text. apply not_elem_of_nil.
Qed.
(** X22: The monitor and the parser agree: for a bot that is configured with
    the grammar of the parser, the monitor extracts the ticker and the
    direction that the parser extracts, unless the blacklist stops the
    ticker. *)
Theorem monitor_agrees_with_parser self message name bot parse :
  monitored_bots (config self) !! name = Some bot →
  (name = cps "mexcTracker" ∧ pattern bot = ticker_patterns.mexc_tracker ∧
   parse = TelegramBotParser.parse_mexc_tracker_message) ∨
  (name = cps "kormushka_mexc" ∧ pattern bot = ticker_patterns.kormushka ∧
   parse = TelegramBotParser.parse_kormushka_message) ∨
  (name = cps "pumply_futures_dex" ∧ pattern bot = ticker_patterns.pumply ∧
   parse = TelegramBotParser.parse_pumply_message) →
  signal (extract_ticker_data message name self).1.1 =
    p ← parse message;
    if blocked self (TelegramBotParser.ticker p) then None else Some (TelegramBotParser.ticker p, TelegramBotParser.direction p).
Proof.
  intros Hbot Hcase. rewrite extract_signal. unfold extracted. rewrite Hbot. simpl.
  destruct Hcase as [(-> & -> & ->)|[(-> & -> & ->)|(-> & -> & ->)]].
  - pose proof (parse_mexc_tracker_spec message) as Hp.
    destruct (re_search ticker_patterns.mexc_tracker message) as [m|] eqn:Hm; [|by rewrite Hp].
    destruct Hp as (t & d & info & Hp & _). rewrite Hp. simpl.
    unfold TelegramBotParser.parse_mexc_tracker_message in Hp. rewrite Hm in Hp.
    destruct (mexc_tracker_groups _ _ Hm) as (t' & d' & Ht & Hd & _).
    rewrite Ht, Hd in Hp. simpl in Hp.
    destruct (dexscreener_info_spec message) as (info' & Hi & _). rewrite Hi in Hp.
    injection Hp as <- <- _.
    unfold ticker_fields. rewrite bool_decide_eq_false_2 by done.
    rewrite bool_decide_eq_true_2 by done. by rewrite Ht, Hd.
  - pose proof (parse_kormushka_spec message) as Hp.
    destruct (re_search ticker_patterns.kormushka message) as [m|] eqn:Hm; [|by rewrite Hp].
    destruct Hp as (t & info & Hp & _). rewrite Hp. simpl.
    unfold TelegramBotParser.parse_kormushka_message in Hp. rewrite Hm in Hp.
    destruct (kormushka_groups _ _ Hm) as (t' & Ht & _).
    rewrite Ht in Hp. simpl in Hp.
    assert (t' = t) as ->.
    { destruct (re_search TelegramBotParser.dex_patterns.gmgn message) as [gm|] eqn:Hgm.
      - apply hex_link_search in Hgm as (? & c & a & ? & _ & Hc & Ha & _).
        rewrite Hc, Ha in Hp. by injection Hp.
      - by injection Hp. }
    unfold ticker_fields. rewrite !bool_decide_eq_false_2 by done. by rewrite Ht.
  - pose proof (parse_pumply_spec message) as Hp.
    destruct (re_search ticker_patterns.pumply message) as [m|] eqn:Hm; [|by rewrite Hp].
    destruct Hp as (t & d & info & Hp & _). rewrite Hp. simpl.
    unfold TelegramBotParser.parse_pumply_message in Hp. rewrite Hm in Hp.
    destruct (pumply_groups _ _ Hm) as (t' & d' & Ht & Hd & _).
    rewrite Ht, Hd in Hp. simpl in Hp.
    destruct (dexscreener_info_spec message) as (info' & Hi & _). rewrite Hi in Hp.
    injection Hp as <- <- _.
    unfold ticker_fields. rewrite bool_decide_eq_true_2 by done. by rewrite Ht, Hd.
Qed.

(** X23: The handler of the integration passes on the messages of the three
    listed senders only, and whatever it passes on, the desktop receives
    nothing but a symbol [MEXC:<word>USDT.p] for the clipboard and GMGN
    links for the browser. *)
Theorem integration_serves_listed_senders sender message_text e :
  e ∈ TelegramIntegration.handle_new_message sender message_text →
  (∃ name, sender = Some (Some name) ∧ name ∈ TelegramIntegration.bot_usernames) ∧
  ((∃ t, e = Clipboard (cps "MEXC:" ++ t ++ cps "USDT.p") ∧
         t ≠ [] ∧ Forall (λ c, is_word c = true) t) ∨
   (∃ c a, e = Browser (cps "https://gmgn.ai/" ++ c ++ cps "/token/" ++ a) ∧
           c ≠ [] ∧ Forall (λ x, is_word x = true) c ∧ a ≠ [] ∧ all_in hexx a)).
Proof.
  unfold TelegramIntegration.handle_new_message.
  destruct sender as [[name|]|]; simpl; [|by intros ?%elem_of_nil..].
  destruct (bool_decide (name ∈ TelegramIntegration.bot_usernames)) eqn:Hname;
    [|by intros ?%elem_of_nil].
  apply bool_decide_eq_true in Hname.
  intros [?|(pre & c & a & post & ? & ? & ? & ? & ? & _)]%handle_message_events.
  - split; [by exists name|by left].
  - split; [by exists name|]. right. by exists c, a.
Qed.
End ParserFacts.

(** ** Links on lines of their own *)

Lemma app_separator {A} (tk r a b : list A) c :
  tk ++ r = a ++ c :: b → c ∉ tk → ∃ a', a = tk ++ a' ∧ r = a' ++ c :: b.
Proof.
  revert a. induction tk as [|x tk IH]; intros a; simpl.
  - intros -> _. by exists a.
  - intros Heq Hc. destruct a as [|y a]; simpl in Heq.
    + injection Heq as -> _. destruct Hc. left.
    + injection Heq as -> Heq. apply IH in Heq as (a' & -> & ->).
      * by exists a'.
      * intros ?. apply Hc. by right.
Qed.

Lemma filter_id {A} (P : A → Prop) `{∀ x, Decision (P x)} l :
  Forall P l → filter P l = l.
Proof.
  induction 1 as [|x l Hx _ IH]; [done|]. by rewrite filter_cons_True, IH.
Qed.

Section Separators.
Context `{Unicode}.

(** A match attempt stops before a character that the pattern never
    reads. *)
Lemma run_stops_before r c st st' a b :
  never_reads r c → st' ∈ run r st → rest st = a ++ c :: b →
  ∃ a', rest st' = a' ++ c :: b.
Proof.
  unfold never_reads.
  revert st st' a. induction r as [|cs|x IHx y IHy|x IHx y IHy|n x IHx|cs lo hi|];
    intros st st' a Hnr; simpl in *.
  - intros ->%list_elem_of_singleton. eauto.
  - rewrite Forall_singleton in Hnr. intros Hin Hrest. rewrite Hrest in Hin.
    destruct a as [|z a]; simpl in Hin.
    + rewrite Hnr in Hin. by apply elem_of_nil in Hin.
    + destruct (cs_match cs z); [|by apply elem_of_nil in Hin].
      apply list_elem_of_singleton in Hin as ->. simpl. eauto.
  - apply Forall_app in Hnr as [Hx Hy].
    intros (mid & Hb & Ha)%list_elem_of_bind Hrest.
    destruct (IHx _ _ _ Hx Ha Hrest) as [a1 Hmid]. by eapply IHy.
  - apply Forall_app in Hnr as [Hx Hy].
    rewrite elem_of_app. intros [?|?] Hrest; eauto.
  - intros (st0 & -> & Hin)%list_elem_of_fmap Hrest. simpl. eauto.
  - rewrite Forall_singleton in Hnr.
    intros (tk & Htk & Hall & _)%rep_from_taken Hrest. rewrite Hrest in Htk.
    symmetry in Htk. apply app_separator in Htk as (a' & _ & ?); [eauto|].
    intros Hc. unfold all_in in Hall. rewrite Forall_forall in Hall.
    specialize (Hall _ Hc). congruence.
  - destruct (xorb _ _); [|by intros ?%elem_of_nil].
    intros ->%list_elem_of_singleton. eauto.
Qed.

(** The text that follows a character that the pattern never reads
    plays no part in the attempts before that character. *)
Lemma match_at_separator r i pw m c v :
  has_bound r = false → never_reads r c →
  match_at r i pw (m ++ c :: v) = match_at r i pw m.
Proof.
  intros Hb Hnr. unfold match_at.
  pose proof (run_ext r (c :: v) (MState pw m ∅) (or_introl Hb)) as Hext.
  unfold ext in Hext at 1. simpl in Hext.
  rewrite filter_id in Hext.
  2:{ apply Forall_forall. intros st Hst.
      destruct (run_stops_before r c _ st m v Hnr Hst eq_refl) as [a' Ha'].
      unfold leaves. rewrite Ha', length_app. simpl. lia. }
  rewrite Hext.
  destruct (run r (MState pw m ∅)) as [|st l] eqn:Hrun; [done|]. simpl.
  assert (rest st `suffix_of` m) as Hsuf%suffix_length.
  { apply (run_suffix r (MState pw m ∅)). rewrite Hrun. left. }
  rewrite !length_app, take_app_le by lia. do 3 f_equal. lia.
Qed.

(** When the pattern finds nothing before a character that it never
    reads, the search goes on after that character. *)
Lemma search_past_separator r i pw m c v :
  has_bound r = false → never_reads r c →
  search_from r i pw m = None →
  search_from r i pw (m ++ c :: v) = search_from r (i + S (length m)) (is_word c) v.
Proof.
  intros Hb Hnr. revert i pw. induction m as [|x m IH]; intros i pw;
    rewrite !(search_from_unfold r i pw).
  - rewrite <- (match_at_separator r i pw [] c v Hb Hnr). simpl.
    destruct (match_at r i pw (c :: v)); [done|]. intros _. f_equal. lia.
  - rewrite <- (match_at_separator r i pw (x :: m) c v Hb Hnr).
    destruct (match_at r i pw ((x :: m) ++ c :: v)); [done|]. simpl.
    intros Hnone. rewrite IH by done. f_equal. lia.
Qed.

(** A match is found again when the text goes on with a character that
    the pattern never reads. *)
Lemma search_before_separator r i pw u c v mt :
  has_bound r = false → never_reads r c →
  search_from r i pw u = Some mt → search_from r i pw (u ++ c :: v) = Some mt.
Proof.
  intros Hb Hnr. revert i pw. induction u as [|x u IH]; intros i pw;
    rewrite !(search_from_unfold r i pw);
    rewrite (match_at_separator r i pw _ c v Hb Hnr).
  - by destruct (match_at r i pw []).
  - destruct (match_at r i pw (x :: u)); [done|]. simpl. apply IH.
Qed.

(** A link on a line of its own: the pattern finds nothing before the
    line break, and in the line it finds what it finds in the link. *)
Lemma search_own_line r before u after mt :
  has_bound r = false → never_reads r 10 → never_reads r 32 →
  re_search r before = None →
  re_search r u = Some mt →
  after = [] ∨ (∃ v, after = 32 :: v) →
  same_match (re_search r (before ++ 10 :: u ++ after)) (Some mt).
Proof.
  intros Hb Hnl Hsp Hnone Hu Hafter. unfold re_search in *.
  rewrite (search_past_separator r 0 false before 10 (u ++ after) Hb Hnl Hnone).
  assert (search_from r 0 false (u ++ after) = Some mt) as Hua.
  { destruct Hafter as [->|[v ->]]; [by rewrite app_nil_r|].
    by apply search_before_separator. }
  rewrite <- Hua. apply search_from_same. by left.
Qed.
End Separators.

Lemma join_middle sep us u vs :
  join sep (us ++ u :: vs) =
    match us with [] => [] | _ => join sep us ++ sep end ++ u ++
    match vs with [] => [] | _ => sep ++ join sep vs end.
Proof.
  induction us as [|x us IH].
  - simpl. destruct vs; [by rewrite app_nil_r|done].
  - change ((x :: us) ++ u :: vs) with (x :: (us ++ u :: vs)).
    cbn [join]. destruct (us ++ u :: vs) as [|y l] eqn:Hl.
    { by destruct us. }
    rewrite IH. destruct us as [|z us]; simpl.
    + by rewrite <- !(assoc (++)).
    + by rewrite <- !(assoc (++)).
Qed.

(** The text that the handler passes on, around one of the links. *)
Lemma with_urls_middle text us u vs :
  with_urls text (us ++ u :: vs) =
    match us with [] => text | _ => with_urls text us ++ [32] end ++ 10 :: u ++
    match vs with [] => [] | _ => 32 :: 10 :: join [32; 10] vs end.
Proof.
  unfold with_urls at 1. destruct (us ++ u :: vs) eqn:Hl; [by destruct us|].
  rewrite <- Hl, join_middle. destruct us as [|x us]; simpl.
  - rewrite <- ?(assoc (++)). simpl. by destruct vs.
  - rewrite <- ?(assoc (++)). simpl. rewrite <- ?(assoc (++)). simpl. by destruct vs.
Qed.

Section HiddenLinks.
Context `{Unicode}.

Lemma gmgn_never_reads_separators : never_reads gmgn_re 10 ∧ never_reads gmgn_re 32.
Proof. split; unfold never_reads; simpl; by repeat constructor. Qed.

(** X24: A gmgn.ai link behind a text link or a button reaches the contract
    locator: when the text and the links before it hold no gmgn.ai link
    and the direct-mint strategy does not fire, the contract located in
    the text that the handler passes on is that of the hidden link. *)
Theorem hidden_gmgn_link_is_located text us u vs gm :
  direct_mint (with_urls text (us ++ u :: vs)) = false →
  re_search gmgn_re (with_urls text us) = None →
  re_search gmgn_re u = Some gm →
  ∃ c a,
    group gm 1 = Ok (Some c) ∧ group gm 2 = Ok (Some a) ∧
    extract_contract_info (with_urls text (us ++ u :: vs)) =
      Ok (Some {| type_ := cps "gmgn"; chain := Some c; contract := Some a;
                  url := cps "https://gmgn.ai/" ++ c ++ cps "/token/" ++ a |}).
Proof.
  intros Hno Hbefore Hu.
  destruct gmgn_never_reads_separators as [Hnl Hsp].
  destruct (gmgn_search _ _ Hu) as (_ & c & a & _ & _ & Hc & Ha & _).
  exists c, a. split; [done|]. split; [done|].
  assert (same_match (re_search gmgn_re (with_urls text (us ++ u :: vs))) (Some gm)) as Hsame.
  { rewrite with_urls_middle. apply search_own_line; try done.
    - destruct us as [|x us]; [done|]. unfold re_search in *.
      rewrite (search_past_separator gmgn_re 0 false _ 32 [] eq_refl Hsp Hbefore).
      reflexivity.
    - destruct vs; eauto. }
  destruct (re_search gmgn_re (with_urls text (us ++ u :: vs))) as [gm'|] eqn:Hgm'; [|done].
  rewrite extract_contract_info_locate, (locate_gmgn _ _ Hno Hgm').
  by rewrite !(group_same gm' gm _ Hsame), Hc, Ha.
Qed.
End HiddenLinks.

(** ** Contracts without a chain *)

Section Fallbacks.
Context `{Unicode}.

(** X25: A contract under a label ([CA:], or failing it [contract:]) in a
    message that names no chain (no [Chain:] field for [CA:], no
    [network:] field for [contract:], no dexscreener link) is taken to
    be on Ethereum: the chain of the result is [eth]. *)
Theorem labelled_contract_defaults_to_eth message :
  direct_mint message = false →
  re_search gmgn_re message = None →
  re_search dexscreener_chain_re message = None →
  match re_search ca_re message with
  | Some _ => re_search chain_re message = None
  | None => is_Some (re_search contract_re message) ∧ re_search network_re message = None
  end →
  ∃ tok, extract_contract_info message =
    Ok (Some {| type_ := cps "contract"; chain := Some (cps "eth"); contract := Some tok;
                url := cps "https://gmgn.ai/eth/token/" ++ tok |}).
Proof.
  intros Hmint Hgm Hdex Hlabel. rewrite extract_contract_info_locate. unfold locate.
  assert (match re_search solana_mint_re message, re_search solana_marker_re message with
          | Some _, Some _ => False | _, _ => True end) as Hno.
  { unfold direct_mint in Hmint.
    by destruct (re_search solana_mint_re message), (re_search solana_marker_re message). }
  rewrite Hgm. unfold labelled_chain. rewrite Hdex.
  destruct (re_search ca_re message) as [ca|] eqn:Hca.
  - rewrite Hlabel.
    destruct (group_bound _ _ _ 1%nat Hca eq_refl ltac:(cbv; lia)) as [tok Htok].
    exists tok. rewrite Htok.
    destruct (re_search solana_mint_re message), (re_search solana_marker_re message);
      try done; reflexivity.
  - destruct Hlabel as [[co Hco] Hnet]. rewrite Hco, Hnet.
    destruct (group_bound _ _ _ 1%nat Hco eq_refl ltac:(cbv; lia)) as [tok Htok].
    exists tok. rewrite Htok.
    destruct (re_search solana_mint_re message), (re_search solana_marker_re message);
      try done; reflexivity.
Qed.
End Fallbacks.

(** ** Messages without a contract; what a run keeps; the statistics *)

Section Located.
Context `{Unicode}.

(** X26: The locator finds no contract exactly when no strategy applies: no
    Solana mint with a marker, no gmgn.ai link, no [CA:] or [contract:]
    field and no dexscreener link. *)
Theorem no_contract_iff_no_pattern message :
  extract_contract_info message = Ok None ↔
  direct_mint message = false ∧
  re_search gmgn_re message = None ∧
  re_search ca_re message = None ∧
  re_search contract_re message = None ∧
  re_search dexscreener_re message = None.
Proof.
  assert (direct_mint message = false ↔
          match re_search solana_mint_re message, re_search solana_marker_re message with
          | Some _, Some _ => False
          | _, _ => True
          end) as ->.
  { unfold direct_mint.
    destruct (re_search solana_mint_re message), (re_search solana_marker_re message);
      cbn; naive_solver. }
  rewrite extract_contract_info_locate. unfold locate.
  destruct (re_search solana_mint_re message) as [mint|] eqn:Hmint;
    [destruct (re_search solana_marker_re message) as [mark|] eqn:Hmark|].
  { destruct (group_bound _ _ _ 1%nat Hmint eq_refl ltac:(cbv; lia)) as [x ->]. simpl.
    naive_solver. }
  all: destruct (re_search gmgn_re message) as [gm|] eqn:Hgm.
  all: try (destruct (group_bound _ _ _ 1%nat Hgm eq_refl ltac:(cbv; lia)) as [x1 ->];
            destruct (group_bound _ _ _ 2%nat Hgm eq_refl ltac:(cbv; lia)) as [x2 ->];
            simpl; naive_solver).
  all: destruct (re_search ca_re message) as [ca|] eqn:Hca.
  all: try (destruct (group_bound _ _ _ 1%nat Hca eq_refl ltac:(cbv; lia)) as [x1 ->];
            destruct (labelled_chain_ok chain_re message eq_refl ltac:(cbv; lia)) as [c ->];
            simpl; naive_solver).
  all: destruct (re_search contract_re message) as [co|] eqn:Hco.
  all: try (destruct (group_bound _ _ _ 1%nat Hco eq_refl ltac:(cbv; lia)) as [x1 ->];
            destruct (labelled_chain_ok network_re message eq_refl ltac:(cbv; lia)) as [c ->];
            simpl; naive_solver).
  all: destruct (re_search dexscreener_re message) as [dx|] eqn:Hdx.
  all: try (destruct (group_bound _ _ _ 1%nat Hdx eq_refl ltac:(cbv; lia)) as [x1 ->];
            destruct (group_bound _ _ _ 2%nat Hdx eq_refl ltac:(cbv; lia)) as [x2 ->];
            simpl; naive_solver).
  all: naive_solver.
Qed.
End Located.

Section Runs.
Context `{Unicode} `{Runtime}.

(** X27: A run never changes what [__init__] took from the configuration:
    the configuration itself, the blacklist and its switch, and the
    bound of the cache. *)
Theorem run_keeps_configuration cfg self :
  reachable cfg self →
  config self = cfg ∧
  blacklist_enabled self = blacklist_cfg_enabled cfg ∧
  blacklisted_tickers self = list_to_set (blacklist_cfg_tickers cfg) ∧
  max_cache_size self = 1000%Z.
Proof.
  induction 1 as [|self message bot_name message_id _ (IH1 & IH2 & IH3 & IH4)]; [done|].
  unfold after.
  destruct (process_message_cases message bot_name message_id self)
    as [[Hin ->]|[(Hnew & Hdata & ->)|(Hnew & data & Hdata & ->)]]; simpl.
  - done.
  - unfold counted.
    destruct (extracted _ _ _) as [[[t|] d]|]; try destruct (blocked _ _); done.
  - destruct (_ =? 0)%Z; [destruct (_ <=? _)%Z|]; done.
Qed.

(** X28: The statistics are printed by a call exactly when the message is
    handled and the number of messages processed so far, this one
    included, is a multiple of [stats_interval]; a message without a
    signal prints nothing, whatever the count. *)
Theorem stats_printed_on_handled_multiples message bot_name message_id self :
  PrintStats ∈ (process_message message bot_name message_id self).2 ↔
  (process_message message bot_name message_id self).1.1 = Ok Handled ∧
  ((messages_processed (stats self) + 1) `mod` stats_interval (config self) = 0)%Z.
Proof.
  destruct (process_message_cases message bot_name message_id self)
    as [[Hin ->]|[(Hnew & Hdata & ->)|(Hnew & data & Hdata & ->)]]; simpl.
  - rewrite elem_of_nil. naive_solver.
  - rewrite elem_of_nil. naive_solver.
  - assert (PrintStats ∉ effects (config self) data) as Heff.
    { intros Hin%shutdown_not_in_effects. naive_solver. }
    destruct (Z.eqb_spec (stats_interval (config self)) 0) as [Hz|Hz];
      [destruct (_ <=? _)%Z|]; simpl.
    + rewrite elem_of_app, !elem_of_cons, elem_of_nil. naive_solver.
    + naive_solver.
    + destruct (Z.eqb_spec ((messages_processed (stats self) + 1)
                              `mod` stats_interval (config self)) 0) as [Hm|Hm].
      * rewrite elem_of_app, elem_of_cons. naive_solver.
      * rewrite app_nil_r. naive_solver.
Qed.
End Runs.

(** ** The first gmgn.ai link of a message *)

Section FirstLink.
Context `{Unicode}.

(** A literal reads itself. *)
Lemma run_lits_here l st t :
  rest st = l ++ t →
  run (lits Lit l) st = [MState (last_word (prev_word st) l) t (caps st)].
Proof.
  revert st. induction l as [|c l IH]; intros [pw s g]; simpl; intros ->.
  - done.
  - rewrite N.eqb_refl. simpl. rewrite (IH (MState (is_word c) (l ++ t) g) eq_refl).
    by rewrite app_nil_r.
Qed.

(** A pattern that begins with a literal matches only where the literal is. *)
Lemma run_lits_elsewhere l r st :
  (∀ t, rest st ≠ l ++ t) → run (lits Lit l ⋅ r) st = [].
Proof.
  intros Hno. simpl. destruct (run (lits Lit l) st) as [|x k] eqn:Hrun; [done|].
  assert (x ∈ run (lits Lit l) st) as Hin by (rewrite Hrun; left).
  apply run_lits in Hin as (lab & Hrest & _ & ->%lit_label). by destruct (Hno (rest x)).
Qed.

(** [re.search] passes over the text before the first occurrence of the
    literal with which the pattern begins. *)
Lemma search_from_skip l r i pw pre suf :
  not_before l (length pre) (pre ++ suf) →
  search_from (lits Lit l ⋅ r) i pw (pre ++ suf) =
  search_from (lits Lit l ⋅ r) (i + length pre) (last_word pw pre) suf.
Proof.
  revert i pw. induction pre as [|c pre IH]; intros i pw Hfirst.
  - simpl. by rewrite Nat.add_0_r.
  - rewrite search_from_unfold. unfold match_at.
    rewrite run_lits_elsewhere.
    2:{ intros t Ht. specialize (Hfirst [] t Ht). simpl in Hfirst. lia. }
    simpl. rewrite IH.
    + f_equal. lia.
    + intros u v Huv. specialize (Hfirst (c :: u) v). simpl in Hfirst.
      rewrite Huv in Hfirst. specialize (Hfirst eq_refl). lia.
Qed.

(** A greedy repetition takes first the whole run of characters of the
    set. *)
Lemma rep_from_whole cs lo n pw a t g :
  all_in cs a → ends_run cs t → (lo ≤ n + length a)%nat →
  ∃ k, rep_from cs lo None n pw (a ++ t) g = MState (last_word pw a) t g :: k.
Proof.
  intros Hall Hend. revert n pw. induction Hall as [|c a Hc _ IH]; intros n pw Hlo.
  - simpl in Hlo. rewrite app_nil_l.
    destruct t as [|c t]; simpl.
    + destruct (Nat.leb_spec lo n); [|lia]. by eexists.
    + simpl in Hend. rewrite Hend. simpl.
      destruct (Nat.leb_spec lo n); [|lia]. by eexists.
  - simpl. rewrite Hc. simpl.
    destruct (IH (S n) (is_word c)) as [k ->]; [simpl in Hlo; lia|].
    by eexists.
Qed.

(** A repetition of one or more fails on a character outside the set. *)
Lemma plus_fails cs pw s g :
  cs_match cs <$> head s = Some false → rep_from cs 1 None 0 pw s g = [].
Proof. destruct s as [|c s]; [done|]. simpl. by intros [= ->]. Qed.

Lemma bind_one {A B} (f : A → list B) x : [x] ≫= f = f x.
Proof. rewrite bind_cons. apply app_nil_r. Qed.

Lemma head_bind_cons {A B} (f : A → list B) x l y k :
  f x = y :: k → head ((x :: l) ≫= f) = Some y.
Proof. intros Hf. by rewrite bind_cons, Hf. Qed.

(** The link pattern at the place of a link whose address it takes
    whole: the groups are the chain and the address. *)
Lemma gmgn_re_here pw c a post :
  c ≠ [] → Forall (λ x, is_word x = true) c → whole_address a post →
  ∃ st, head (run gmgn_re
                (MState pw (cps "gmgn.ai/" ++ c ++ cps "/token/" ++ a ++ post) ∅)) = Some st ∧
        caps st = <[2%nat := a]> (<[1%nat := c]> ∅).
Proof.
  intros Hne Hword (Hane & Hshape & Hhex & Hb58).
  unfold gmgn_re, lit, plus. cbn [run].
  rewrite (run_lits_here (cps "gmgn.ai/") _ (c ++ cps "/token/" ++ a ++ post)) by done.
  rewrite bind_one. cbn [caps prev_word rest].
  destruct (rep_from_whole word 1 0 (last_word pw (cps "gmgn.ai/")) c
              (cps "/token/" ++ a ++ post) ∅) as [k1 Hrep1].
  { eapply Forall_impl; [exact Hword|]. intros x. cbv beta. by rewrite word_match. }
  { reflexivity. }
  { destruct c; [done|simpl; lia]. }
  rewrite Hrep1, fmap_cons.
  set (s1 := MState _ (c ++ _) ∅).
  set (s2 := set_group 1 s1 _).
  assert (rest s2 = cps "/token/" ++ a ++ post) as Hs2 by done.
  assert (caps s2 = <[1%nat := c]> ∅) as Hg2.
  { unfold s2, set_group, s1. cbn [rest caps]. f_equal.
    by rewrite length_app, Nat.add_sub, take_app_length. }
  assert (∃ s4 k, run (Group 2 (Rep hexx 1 None ∣ Rep base58 1 None))
                    (MState (last_word (prev_word s2) (cps "/token/")) (a ++ post) (caps s2))
                  = s4 :: k ∧ caps s4 = <[2%nat := a]> (caps s2)) as (s4 & k4 & Hrun4 & Hg4).
  { cbn [run prev_word rest caps].
    destruct Hshape as [Hall|[Hall Hfirst]].
    - destruct (rep_from_whole hexx 1 0 (last_word (prev_word s2) (cps "/token/")) a post
                  (caps s2) Hall Hhex) as [k ->]; [destruct a; [done|simpl; lia]|].
      eexists _, _. split; [reflexivity|]. unfold set_group. cbn [rest caps]. f_equal.
      by rewrite length_app, Nat.add_sub, take_app_length.
    - rewrite plus_fails by (by destruct a).
      destruct (rep_from_whole base58 1 0 (last_word (prev_word s2) (cps "/token/")) a post
                  (caps s2) Hall Hb58) as [k ->]; [destruct a; [done|simpl; lia]|].
      eexists _, _. split; [reflexivity|]. unfold set_group. cbn [rest caps]. f_equal.
      by rewrite length_app, Nat.add_sub, take_app_length. }
  exists s4. split; [|by rewrite Hg4, Hg2].
  eapply head_bind_cons. cbn [run].
  rewrite (run_lits_here (cps "/token/") s2 (a ++ post) Hs2).
  rewrite bind_one. exact Hrun4.
Qed.

(** The search finds the first link, with its chain and its address. *)
Lemma gmgn_link_found pre c a post :
  not_before (cps "gmgn.ai/") (length pre)
    (pre ++ cps "gmgn.ai/" ++ c ++ cps "/token/" ++ a ++ post) →
  c ≠ [] → Forall (λ x, is_word x = true) c → whole_address a post →
  ∃ gm, re_search gmgn_re (pre ++ cps "gmgn.ai/" ++ c ++ cps "/token/" ++ a ++ post) = Some gm ∧
        group gm 1 = Ok (Some c) ∧ group gm 2 = Ok (Some a).
Proof.
  intros Hfirst Hne Hword Ha. unfold re_search.
  unfold gmgn_re, lit at 1. rewrite search_from_skip by done.
  fold (lit "gmgn.ai/"). change (lit "gmgn.ai/" ⋅ _)%re with gmgn_re.
  destruct (gmgn_re_here (last_word false pre) c a post Hne Hword Ha) as (st & Hhead & Hcaps).
  rewrite search_from_unfold. unfold match_at. rewrite Hhead. simpl.
  eexists. split; [reflexivity|]. unfold group. simpl. rewrite Hcaps.
  split; [by rewrite lookup_insert_ne, lookup_insert_eq|by rewrite lookup_insert_eq].
Qed.

(** C3, amended: when the direct-mint strategy does not fire, and the
    address of the first gmgn.ai link of the message is made of
    characters of [a-fA-F0-9x] only, or of base58 characters only with
    the first of them outside [a-fA-F0-9x], the locator returns the
    chain and the address of that link as they stand in the message,
    and not the other address that a [CA:] field holds. *)
Theorem gmgn_link_precedes_ca message pre c a post a' :
  direct_mint message = false →
  message = pre ++ cps "gmgn.ai/" ++ c ++ cps "/token/" ++ a ++ post →
  not_before (cps "gmgn.ai/") (length pre) message →
  c ≠ [] → Forall (λ x, is_word x = true) c →
  whole_address a post →
  token_after is_CA message a' → a' ≠ a →
  ∃ info, extract_contract_info message = Ok (Some info) ∧
          chain info = Some c ∧ contract info = Some a ∧ contract info ≠ Some a' ∧
          url info = cps "https://gmgn.ai/" ++ c ++ cps "/token/" ++ a.
Proof.
  intros Hno -> Hfirst Hne Hword Ha _ Hdiff.
  destruct (gmgn_link_found pre c a post Hfirst Hne Hword Ha) as (gm & Hgm & Hc & Hgr).
  rewrite extract_contract_info_locate, (locate_gmgn _ _ Hno Hgm), Hc, Hgr. simpl.
  eexists. split; [done|]. simpl. split_and!; [done..|congruence|done].
Qed.
End FirstLink.

(** A text [w] that begins at none of the first [n] positions of [s]
    does not occur before the position [n]. *)
Lemma not_before_check (w : str) n s :
  Forall (λ i, ¬ w `prefix_of` drop i s) (seq 0 n) → not_before w n s.
Proof.
  rewrite Forall_forall. intros Hno u v -> .
  destruct (decide (n ≤ length u)%nat) as [|Hlt]; [done|]. exfalso.
  apply (Hno (length u)).
  - apply elem_of_seq. lia.
  - rewrite drop_app_length. by exists v.
Qed.

(** ** Text before and after a signal *)

(** *** Occurrences of a character *)

Lemma first_occurrence {A} (c : A) l1 r1 l2 r2 :
  l1 ++ c :: r1 = l2 ++ c :: r2 → c ∉ l1 → c ∉ l2 → l1 = l2 ∧ r1 = r2.
Proof.
  intros Heq H1 H2.
  apply app_eq_app in Heq as [k [[-> Hk]|[-> Hk]]].
  - destruct k as [|x k]; simpl in Hk.
    + injection Hk as ->. by rewrite app_nil_r.
    + injection Hk as <- _. destruct H1. rewrite elem_of_app. right. left.
  - destruct k as [|x k]; simpl in Hk.
    + injection Hk as ->. by rewrite app_nil_r.
    + injection Hk as <- _. destruct H2. rewrite elem_of_app. right. left.
Qed.

Lemma last_occurrence {A} (c : A) l1 r1 l2 r2 :
  l1 ++ c :: r1 = l2 ++ c :: r2 → c ∉ r1 → c ∉ r2 → l1 = l2 ∧ r1 = r2.
Proof.
  intros Heq H1 H2.
  apply app_eq_app in Heq as [k [[-> Hk]|[-> Hk]]].
  - destruct k as [|x k]; simpl in Hk.
    + injection Hk as ->. by rewrite app_nil_r.
    + injection Hk as -> ->. destruct H2. rewrite elem_of_app. right. left.
  - destruct k as [|x k]; simpl in Hk.
    + injection Hk as ->. by rewrite app_nil_r.
    + injection Hk as -> ->. destruct H1. rewrite elem_of_app. right. left.
Qed.

(** A run of characters with a property, up to a character without it. *)
Lemma run_up_to {A} (P : A → Prop) x1 c1 r1 x2 c2 r2 :
  x1 ++ c1 :: r1 = x2 ++ c2 :: r2 →
  Forall P x1 → Forall P x2 → ¬ P c1 → ¬ P c2 → x1 = x2 ∧ c1 :: r1 = c2 :: r2.
Proof.
  intros Heq H1 H2 Hc1 Hc2.
  apply app_eq_app in Heq as [k [[-> Hk]|[-> Hk]]].
  - destruct k as [|x k]; simpl in Hk.
    + by rewrite app_nil_r.
    + injection Hk as -> _. apply Forall_app in H1 as [_ H1]. by inversion H1.
  - destruct k as [|x k]; simpl in Hk.
    + by rewrite app_nil_r.
    + injection Hk as -> _. apply Forall_app in H2 as [_ H2]. by inversion H2.
Qed.

Section Texts.
Context `{Unicode}.

(** *** The texts of a pattern *)

(** What a match attempt reads is a text of the pattern. *)
Lemma run_matches r st st' :
  st' ∈ run r st → ∃ w, rest st = w ++ rest st' ∧ matches r w.
Proof.
  revert st st'. induction r as [|cs|a IHa b IHb|a IHa b IHb|n a IHa|cs lo hi|];
    intros st st'; simpl.
  - intros ->%list_elem_of_singleton. by exists [].
  - destruct (rest st) as [|c t] eqn:Hrest; [by intros ?%elem_of_nil|].
    destruct (cs_match cs c) eqn:Hc; [|by intros ?%elem_of_nil].
    intros ->%list_elem_of_singleton. exists [c]. simpl. eauto.
  - intros (mid & (w2 & Hmid & H2)%IHb & (w1 & Hst & H1)%IHa)%list_elem_of_bind.
    exists (w1 ++ w2). rewrite Hst, Hmid, (assoc (++)). eauto 6.
  - rewrite elem_of_app. intros [(w & ? & ?)%IHa|(w & ? & ?)%IHb]; eauto.
  - intros (st0 & -> & (w & ? & ?)%IHa)%list_elem_of_fmap. eauto.
  - intros (tk & Htk & Hall & Hlo & _)%rep_from_taken. exists tk. simpl in Hlo. eauto.
  - destruct (xorb _ _); [|by intros ?%elem_of_nil].
    intros ->%list_elem_of_singleton. by exists [].
Qed.

Lemma matches_lits l w : matches (lits Lit l) w → w = l.
Proof.
  revert w. induction l as [|c l IH]; intros w; simpl; [done|].
  intros (w1 & w2 & -> & (x & -> & Hx) & ->%IH). apply N.eqb_eq in Hx. by subst.
Qed.

(** A text of a pattern holds no character that the pattern never
    reads. *)
Lemma never_reads_matches r c w : never_reads r c → matches r w → c ∉ w.
Proof.
  unfold never_reads. revert w.
  induction r as [|cs|a IHa b IHb|a IHa b IHb|n a IHa|cs lo hi|]; intros w Hnr; simpl in *.
  - intros ->. apply not_elem_of_nil.
  - rewrite Forall_singleton in Hnr. intros (x & -> & Hx) ->%list_elem_of_singleton.
    congruence.
  - apply Forall_app in Hnr as [Ha Hb]. intros (w1 & w2 & -> & H1 & H2).
    rewrite elem_of_app. intros [?|?]; [by eapply IHa|by eapply IHb].
  - apply Forall_app in Hnr as [Ha Hb]. intros [?|?]; [by eapply IHa|by eapply IHb].
  - by apply IHa.
  - rewrite Forall_singleton in Hnr. intros [Hall _] Hin.
    unfold all_in in Hall. rewrite Forall_forall in Hall. specialize (Hall _ Hin). congruence.
  - intros ->. apply not_elem_of_nil.
Qed.

(** The texts of a pattern that is cut at a literal. *)
Lemma cut_matches c r a b w :
  cut c r = Some (a, b) → matches r w →
  ∃ wa wb, w = wa ++ c :: wb ∧ matches a wa ∧ matches b wb.
Proof.
  revert a b w. induction r as [|cs|x IHx y IHy|x IHx y IHy|n x IHx|cs lo hi|];
    intros a b w; simpl; try done.
  - destruct cs as [z| | |]; try done. destruct (N.eqb_spec z c) as [->|]; [|done].
    intros [= <- <-] (k & -> & Hk). apply N.eqb_eq in Hk as ->. by exists [], [].
  - destruct (cut c x) as [[x1 x2]|].
    + intros [= <- <-] (w1 & w2 & -> & (wa & wb & -> & ? & ?)%(IHx _ _ _ eq_refl) & ?).
      exists wa, (wb ++ w2). rewrite <- (assoc (++)). simpl. split; [done|].
      split; [done|]. by exists wb, w2.
    + destruct (cut c y) as [[y1 y2]|]; [|done].
      intros [= <- <-] (w1 & w2 & -> & ? & (wa & wb & -> & ? & ?)%(IHy _ _ _ eq_refl)).
      exists (w1 ++ wa), wb. rewrite <- (assoc (++)). split; [done|].
      split; [by exists w1, wa|done].
Qed.

(** *** Patterns with one end *)

Lemma pfree_eps : pfree Eps.
Proof. by intros w1 w2 z1 z2 -> ->. Qed.

Lemma pfree_one cs : pfree (One cs).
Proof. intros w1 w2 z1 z2 (c1 & -> & _) (c2 & -> & _) [= ->]. done. Qed.

Lemma pfree_seq a b : pfree a → pfree b → pfree (Seq a b).
Proof.
  intros Ha Hb w1 w2 z1 z2 (a1 & b1 & -> & ? & ?) (a2 & b2 & -> & ? & ?) Heq.
  rewrite <- !(assoc (++)) in Heq.
  assert (a1 = a2) as -> by (by eapply Ha).
  apply app_inv_head in Heq. f_equal. by eapply Hb.
Qed.

Lemma pfree_group n a : pfree a → pfree (Group n a).
Proof. done. Qed.

Lemma pfree_alt a b c1 c2 :
  pfree a → pfree b → starts_with c1 a → starts_with c2 b → c1 ≠ c2 → pfree (Alt a b).
Proof.
  intros Ha Hb Hc1 Hc2 Hne w1 w2 z1 z2 [H1|H1] [H2|H2] Heq.
  - by eapply Ha.
  - destruct (Hc1 _ H1) as [? ->], (Hc2 _ H2) as [? ->]. simpl in Heq. congruence.
  - destruct (Hc2 _ H1) as [? ->], (Hc1 _ H2) as [? ->]. simpl in Heq. congruence.
  - by eapply Hb.
Qed.

(** A repetition ends where the text goes on with a character outside
    its set. *)
Lemma pfree_rep cs lo hi r : starts_outside cs r → pfree r → pfree (Seq (Rep cs lo hi) r).
Proof.
  intros Hout Hr w1 w2 z1 z2 (a1 & b1 & -> & [Ha1 _] & Hb1) (a2 & b2 & -> & [Ha2 _] & Hb2) Heq.
  destruct (Hout _ Hb1) as (c1 & k1 & -> & Hc1), (Hout _ Hb2) as (c2 & k2 & -> & Hc2).
  rewrite <- !(assoc (++)) in Heq. simpl in Heq.
  apply (run_up_to (λ c, cs_match cs c = true)) in Heq as [-> Heq];
    [|done|done|congruence..].
  f_equal. eapply (Hr _ _ z1 z2); [done..|]. exact Heq.
Qed.

Lemma starts_with_lit c r : starts_with c (Seq (One (Lit c)) r).
Proof.
  intros w (w1 & w2 & -> & (x & -> & Hx) & _). apply N.eqb_eq in Hx as ->. by eexists.
Qed.

Lemma starts_outside_lit cs c r :
  cs_match cs c = false → starts_outside cs (Seq (One (Lit c)) r).
Proof.
  intros Hc w (w1 & w2 & -> & (x & -> & Hx) & _). apply N.eqb_eq in Hx as ->.
  by eexists _, _.
Qed.

Lemma starts_outside_eps cs r : starts_outside cs r → starts_outside cs (Seq Eps r).
Proof. intros Hr w (w1 & w2 & -> & -> & ?). by apply Hr. Qed.

Lemma starts_outside_group cs n r : starts_outside cs r → starts_outside cs (Group n r).
Proof. done. Qed.

Lemma starts_outside_alt cs a b :
  starts_outside cs a → starts_outside cs b → starts_outside cs (Alt a b).
Proof. intros Ha Hb w [?|?]; [by apply Ha|by apply Hb]. Qed.

Lemma starts_outside_one cs c : cs_match cs c = false → starts_outside cs (One (Lit c)).
Proof. intros Hc w (x & -> & Hx). apply N.eqb_eq in Hx as ->. by eexists _, _. Qed.

Lemma starts_outside_seq cs a b : starts_outside cs a → starts_outside cs (Seq a b).
Proof.
  intros Ha w (w1 & w2 & -> & (c & k & -> & ?)%Ha & _). by exists c, (k ++ w2).
Qed.

(** A pattern with a literal that it reads nowhere else, and one end
    after it: a match that covers another one ends with it. *)
Lemma stops_cut c p a b :
  cut c p = Some (a, b) → never_reads a c → never_reads b c → pfree b → stops p.
Proof.
  intros Hcut Ha Hb Hfree pw1 pw2 g1 g2 x s st st' Hst Hst' Hlen.
  apply run_matches in Hst as (T & HT & HmT). apply run_matches in Hst' as (S & HS & HmS).
  simpl in HT, HS.
  destruct (cut_matches _ _ _ _ _ Hcut HmT) as (Ta & Tb & -> & HTa & HTb).
  destruct (cut_matches _ _ _ _ _ Hcut HmS) as (Sa & Sb & -> & HSa & HSb).
  pose proof (never_reads_matches _ _ _ Ha HTa) as HcTa.
  pose proof (never_reads_matches _ _ _ Hb HTb) as HcTb.
  pose proof (never_reads_matches _ _ _ Ha HSa) as HcSa.
  rewrite HS in HT. rewrite <- !(assoc (++)) in HT. simpl in HT.
  rewrite (assoc (++) x) in HT. symmetry in HT.
  apply app_eq_app in HT as [k [[Hk1 Hk2]|[Hk1 Hk2]]].
  - destruct k as [|y k].
    + simpl in Hk2. injection Hk2 as Hk2. symmetry in Hk2.
      assert (Tb = Sb) as -> by (by eapply Hfree). by apply app_inv_head in Hk2.
    + simpl in Hk2. injection Hk2 as -> Hk2.
      destruct HcTa. rewrite Hk1, elem_of_app. right. left.
  - destruct k as [|y k].
    + simpl in Hk2. injection Hk2 as Hk2.
      assert (Tb = Sb) as -> by (by eapply Hfree). by apply app_inv_head in Hk2.
    + simpl in Hk2. injection Hk2 as -> Hk2.
      apply app_separator in Hk2 as (k' & _ & Hrest); [|done].
      apply (f_equal length) in Hrest. rewrite length_app in Hrest. simpl in Hrest.
      rewrite length_app in Hrest. lia.
Qed.
End Texts.

Section Trailing.
Context `{Unicode}.

(** *** Text after the signal *)

Lemma run_ext_elem r v st st' :
  has_bound r = false → st' ∈ run r st → ext v st' ∈ run r (ext v st).
Proof.
  intros Hb Hin.
  assert (ext v st' ∈ filter (leaves (length v)) (run r (ext v st))) as Hf.
  { rewrite run_ext by auto. by apply list_elem_of_fmap_2. }
  by apply list_elem_of_filter in Hf as [_ ?].
Qed.

(** When the pattern matches the text [m] at its beginning, no match
    attempt at the beginning of [m ++ v] reads into [v]. *)
Lemma run_ext_all r v pw m g st' :
  has_bound r = false → stops r → st' ∈ run r (MState pw m g) →
  run r (MState pw (m ++ v) g) = ext v <$> run r (MState pw m g).
Proof.
  intros Hb Hstops Hin.
  rewrite <- (run_ext r v (MState pw m g)) by auto.
  symmetry. apply filter_id, Forall_forall. intros st Hst. unfold leaves.
  pose proof (run_ext_elem r v _ _ Hb Hin) as Hin'.
  destruct (decide (length (rest st) ≤ length (rest (ext v st')))%nat) as [Hle|Hgt].
  - rewrite (Hstops pw pw g g [] (m ++ v) st (ext v st') Hst Hin' Hle).
    simpl. rewrite length_app. lia.
  - simpl in Hgt. rewrite length_app in Hgt. lia.
Qed.

Lemma match_at_trailing r i pw m v mt :
  has_bound r = false → stops r →
  match_at r i pw m = Some mt → match_at r i pw (m ++ v) = Some mt.
Proof.
  intros Hb Hstops. unfold match_at.
  destruct (run r (MState pw m ∅)) as [|st l] eqn:Hrun; [done|].
  assert (st ∈ run r (MState pw m ∅)) as Hin by (rewrite Hrun; left).
  rewrite (run_ext_all r v pw m ∅ st Hb Hstops Hin), Hrun. simpl. intros [= <-]. f_equal.
  assert (rest st `suffix_of` m) as Hsuf%suffix_length.
  { apply (run_suffix r (MState pw m ∅)). rewrite Hrun. left. }
  rewrite !length_app, take_app_le by lia. do 2 f_equal. lia.
Qed.

(** Before a match in [m], no match begins that reads into [v]. *)
Lemma match_at_trailing_none r i pw pw' x s v st' :
  has_bound r = false → stops r → st' ∈ run r (MState pw' s ∅) →
  match_at r i pw (x ++ s) = None → match_at r i pw ((x ++ s) ++ v) = None.
Proof.
  intros Hb Hstops Hin. unfold match_at.
  destruct (run r (MState pw (x ++ s) ∅)) as [|? ?] eqn:Hrun; [|done]. intros _.
  destruct (run r (MState pw ((x ++ s) ++ v) ∅)) as [|st l] eqn:Hrun'; [done|].
  exfalso.
  assert (st ∈ run r (MState pw ((x ++ s) ++ v) ∅)) as Hst by (rewrite Hrun'; left).
  pose proof (run_ext_elem r v _ _ Hb Hin) as Hin'. unfold ext in Hin' at 2. simpl in Hin'.
  destruct (decide (leaves (length v) st)) as [Hl|Hl].
  - assert (st ∈ filter (leaves (length v)) (run r (ext v (MState pw (x ++ s) ∅)))) as Hf.
    { apply list_elem_of_filter. done. }
    rewrite run_ext, Hrun in Hf by auto. by apply elem_of_nil in Hf.
  - unfold leaves in Hl. rewrite <- (assoc (++)) in Hst.
    assert (length (rest st) ≤ length (rest (ext v st')))%nat as Hle.
    { simpl. rewrite length_app. lia. }
    rewrite (Hstops _ _ _ _ _ _ _ _ Hst Hin' Hle) in Hl. simpl in Hl.
    rewrite length_app in Hl. lia.
Qed.

(** Text after a text in which the pattern matches does not change the
    match that [re.search] finds. *)
Lemma search_trailing r i pw m v mt :
  has_bound r = false → stops r →
  search_from r i pw m = Some mt → search_from r i pw (m ++ v) = Some mt.
Proof.
  intros Hb Hstops. revert i pw. induction m as [|c m IH]; intros i pw.
  - rewrite !(search_from_unfold r i pw).
    destruct (match_at r i pw []) eqn:Hat; [|done]. intros [= ->].
    by rewrite (match_at_trailing r i pw [] v mt Hb Hstops Hat).
  - rewrite !(search_from_unfold r i pw).
    destruct (match_at r i pw (c :: m)) eqn:Hat.
    + intros [= ->]. by rewrite (match_at_trailing r i pw (c :: m) v mt Hb Hstops Hat).
    + intros Hs. pose proof Hs as (pre & suf & st & Hm & _ & Hhead & _)%search_from_head.
      assert (st ∈ run r (MState (last_word (is_word c) pre) suf ∅)) as Hin.
      { destruct (run r _) as [|? ?]; [done|]. injection Hhead as ->. left. }
      subst m. change (c :: pre ++ suf) with ((c :: pre) ++ suf) in Hat |- *.
      rewrite (match_at_trailing_none r i pw _ (c :: pre) suf v st Hb Hstops Hin Hat).
      simpl. by apply IH.
Qed.

(** *** Text before the signal *)

(** [re.search] passes over a text in which no match begins. *)
Lemma search_leading r u tail :
  (∀ u1 u2 pw, u = u1 ++ u2 → u2 ≠ [] → run r (MState pw (u2 ++ tail) ∅) = []) →
  ∀ i pw, search_from r i pw (u ++ tail) =
          search_from r (i + length u) (last_word pw u) tail.
Proof.
  induction u as [|c u IH]; intros Hno i pw.
  - simpl. by rewrite Nat.add_0_r.
  - rewrite search_from_unfold. unfold match_at.
    rewrite (Hno [] (c :: u) pw eq_refl ltac:(done)). simpl.
    rewrite IH.
    + f_equal. lia.
    + intros u1 u2 pw' -> Hne. by apply (Hno (c :: u1) u2 pw').
Qed.

Lemma last_word_suffix pw pw' u1 u2 :
  u2 ≠ [] → last_word pw (u1 ++ u2) = last_word pw' u2.
Proof.
  destruct u2 as [|c u2 _] using rev_ind; [done|]. intros _.
  by rewrite (assoc (++)), !last_word_snoc.
Qed.
End Trailing.

Ltac outside :=
  lazymatch goal with
  | |- starts_outside _ (One (Lit _)) => apply starts_outside_one; reflexivity
  | |- starts_outside _ (Seq Eps _) => apply starts_outside_eps; outside
  | |- starts_outside _ (Seq _ _) => apply starts_outside_seq; outside
  | |- starts_outside _ (Group _ _) => apply starts_outside_group; outside
  | |- starts_outside _ (Alt _ _) => apply starts_outside_alt; outside
  end.

Ltac one_end :=
  lazymatch goal with
  | |- pfree Eps => apply pfree_eps
  | |- pfree (One _) => apply pfree_one
  | |- pfree (Group _ _) => apply pfree_group; one_end
  | |- pfree (Seq (Rep _ _ _) _) => apply pfree_rep; [outside|one_end]
  | |- pfree (Seq _ _) => apply pfree_seq; one_end
  | |- pfree (Alt (Seq (One (Lit ?c1)) _) (Seq (One (Lit ?c2)) _)) =>
      apply (pfree_alt _ _ c1 c2);
      [one_end|one_end|apply starts_with_lit|apply starts_with_lit|done]
  end.

Ltac unread := unfold never_reads; cbn [sets app]; repeat constructor.

Ltac stops_at c :=
  lazymatch goal with
  | |- stops ?p =>
      let r := eval vm_compute in (cut c p) in
      lazymatch r with
      | Some (?a, ?b) => apply (stops_cut c p a b); [reflexivity|unread|unread|one_end]
      end
  end.

Section Grammars.
Context `{Unicode}.

(** *** The three grammars *)

(** A match of a grammar that covers another match of it ends with it:
    the grammars read [%], and kormushka [!], at one place only, and
    have one end after it. *)
Lemma mexc_tracker_stops : stops ticker_patterns.mexc_tracker.
Proof. stops_at 37. Qed.

Lemma kormushka_stops : stops ticker_patterns.kormushka.
Proof. stops_at 33. Qed.

Lemma pumply_stops : stops ticker_patterns.pumply.
Proof. stops_at 37. Qed.

(** *** Text before the signal, for the three grammars *)

(** In a grammar that begins with the ticker and white space, a match
    that begins in the text [x] before a text [m] with a match at its
    beginning, and [x] has no [%], takes all of [x] into its ticker. *)
Lemma leading_joins_ticker p a b c2 a2 x m v pw pw' st st' :
  cut 37 p = Some (a, b) → never_reads a 37 →
  cut c2 a = Some (Group 1 (plus word) ⋅ plus space ⋅ Eps, a2)%re → never_reads a2 c2 →
  (∀ c, is_word c = true → is_space c = false) →
  (37 ∉ x) →
  st ∈ run p (MState pw (x ++ m ++ v) ∅) → st' ∈ run p (MState pw' m ∅) →
  Forall (λ c, is_word c = true) x.
Proof.
  intros Hcut Ha Hcut2 Ha2 Hdisj Hx Hst Hst'.
  apply run_matches in Hst as (T & HT & HmT). apply run_matches in Hst' as (S & HS & HmS).
  simpl in HT, HS.
  destruct (cut_matches _ _ _ _ _ Hcut HmT) as (Ta & Tb & -> & HTa & _).
  destruct (cut_matches _ _ _ _ _ Hcut HmS) as (Sa & Sb & -> & HSa & _).
  pose proof (never_reads_matches _ _ _ Ha HTa) as HcTa.
  pose proof (never_reads_matches _ _ _ Ha HSa) as HcSa.
  rewrite HS in HT. rewrite <- !(assoc (++)) in HT. simpl in HT.
  rewrite (assoc (++) x) in HT.
  apply first_occurrence in HT as [HT _]; [|rewrite elem_of_app; tauto|done].
  destruct (cut_matches _ _ _ _ _ Hcut2 HTa) as (T1 & T2 & -> & HT1 & HT2).
  destruct (cut_matches _ _ _ _ _ Hcut2 HSa) as (S1 & S2 & -> & HS1 & HS2).
  pose proof (never_reads_matches _ _ _ Ha2 HT2) as HcT2.
  pose proof (never_reads_matches _ _ _ Ha2 HS2) as HcS2.
  rewrite (assoc (++) x) in HT. apply last_occurrence in HT as [HT _]; [|done..].
  destruct HT1 as (t & ? & -> & [Ht _] & s & ? & -> & [Hs _] & ->).
  destruct HS1 as (t1 & ? & -> & [Ht1 Hlen] & s1 & ? & -> & _ & ->).
  rewrite !app_nil_r in HT.
  apply app_eq_app in HT as [k [[-> Hk]|[-> Hk]]].
  - destruct t1 as [|c t1]; [simpl in Hlen; lia|]. exfalso.
    assert (c ∈ s) as Hin by (rewrite Hk, !elem_of_app; right; left; left).
    unfold all_in in Hs, Ht1. rewrite Forall_forall in Hs. specialize (Hs _ Hin).
    inversion Ht1 as [|?? Hc _]. rewrite word_match in Hc. rewrite space_match in Hs.
    by rewrite (Hdisj _ Hc) in Hs.
  - unfold all_in in Ht. apply Forall_app in Ht as [Ht _].
    eapply Forall_impl; [exact Ht|]. intros c. cbv beta. by rewrite word_match.
Qed.

(** The grammar of pumply begins with the sign [🔻]: no match begins in
    a text without [%] before a text with a match at its beginning. *)
Lemma leading_of_pumply x m v pw pw' st st' :
  is_word 128315 = false → is_space 128315 = false → is_digit 128315 = false →
  x ≠ [] → (37 ∉ x) →
  st ∈ run ticker_patterns.pumply (MState pw (x ++ m ++ v) ∅) →
  st' ∈ run ticker_patterns.pumply (MState pw' m ∅) → False.
Proof.
  intros Hw Hs Hd Hne Hx Hst Hst'.
  apply run_matches in Hst as (T & HT & HmT). apply run_matches in Hst' as (S & HS & HmS).
  simpl in HT, HS.
  lazymatch eval vm_compute in (cut 37 ticker_patterns.pumply) with
  | Some (?a, ?b) =>
      assert (cut 37 ticker_patterns.pumply = Some (a, b)) as Hcut by reflexivity;
      assert (never_reads a 37) as Hnr by unread
  end.
  destruct (cut_matches _ _ _ _ _ Hcut HmT) as (Ta & Tb & -> & HTa & _).
  destruct (cut_matches _ _ _ _ _ Hcut HmS) as (Sa & Sb & -> & HSa & _).
  pose proof (never_reads_matches _ _ _ Hnr HTa) as HcTa.
  pose proof (never_reads_matches _ _ _ Hnr HSa) as HcSa.
  rewrite HS in HT. rewrite <- !(assoc (++)) in HT. simpl in HT.
  rewrite (assoc (++) x) in HT.
  apply first_occurrence in HT as [HT _]; [|rewrite elem_of_app; tauto|done].
  destruct HTa as (? & T2 & -> & (? & -> & _) & HT2).
  destruct HSa as (? & S2 & -> & (c & -> & Hc) & _).
  apply N.eqb_eq in Hc as ->.
  assert (128315 ∉ T2) as Hsign.
  { eapply never_reads_matches; [|exact HT2].
    unfold never_reads. cbn [sets app].
    repeat apply Forall_cons_2; try apply Forall_nil_2; try reflexivity;
      unfold cs_match, existsb, item_match; rewrite ?Hw, ?Hs, ?Hd; reflexivity. }
  destruct x as [|y x]; [done|]. simpl in HT. injection HT as _ HT.
  apply Hsign. rewrite <- HT, elem_of_app. right. left.
Qed.
End Grammars.

Section Surroundings.
Context `{Unicode}.

Lemma grammar_cases (P : regex → Prop) p :
  p ∈ [ticker_patterns.mexc_tracker; ticker_patterns.kormushka; ticker_patterns.pumply] →
  P ticker_patterns.mexc_tracker → P ticker_patterns.kormushka → P ticker_patterns.pumply →
  P p.
Proof.
  rewrite !elem_of_cons, elem_of_nil. intros [->|[->|[->|[]]]]; auto.
Qed.

Lemma grammar_stops p :
  p ∈ [ticker_patterns.mexc_tracker; ticker_patterns.kormushka; ticker_patterns.pumply] →
  stops p ∧ has_bound p = false.
Proof.
  intros Hp. apply (grammar_cases (λ p, stops p ∧ has_bound p = false) p Hp).
  - split; [apply mexc_tracker_stops|reflexivity].
  - split; [apply kormushka_stops|reflexivity].
  - split; [apply pumply_stops|reflexivity].
Qed.

(** Text after a text in which a grammar matches does not change the
    match. *)
Lemma trailing_same p m v :
  p ∈ [ticker_patterns.mexc_tracker; ticker_patterns.kormushka; ticker_patterns.pumply] →
  is_Some (re_search p m) → re_search p (m ++ v) = re_search p m.
Proof.
  intros [Hstops Hb]%grammar_stops [mt Hm]. rewrite Hm.
  by apply search_trailing.
Qed.

(** No match of a grammar begins in a text without [%] that does not
    end with a word character (for pumply: in a text without [%]),
    before a text with a match at its beginning. *)
Lemma leading_no_match p u1 u2 m v pw :
  p ∈ [ticker_patterns.mexc_tracker; ticker_patterns.kormushka; ticker_patterns.pumply] →
  python_tables →
  is_Some (match_at p 0 false m) →
  (37 ∉ u1 ++ u2) →
  last_word false (u1 ++ u2) = false ∨ p = ticker_patterns.pumply →
  u2 ≠ [] →
  run p (MState pw (u2 ++ m ++ v) ∅) = [].
Proof.
  intros Hp (Hdisj & Hw & Hs & Hd) [mt Hm] Hpct Hend Hne.
  assert (37 ∉ u2) as Hpct2 by (intros ?; apply Hpct; rewrite elem_of_app; auto).
  unfold match_at in Hm.
  destruct (run p (MState false m ∅)) as [|st' l'] eqn:Hrun'; [done|]. clear Hm.
  assert (st' ∈ run p (MState false m ∅)) as Hst' by (rewrite Hrun'; left). clear Hrun'.
  destruct (run p (MState pw (u2 ++ m ++ v) ∅)) as [|st l] eqn:Hrun; [done|]. exfalso.
  assert (st ∈ run p (MState pw (u2 ++ m ++ v) ∅)) as Hst by (rewrite Hrun; left). clear Hrun.
  assert (∀ q, q ≠ ticker_patterns.pumply → Forall (λ c, is_word c = true) u2 → q = p → False)
    as Hjoin.
  { intros q Hq Hall ->. destruct Hend as [Hend|?]; [|done].
    rewrite (last_word_suffix false false u1 u2 Hne), last_word_all in Hend by done. done. }
  revert Hst Hst' Hjoin. pattern p. apply (grammar_cases _ p Hp); intros Hst Hst' Hjoin.
  - apply (Hjoin ticker_patterns.mexc_tracker); [intros Heq; discriminate Heq| |done].
    lazymatch eval vm_compute in (cut 37 ticker_patterns.mexc_tracker) with
    | Some (?a, ?b) =>
        lazymatch eval vm_compute in (cut 124 a) with
        | Some (_, ?a2) =>
            apply (leading_joins_ticker ticker_patterns.mexc_tracker a b 124 a2
                     u2 m v pw false st st'); [reflexivity|unread|reflexivity|unread|done..]
        end
    end.
  - apply (Hjoin ticker_patterns.kormushka); [intros Heq; discriminate Heq| |done].
    lazymatch eval vm_compute in (cut 37 ticker_patterns.kormushka) with
    | Some (?a, ?b) =>
        lazymatch eval vm_compute in (cut 43 a) with
        | Some (_, ?a2) =>
            apply (leading_joins_ticker ticker_patterns.kormushka a b 43 a2
                     u2 m v pw false st st'); [reflexivity|unread|reflexivity|unread|done..]
        end
    end.
  - by apply (leading_of_pumply u2 m v pw false st st').
Qed.

(** Text around a text with a match of a grammar at its beginning. *)
Lemma leading_same p u m v :
  p ∈ [ticker_patterns.mexc_tracker; ticker_patterns.kormushka; ticker_patterns.pumply] →
  python_tables →
  is_Some (match_at p 0 false m) →
  (37 ∉ u) →
  last_word false u = false ∨ p = ticker_patterns.pumply →
  same_match (re_search p (u ++ m ++ v)) (re_search p m).
Proof.
  intros Hp Htab Hm Hpct Hend. destruct (grammar_stops p Hp) as [Hstops Hb].
  unfold re_search. rewrite search_leading.
  2:{ intros u1 u2 pw -> Hne. by apply (leading_no_match p u1 u2). }
  destruct Hm as [mt Hm].
  assert (search_from p 0 false m = Some mt) as Hs by (by rewrite search_from_unfold, Hm).
  rewrite Hs, <- (search_trailing p 0 false m v mt Hb Hstops Hs).
  apply search_from_same. by left.
Qed.

(** C6, amended: for the three grammars of the program, text after a
    message in which the grammar matches never changes the ticker and
    the direction; and when the grammar matches at the beginning of
    [m], text [u] before [m] that holds no [%] and, for the two grammars
    that begin with the ticker, does not end with a word character,
    does not change them either, whatever text [v] follows.  The second
    part takes of the Unicode tables what [python_tables] states. *)
Theorem surrounding_text_irrelevant self bot_name bot u m v :
  monitored_bots (config self) !! bot_name = Some bot →
  pattern bot ∈ [ticker_patterns.mexc_tracker; ticker_patterns.kormushka;
                 ticker_patterns.pumply] →
  (is_Some (re_search (pattern bot) m) →
   signal (extract_ticker_data (m ++ v) bot_name self).1.1 =
   signal (extract_ticker_data m bot_name self).1.1) ∧
  (python_tables →
   is_Some (match_at (pattern bot) 0 false m) →
   (37 ∉ u) →
   last_word false u = false ∨ pattern bot = ticker_patterns.pumply →
   signal (extract_ticker_data (u ++ m ++ v) bot_name self).1.1 =
   signal (extract_ticker_data m bot_name self).1.1).
Proof.
  intros Hbot Hp. split.
  - intros Hm. rewrite !extract_signal.
    rewrite (extracted_same self bot_name bot (m ++ v) m Hbot); [done|].
    by rewrite trailing_same.
  - intros Htab Hm Hpct Hend. rewrite !extract_signal.
    rewrite (extracted_same self bot_name bot (u ++ m ++ v) m Hbot); [done|].
    by apply leading_same.
Qed.
End Surroundings.

(** ** The properties on concrete messages *)

Section Concrete.
#[local] Existing Instance ascii_only.
#[local] Existing Instance slot_order.
#[local] Existing Instance name_order.
#[local] Existing Instance willing_desktop.

(** The end-to-end scenarios: a mexcTracker message with a [CA:] field
    and a chain, and a message with [network: BEP20]. *)
Example scenario_dexe :
  extract_contract_info (dexe_before ++ dexe_line ++ dexe_after) =
    Ok (Some {| type_ := cps "contract"; chain := Some (cps "eth");
                contract := Some (cps "0xde4EE8057785A7e8e800Db58F9784845A5C2Cbd6");
                url := cps "https://gmgn.ai/eth/token/0xde4EE8057785A7e8e800Db58F9784845A5C2Cbd6" |}) ∧
  signal (extract_ticker_data (dexe_before ++ dexe_line ++ dexe_after) (cps "mexcTracker")
            (init (default_config []))).1.1 = Some (Some (cps "DEXE"), Some (cps "Long")).
Proof. by vm_compute. Qed.

Example scenario_bep20 :
  extract_contract_info punctuated_contract_message =
    Ok (Some {| type_ := cps "contract"; chain := Some (cps "bsc");
                contract := Some (cps "<ask-admin>,soon");
                url := cps "https://gmgn.ai/bsc/token/<ask-admin>,soon" |}).
Proof. by vm_compute. Qed.

(** Failure paths of the extraction: a source that is not configured
    ([KeyError]) and a layout that names a group the pattern does not
    have ([IndexError]). *)
Example unknown_source_no_signal :
  (ticker_data_of dexe_line (cps "nobody") (init (default_config []))).1.1 = Raise KeyError ∧
  (extract_ticker_data dexe_line (cps "nobody") (init (default_config []))).1.1 = Ok None.
Proof. by vm_compute. Qed.

Example missing_group_no_signal :
  let cfg := {| monitored_bots := {[ cps "MexcDexSpreadTracker" :=
                   {| username := cps "MexcDexSpreadTracker";
                      pattern := ticker_patterns.mexc_tracker; enabled := true |} ]};
                auto_copy_clipboard := true; auto_open_gmgn := true;
                stats_interval := 10; max_errors := 10;
                notifications_enabled := false; notifications_desktop := false;
                notifications_sound := false;
                blacklist_cfg_enabled := false; blacklist_cfg_tickers := [] |} in
  (ticker_data_of dexe_line (cps "MexcDexSpreadTracker") (init cfg)).1.1 = Raise IndexError ∧
  (extract_ticker_data dexe_line (cps "MexcDexSpreadTracker") (init cfg)).1.1 = Ok None.
Proof. by vm_compute. Qed.

Example scenario_ftt :
  extract_contract_info ftt_gmgn_message =
    Ok (Some {| type_ := cps "gmgn"; chain := Some (cps "eth");
                contract := Some (cps "0x50d1c9771902476076ecfc8b2a83ad6b9355a4c9");
                url := cps "https://gmgn.ai/eth/token/0x50d1c9771902476076ecfc8b2a83ad6b9355a4c9" |}) ∧
  signal (extract_ticker_data ftt_gmgn_message (cps "kormushka_mexc")
            (init (default_config []))).1.1 = Some (Some (cps "FTT"), None).
Proof. by vm_compute. Qed.

(** A message delivered twice to a fresh monitor is processed once. *)
Example scenario_twice :
  (process_message ftt_gmgn_message (cps "kormushka_mexc") 7 (init (default_config []))).1.1
    = Ok Handled ∧
  (process_message ftt_gmgn_message (cps "kormushka_mexc") 7
     (after (process_message ftt_gmgn_message (cps "kormushka_mexc") 7)
            (init (default_config [])))).1.1 = Ok Duplicate.
Proof. by vm_compute. Qed.

(** Witness of C4: a bare dexscreener link becomes a GMGN link. *)
Lemma located_url_is_gmgn_witness :
  extract_contract_info dexscreener_message =
    Ok (Some {| type_ := cps "dexscreener"; chain := Some (cps "bsc");
                contract := Some (cps "0x2afdf2cd0384a3b5d7836b70c8da5e73841ba826");
                url := cps "https://gmgn.ai/bsc/token/0x2afdf2cd0384a3b5d7836b70c8da5e73841ba826" |}) ∧
  ∃ ch co,
    Some (cps "bsc") = Some ch ∧
    Some (cps "0x2afdf2cd0384a3b5d7836b70c8da5e73841ba826") = Some co ∧
    cps "https://gmgn.ai/bsc/token/0x2afdf2cd0384a3b5d7836b70c8da5e73841ba826"
      = cps "https://gmgn.ai/" ++ ch ++ cps "/token/" ++ co.
Proof.
  assert (extract_contract_info dexscreener_message =
    Ok (Some {| type_ := cps "dexscreener"; chain := Some (cps "bsc");
                contract := Some (cps "0x2afdf2cd0384a3b5d7836b70c8da5e73841ba826");
                url := cps "https://gmgn.ai/bsc/token/0x2afdf2cd0384a3b5d7836b70c8da5e73841ba826" |}))
    as Hrun by (vm_compute; reflexivity).
  split; [exact Hrun|].
  exact (located_url_is_gmgn dexscreener_message _ Hrun).
Defined.

(** Witness of C7 *)
Lemma gmgn_chain_idempotent_on_codes_witness :
  chain_mapping !! cps "avalanche" = Some (cps "avax") ∧
  gmgn_chain (gmgn_chain (cps "avax")) = gmgn_chain (cps "avax").
Proof.
  assert (chain_mapping !! cps "avalanche" = Some (cps "avax")) as Hin
    by (vm_compute; reflexivity).
  split; [exact Hin|].
  exact (gmgn_chain_idempotent_on_codes (cps "avalanche") (cps "avax") Hin).
Defined.

(** Witness of C8: [doge] is stopped by a blacklist that holds [DOGE]. *)
Lemma blacklisted_ticker_no_signal_witness :
  blacklist_enabled (init (default_config [cps "DOGE"])) = true ∧
  extracted (init (default_config [cps "DOGE"])) doge_message (cps "mexcTracker")
    = Some (Some (cps "doge"), Some (cps "Long")) ∧
  upper (cps "doge") ∈ blacklisted_tickers (init (default_config [cps "DOGE"])) ∧
  (extract_ticker_data doge_message (cps "mexcTracker")
     (init (default_config [cps "DOGE"]))).1.1 = Ok None.
Proof.
  assert (extracted (init (default_config [cps "DOGE"])) doge_message (cps "mexcTracker")
            = Some (Some (cps "doge"), Some (cps "Long"))) as Hex
    by (vm_compute; reflexivity).
  assert (upper (cps "doge") ∈ blacklisted_tickers (init (default_config [cps "DOGE"])))
    as Hin by (refine (bool_decide_eq_true_1 _ _); vm_compute; reflexivity).
  split; [reflexivity|]. split; [exact Hex|]. split; [exact Hin|].
  exact (proj1 (blacklisted_ticker_no_signal (init (default_config [cps "DOGE"]))
                  doge_message (cps "mexcTracker")
                  (cps "doge") (Some (cps "Long")) eq_refl Hex Hin)).
Defined.

(** Counterexamples to C3 as stated.  In the first message the locator
    returns the address of the [CA:] field: it is the first base58
    token of the message, and [/sol/] is a Solana marker, so the
    direct-mint strategy comes first.  In the second message that
    strategy does not fire, and the locator returns [7x], which is
    neither the address of the link nor that of the [CA:] field: the
    alternative [[a-fA-F0-9x]+] of the link pattern comes first and
    stops at the [K]. *)
Lemma gmgn_link_not_returned :
  (∃ gm ca,
     re_search gmgn_re solana_gmgn_message = Some gm ∧
     group gm 1 = Ok (Some (cps "sol")) ∧
     group gm 2 = Ok (Some (cps "So11111111111111111111111111111111111111112")) ∧
     re_search ca_re solana_gmgn_message = Some ca ∧
     group ca 1 = Ok (Some (cps "7xKXtg2CW87d97TXJSDpbD5jBkheTqA83TZRuJosgAsU")) ∧
     extract_contract_info solana_gmgn_message =
       Ok (Some {| type_ := cps "gmgn"; chain := Some (cps "sol");
                   contract := Some (cps "7xKXtg2CW87d97TXJSDpbD5jBkheTqA83TZRuJosgAsU");
                   url := cps "https://gmgn.ai/sol/token/7xKXtg2CW87d97TXJSDpbD5jBkheTqA83TZRuJosgAsU" |})) ∧
  (direct_mint cut_short_message = false ∧
   cut_short_message =
     cps "GMGN (https://" ++ cps "gmgn.ai/" ++ cps "bsc" ++ cps "/token/" ++
     cps "7xKXtg2CW87d97TXJSDpbD5jBkheTqA83TZRuJosgAsU" ++ (cps ")" ++ nl ++ cps "CA: 0xabc") ∧
   not_before (cps "gmgn.ai/") (length (cps "GMGN (https://")) cut_short_message ∧
   all_in base58 (cps "7xKXtg2CW87d97TXJSDpbD5jBkheTqA83TZRuJosgAsU") ∧
   ends_run hexx (cps ")" ++ nl ++ cps "CA: 0xabc") ∧
   ends_run base58 (cps ")" ++ nl ++ cps "CA: 0xabc") ∧
   token_after is_CA cut_short_message (cps "0xabc") ∧
   extract_contract_info cut_short_message =
     Ok (Some {| type_ := cps "gmgn"; chain := Some (cps "bsc"); contract := Some (cps "7x");
                 url := cps "https://gmgn.ai/bsc/token/7x" |})).
Proof.
  split.
  - destruct (re_search gmgn_re solana_gmgn_message) as [gm|] eqn:Hgm;
      [|by vm_compute in Hgm].
    destruct (re_search ca_re solana_gmgn_message) as [ca|] eqn:Hca;
      [|by vm_compute in Hca].
    exists gm, ca. vm_compute in Hgm, Hca.
    injection Hgm as <-. injection Hca as <-.
    split_and!; [done|by vm_compute..].
  - split_and!.
    + by vm_compute.
    + reflexivity.
    + apply not_before_check. refine (bool_decide_eq_true_1 _ _). by vm_compute.
    + unfold all_in. refine (bool_decide_eq_true_1 _ _). by vm_compute.
    + by vm_compute.
    + by vm_compute.
    + exists (cps "GMGN (https://gmgn.ai/bsc/token/7xKXtg2CW87d97TXJSDpbD5jBkheTqA83TZRuJosgAsU)" ++ nl),
        (cps "CA:"), (cps " "), [].
      split_and!; [reflexivity|reflexivity| |done| |done];
        refine (bool_decide_eq_true_1 _ _); by vm_compute.
    + by vm_compute.
Qed.

(** Witness of C3, amended: the message of kormushka with the link and
    the [CA:] field; the address of the link is hexadecimal and ends at
    the parenthesis. *)
Lemma gmgn_link_precedes_ca_witness :
  direct_mint ftt_gmgn_message = false ∧
  whole_address (cps "0x50d1c9771902476076ecfc8b2a83ad6b9355a4c9")
    (cps ") | Limit ~$95900" ++ nl ++ cps "CA: 0xde4EE8057785A7e8e800Db58F9784845A5C2Cbd6") ∧
  token_after is_CA ftt_gmgn_message (cps "0xde4EE8057785A7e8e800Db58F9784845A5C2Cbd6") ∧
  ∃ info,
    extract_contract_info ftt_gmgn_message = Ok (Some info) ∧
    chain info = Some (cps "eth") ∧
    contract info = Some (cps "0x50d1c9771902476076ecfc8b2a83ad6b9355a4c9") ∧
    contract info ≠ Some (cps "0xde4EE8057785A7e8e800Db58F9784845A5C2Cbd6") ∧
    url info = cps "https://gmgn.ai/" ++ cps "eth" ++ cps "/token/" ++
               cps "0x50d1c9771902476076ecfc8b2a83ad6b9355a4c9".
Proof.
  pose (pre := cps "FTT +3.61% in 10 secs!" ++ nl ++
               cps "MEXC (https://futures.mexc.com/exchange/FTT_USDT) - GMGN (https://").
  pose (a := cps "0x50d1c9771902476076ecfc8b2a83ad6b9355a4c9").
  pose (a' := cps "0xde4EE8057785A7e8e800Db58F9784845A5C2Cbd6").
  pose (post := cps ") | Limit ~$95900" ++ nl ++ cps "CA: " ++ a').
  assert (direct_mint ftt_gmgn_message = false) as Hno by (vm_compute; reflexivity).
  assert (ftt_gmgn_message = pre ++ cps "gmgn.ai/" ++ cps "eth" ++ cps "/token/" ++ a ++ post)
    as Hmsg by reflexivity.
  assert (not_before (cps "gmgn.ai/") (length pre) ftt_gmgn_message) as Hfirst.
  { apply not_before_check. refine (bool_decide_eq_true_1 _ _). vm_compute. reflexivity. }
  assert (cps "eth" ≠ []) as Hc by discriminate.
  assert (Forall (λ x, is_word x = true) (cps "eth")) as Hword.
  { refine (bool_decide_eq_true_1 _ _). vm_compute. reflexivity. }
  assert (whole_address a post) as Ha.
  { split; [discriminate|]. split; [left|split; vm_compute; reflexivity].
    unfold all_in. refine (bool_decide_eq_true_1 _ _). vm_compute. reflexivity. }
  assert (token_after is_CA ftt_gmgn_message a') as Hca.
  { exists (cps "FTT +3.61% in 10 secs!" ++ nl ++
            cps "MEXC (https://futures.mexc.com/exchange/FTT_USDT) - GMGN (https://gmgn.ai/eth/token/0x50d1c9771902476076ecfc8b2a83ad6b9355a4c9) | Limit ~$95900" ++ nl),
      (cps "CA:"), (cps " "), [].
    split; [reflexivity|]. split; [reflexivity|].
    split; [refine (bool_decide_eq_true_1 _ _); vm_compute; reflexivity|].
    split; [discriminate|].
    split; [refine (bool_decide_eq_true_1 _ _); vm_compute; reflexivity|exact I]. }
  assert (a' ≠ a) as Hne by discriminate.
  split; [exact Hno|]. split; [exact Ha|]. split; [exact Hca|].
  exact (gmgn_link_precedes_ca ftt_gmgn_message pre (cps "eth") a post a'
           Hno Hmsg Hfirst Hc Hword Ha Hca Hne).
Defined.

(** A base58 address that begins outside [a-fA-F0-9x] is taken whole. *)
Example gmgn_link_base58_address :
  extract_contract_info tron_message =
    Ok (Some {| type_ := cps "gmgn"; chain := Some (cps "tron");
                contract := Some (cps "TR7NHqjeKQxGTCi8q8ZY4pL8otSzgjLj6t");
                url := cps "https://gmgn.ai/tron/token/TR7NHqjeKQxGTCi8q8ZY4pL8otSzgjLj6t" |}).
Proof. by vm_compute. Qed.

(** Counterexample to C6 as stated: no pattern of the table matches in
    the leading text [XX], and the ticker of [XXDEXE | 8.17% | Long] is
    not the ticker of [DEXE | 8.17% | Long]. *)
Lemma leading_text_changes_ticker :
  is_Some (re_search ticker_patterns.mexc_tracker dexe_line) ∧
  re_search ticker_patterns.mexc_tracker (cps "XX") = None ∧
  re_search ticker_patterns.kormushka (cps "XX") = None ∧
  re_search ticker_patterns.pumply (cps "XX") = None ∧
  signal (extract_ticker_data dexe_line (cps "mexcTracker") (init (default_config []))).1.1
    = Some (Some (cps "DEXE"), Some (cps "Long")) ∧
  signal (extract_ticker_data (cps "XX" ++ dexe_line ++ []) (cps "mexcTracker")
            (init (default_config []))).1.1
    = Some (Some (cps "XXDEXE"), Some (cps "Long")).
Proof.
  split_and!; [|by vm_compute..].
  destruct (re_search ticker_patterns.mexc_tracker dexe_line) eqn:Hm; [done|].
  by vm_compute in Hm.
Qed.

(** Leading text that is set off by a space changes the result as well:
    [A | 1% | ] holds no match, and before [Long | 2% | Short] it makes
    the ticker [A] and the direction [Long]. *)
Example leading_fields_change_ticker :
  re_search ticker_patterns.mexc_tracker (cps "A | 1% | ") = None ∧
  last_word false (cps "A | 1% | ") = false ∧
  is_Some (match_at ticker_patterns.mexc_tracker 0 false (cps "Long | 2% | Short")) ∧
  signal (extract_ticker_data (cps "Long | 2% | Short") (cps "mexcTracker")
            (init (default_config []))).1.1
    = Some (Some (cps "Long"), Some (cps "Short")) ∧
  signal (extract_ticker_data (cps "A | 1% | " ++ cps "Long | 2% | Short") (cps "mexcTracker")
            (init (default_config []))).1.1
    = Some (Some (cps "A"), Some (cps "Long")).
Proof.
  split_and!; try (by vm_compute).
  destruct (match_at _ _ _ _) eqn:E; [done|]. by vm_compute in E.
Qed.

(** The tables without a character outside ASCII have what the
    properties take of Python's. *)
Lemma ascii_only_tables : @python_tables ascii_only.
Proof.
  split_and!; [|reflexivity..]. intros c. unfold is_word, is_space.
  destruct (is_ascii c); [|done].
  rewrite !orb_true_iff, !in_range_spec, N.eqb_eq. intros Hw.
  apply not_true_is_false. rewrite !orb_true_iff, !in_range_spec, N.eqb_eq. lia.
Qed.

(** Leading text without [%] that does not end with a word character
    changes the result when the grammar does not match at the beginning
    of the text: before [| 1% | Long DEXE | 8% | Short] the text [A ]
    makes the ticker [A] and the direction [Long]. *)
Example leading_text_completes_a_match :
  is_Some (re_search ticker_patterns.mexc_tracker late_match) ∧
  match_at ticker_patterns.mexc_tracker 0 false late_match = None ∧
  (37 ∉ cps "A ") ∧ last_word false (cps "A ") = false ∧
  signal (extract_ticker_data late_match (cps "mexcTracker") (init (default_config []))).1.1
    = Some (Some (cps "DEXE"), Some (cps "Short")) ∧
  signal (extract_ticker_data (cps "A " ++ late_match) (cps "mexcTracker")
            (init (default_config []))).1.1
    = Some (Some (cps "A"), Some (cps "Long")).
Proof.
  split_and!; [|by vm_compute| |by vm_compute..].
  - destruct (re_search ticker_patterns.mexc_tracker late_match) eqn:Hm; [done|].
    by vm_compute in Hm.
  - refine (bool_decide_eq_true_1 _ _). by vm_compute.
Qed.

(** Witness of C6, amended: the line of the mexcTracker message inside
    the message, and the line of pumply after text that ends with a
    word character. *)
Lemma surrounding_text_irrelevant_witness :
  is_Some (re_search ticker_patterns.mexc_tracker dexe_line) ∧
  is_Some (match_at ticker_patterns.mexc_tracker 0 false dexe_line) ∧
  (37 ∉ dexe_before) ∧ last_word false dexe_before = false ∧
  signal (extract_ticker_data (dexe_line ++ dexe_after) (cps "mexcTracker")
            (init (default_config []))).1.1 =
  signal (extract_ticker_data dexe_line (cps "mexcTracker") (init (default_config []))).1.1 ∧
  signal (extract_ticker_data (dexe_before ++ dexe_line ++ dexe_after) (cps "mexcTracker")
            (init (default_config []))).1.1 =
  signal (extract_ticker_data dexe_line (cps "mexcTracker") (init (default_config []))).1.1 ∧
  is_Some (match_at ticker_patterns.pumply 0 false pumply_line) ∧
  last_word false (cps "XX") = true ∧
  signal (extract_ticker_data (cps "XX" ++ pumply_line ++ dexe_after) (cps "pumply_futures_dex")
            (init (default_config []))).1.1 =
  signal (extract_ticker_data pumply_line (cps "pumply_futures_dex")
            (init (default_config []))).1.1.
Proof.
  assert (monitored_bots (config (init (default_config []))) !! cps "mexcTracker"
    = Some {| username := cps "mexcTracker"; pattern := ticker_patterns.mexc_tracker;
              enabled := true |}) as Hbot by (vm_compute; reflexivity).
  assert (monitored_bots (config (init (default_config []))) !! cps "pumply_futures_dex"
    = Some {| username := cps "pumply_futures_dex"; pattern := ticker_patterns.pumply;
              enabled := true |}) as Hbot' by (vm_compute; reflexivity).
  assert (ticker_patterns.mexc_tracker ∈
            [ticker_patterns.mexc_tracker; ticker_patterns.kormushka; ticker_patterns.pumply])
    as Hp by (apply list_elem_of_here).
  assert (ticker_patterns.pumply ∈
            [ticker_patterns.mexc_tracker; ticker_patterns.kormushka; ticker_patterns.pumply])
    as Hp' by (do 2 apply list_elem_of_further; apply list_elem_of_here).
  assert (is_Some (re_search ticker_patterns.mexc_tracker dexe_line)) as Hm.
  { destruct (re_search ticker_patterns.mexc_tracker dexe_line) eqn:E; [done|].
    vm_compute in E. discriminate E. }
  assert (is_Some (match_at ticker_patterns.mexc_tracker 0 false dexe_line)) as Hat.
  { destruct (match_at ticker_patterns.mexc_tracker 0 false dexe_line) eqn:E; [done|].
    vm_compute in E. discriminate E. }
  assert (is_Some (match_at ticker_patterns.pumply 0 false pumply_line)) as Hat'.
  { destruct (match_at ticker_patterns.pumply 0 false pumply_line) eqn:E; [done|].
    vm_compute in E. discriminate E. }
  assert (37 ∉ dexe_before) as Hpct.
  { refine (bool_decide_eq_true_1 _ _). vm_compute. reflexivity. }
  assert (37 ∉ cps "XX") as Hpct'.
  { refine (bool_decide_eq_true_1 _ _). vm_compute. reflexivity. }
  assert (last_word false dexe_before = false) as Hend by (vm_compute; reflexivity).
  split; [exact Hm|]. split; [exact Hat|]. split; [exact Hpct|]. split; [exact Hend|].
  split.
  { exact (proj1 (surrounding_text_irrelevant (init (default_config [])) (cps "mexcTracker") _
                    dexe_before dexe_line dexe_after Hbot Hp) Hm). }
  split.
  { exact (proj2 (surrounding_text_irrelevant (init (default_config [])) (cps "mexcTracker") _
                    dexe_before dexe_line dexe_after Hbot Hp)
             ascii_only_tables Hat Hpct (or_introl Hend)). }
  split; [exact Hat'|]. split; [vm_compute; reflexivity|].
  exact (proj2 (surrounding_text_irrelevant (init (default_config [])) (cps "pumply_futures_dex") _
                  (cps "XX") pumply_line dexe_after Hbot' Hp')
           ascii_only_tables Hat' Hpct' (or_intror eq_refl)).
Defined.

(** Witness of C10: the token [3a...(see-pinned)!] after [CA:] is the
    contract and is in the link. *)
Lemma labelled_contract_is_any_token_witness :
  direct_mint truncated_ca_message = false ∧
  re_search gmgn_re truncated_ca_message = None ∧
  is_Some (re_search ca_re truncated_ca_message) ∧
  ∃ tok ch, token_after is_CA truncated_ca_message tok ∧
    extract_contract_info truncated_ca_message =
      Ok (Some {| type_ := cps "contract"; chain := Some ch; contract := Some tok;
                  url := cps "https://gmgn.ai/" ++ ch ++ cps "/token/" ++ tok |}).
Proof.
  assert (direct_mint truncated_ca_message = false) as Hno by (vm_compute; reflexivity).
  assert (re_search gmgn_re truncated_ca_message = None) as Hgm by (vm_compute; reflexivity).
  assert (is_Some (re_search ca_re truncated_ca_message)) as Hca.
  { destruct (re_search ca_re truncated_ca_message) eqn:Hm;
      [eexists; reflexivity|vm_compute in Hm; discriminate Hm]. }
  split; [exact Hno|]. split; [exact Hgm|]. split; [exact Hca|].
  exact (proj1 (labelled_contract_is_any_token truncated_ca_message Hno Hgm) Hca).
Defined.

(** The contract of that message. *)
Example truncated_ca_contract :
  extract_contract_info truncated_ca_message =
    Ok (Some {| type_ := cps "contract"; chain := Some (cps "eth");
                contract := Some (cps "3a...(see-pinned)!");
                url := cps "https://gmgn.ai/eth/token/3a...(see-pinned)!" |}).
Proof. by vm_compute. Qed.

(** The monitor after a thousand kormushka messages, ids 1 to 1000. *)
Abbreviation full_monitor :=
  (deliver ftt_message (cps "kormushka_mexc") (first_ids 1000) (init (default_config []))).

(** The thousand-and-first message, and the hash of the message [i]. *)
Abbreviation one_more := (process_message ftt_message (cps "kormushka_mexc") 1001).
Abbreviation hash_of i := (message_hash ftt_message (cps "kormushka_mexc") i).

Lemma full_monitor_run :
  (let self := full_monitor in
   let first := one_more self in
   let second := one_more (after one_more self) in
   let cache := processed_messages (after one_more self) in
   (bool_decide (hash_of 1001 ∈ processed_messages self),
    length (set_add (hash_of 1001) (processed_messages self)),
    first.1.1, second.1.1, length cache,
    bool_decide (hash_of 3 ∈ cache), bool_decide (hash_of 1000 ∈ cache),
    bool_decide (hash_of 1001 ∈ cache)))
  = (false, 1001%nat, Ok Handled, Ok Handled, 500%nat, true, false, false).
Proof. vm_compute. reflexivity. Qed.

(** C1: the thousand-and-first new message is processed, and processed
    again when it is repeated at once: recording it flushed the cache,
    and the flush, which keeps the last 500 hashes in the iteration order
    of the set, dropped the hash just added. *)
Theorem repeat_after_flush_processed_twice :
  reachable (default_config []) full_monitor ∧
  (hash_of 1001 ∉ processed_messages full_monitor) ∧
  (one_more full_monitor).1.1 = Ok Handled ∧
  (one_more (after one_more full_monitor)).1.1 = Ok Handled.
Proof.
  split; [apply deliver_reachable, reach_init|].
  pose proof full_monitor_run as Hrun. cbv zeta in Hrun.
  repeat apply pair_equal_spec in Hrun as [Hrun ?].
  repeat match goal with
         | H : bool_decide _ = true |- _ => apply bool_decide_eq_true in H
         | H : bool_decide _ = false |- _ => apply bool_decide_eq_false in H
         end.
  split; [assumption|]. split; assumption.
Qed.

(** C2: after 1001 messages the flush has kept the hash of the third
    message and dropped those of the last two: the hashes that survive
    are the last 500 in the iteration order of the set, not the 500
    added last. *)
Theorem flush_drops_newest_keeps_old :
  reachable (default_config []) (after one_more full_monitor) ∧
  length (processed_messages (after one_more full_monitor)) = 500%nat ∧
  hash_of 3 ∈ processed_messages (after one_more full_monitor) ∧
  (hash_of 1000 ∉ processed_messages (after one_more full_monitor)) ∧
  (hash_of 1001 ∉ processed_messages (after one_more full_monitor)).
Proof.
  split; [apply reach_step, deliver_reachable, reach_init|].
  pose proof full_monitor_run as Hrun. cbv zeta in Hrun.
  repeat apply pair_equal_spec in Hrun as [Hrun ?].
  repeat match goal with
         | H : bool_decide _ = true |- _ => apply bool_decide_eq_true in H
         | H : bool_decide _ = false |- _ => apply bool_decide_eq_false in H
         end.
  split; [assumption|]. split; [assumption|]. split; assumption.
Qed.

(** Witness of C9: the call that adds the thousand-and-first hash. *)
Lemma cache_bounded_witness :
  reachable (default_config []) full_monitor ∧
  (max_cache_size full_monitor <
     Z.of_nat (length (set_add (hash_of 1001) (processed_messages full_monitor))))%Z ∧
  (Z.of_nat (length (processed_messages (after one_more full_monitor)))
     ≤ max_cache_size (after one_more full_monitor))%Z ∧
  Z.of_nat (length (processed_messages (after one_more full_monitor)))
    = (max_cache_size full_monitor `div` 2)%Z.
Proof.
  assert (reachable (default_config []) full_monitor) as Hreach
    by apply deliver_reachable, reach_init.
  assert (max_cache_size full_monitor <
     Z.of_nat (length (set_add (hash_of 1001) (processed_messages full_monitor))))%Z as Hbig.
  { pose proof full_monitor_run as Hrun. cbv zeta in Hrun.
    repeat apply pair_equal_spec in Hrun as [Hrun ?].
    destruct (reachable_inv _ _ Hreach) as [-> _].
    match goal with Hlen : length _ = 1001%nat |- _ => rewrite Hlen end. reflexivity. }
  split; [exact Hreach|]. split; [exact Hbig|].
  pose proof (cache_bounded (default_config []) full_monitor ftt_message
                (cps "kormushka_mexc") 1001 Hreach) as Hb.
  cbv zeta in Hb. split; [exact (proj1 Hb)|exact (proj2 Hb Hbig)].
Defined.


(** *** The contract locator *)

(** Witness of X1: The direct-mint strategy on the message with a [CA:] mint. *)
Lemma direct_mint_is_whole_word_witness :
  direct_mint solana_gmgn_message = true ∧
  ∃ pre a post,
    solana_gmgn_message = pre ++ a ++ post ∧
    (32 ≤ length a ≤ 44)%nat ∧ all_in base58 a ∧
    last_word false pre = false ∧ next_word post = false ∧
    extract_contract_info solana_gmgn_message =
      Ok (Some {| type_ := cps "gmgn"; chain := Some (cps "sol"); contract := Some a;
                  url := cps "https://gmgn.ai/sol/token/" ++ a |}).
Proof.
  assert (direct_mint solana_gmgn_message = true) as Hmint by (vm_compute; reflexivity).
  split; [exact Hmint|].
  exact (direct_mint_is_whole_word solana_gmgn_message Hmint).
Defined.

(** Witness of X2: The gmgn.ai link of the kormushka message. *)
Lemma gmgn_link_is_copied_witness :
  direct_mint ftt_gmgn_message = false ∧
  is_Some (re_search gmgn_re ftt_gmgn_message) ∧
  ∃ pre c a post,
    ftt_gmgn_message = pre ++ (cps "gmgn.ai/" ++ c ++ cps "/token/" ++ a) ++ post ∧
    c ≠ [] ∧ Forall (λ x, is_word x = true) c ∧
    a ≠ [] ∧ (all_in hexx a ∨ all_in base58 a) ∧
    extract_contract_info ftt_gmgn_message =
      Ok (Some {| type_ := cps "gmgn"; chain := Some c; contract := Some a;
                  url := cps "https://" ++ (cps "gmgn.ai/" ++ c ++ cps "/token/" ++ a) |}).
Proof.
  assert (direct_mint ftt_gmgn_message = false) as Hno by (vm_compute; reflexivity).
  assert (is_Some (re_search gmgn_re ftt_gmgn_message)) as Hgm.
  { destruct (re_search gmgn_re ftt_gmgn_message) eqn:Hm;
      [eexists; reflexivity|vm_compute in Hm; discriminate Hm]. }
  split; [exact Hno|]. split; [exact Hgm|].
  exact (gmgn_link_is_copied ftt_gmgn_message Hno Hgm).
Defined.

(** Witness of X3: The bare dexscreener link ends at the closing parenthesis. *)
Lemma dexscreener_contract_runs_to_parenthesis_witness :
  direct_mint dexscreener_message = false ∧
  re_search gmgn_re dexscreener_message = None ∧
  re_search ca_re dexscreener_message = None ∧
  re_search contract_re dexscreener_message = None ∧
  is_Some (re_search dexscreener_re dexscreener_message) ∧
  ∃ pre c a post,
    dexscreener_message = pre ++ cps "dexscreener.com/" ++ c ++ cps "/" ++ a ++ post ∧
    c ≠ [] ∧ Forall (λ x, is_word x = true) c ∧
    a ≠ [] ∧ (41 ∉ a) ∧ match post with [] => True | x :: _ => x = 41 end ∧
    extract_contract_info dexscreener_message =
      Ok (Some {| type_ := cps "dexscreener"; chain := Some (gmgn_chain c);
                  contract := Some a;
                  url := cps "https://gmgn.ai/" ++ gmgn_chain c ++ cps "/token/" ++ a |}).
Proof.
  assert (direct_mint dexscreener_message = false) as Hno by (vm_compute; reflexivity).
  assert (re_search gmgn_re dexscreener_message = None) as Hgm by (vm_compute; reflexivity).
  assert (re_search ca_re dexscreener_message = None) as Hca by (vm_compute; reflexivity).
  assert (re_search contract_re dexscreener_message = None) as Hco by (vm_compute; reflexivity).
  assert (is_Some (re_search dexscreener_re dexscreener_message)) as Hdx.
  { destruct (re_search dexscreener_re dexscreener_message) eqn:Hm;
      [eexists; reflexivity|vm_compute in Hm; discriminate Hm]. }
  split; [exact Hno|]. split; [exact Hgm|]. split; [exact Hca|]. split; [exact Hco|].
  split; [exact Hdx|].
  exact (dexscreener_contract_runs_to_parenthesis dexscreener_message Hno Hgm Hca Hco Hdx).
Defined.

(** Without a closing parenthesis the contract of a dexscreener link
    runs to the end of the message, over spaces and line breaks. *)
Example dexscreener_contract_without_parenthesis :
  extract_contract_info (cps "chart: dexscreener.com/bsc/0xabc today" ++ nl ++ cps "more") =
    Ok (Some {| type_ := cps "dexscreener"; chain := Some (cps "bsc");
                contract := Some (cps "0xabc today" ++ nl ++ cps "more");
                url := cps "https://gmgn.ai/bsc/token/0xabc today" ++ nl ++ cps "more" |}).
Proof. by vm_compute. Qed.

(** Witness of X25: A [CA:] field and nothing else: the chain is [eth]. *)
Lemma labelled_contract_defaults_to_eth_witness :
  direct_mint bare_ca_message = false ∧
  re_search gmgn_re bare_ca_message = None ∧
  re_search dexscreener_chain_re bare_ca_message = None ∧
  ∃ tok, extract_contract_info bare_ca_message =
    Ok (Some {| type_ := cps "contract"; chain := Some (cps "eth"); contract := Some tok;
                url := cps "https://gmgn.ai/eth/token/" ++ tok |}).
Proof.
  assert (direct_mint bare_ca_message = false) as Hno by (vm_compute; reflexivity).
  assert (re_search gmgn_re bare_ca_message = None) as Hgm by (vm_compute; reflexivity).
  assert (re_search dexscreener_chain_re bare_ca_message = None) as Hdx
    by (vm_compute; reflexivity).
  assert (match re_search ca_re bare_ca_message with
          | Some _ => re_search chain_re bare_ca_message = None
          | None => is_Some (re_search contract_re bare_ca_message) ∧
                    re_search network_re bare_ca_message = None
          end) as Hlabel by (vm_compute; reflexivity).
  split; [exact Hno|]. split; [exact Hgm|]. split; [exact Hdx|].
  exact (labelled_contract_defaults_to_eth bare_ca_message Hno Hgm Hdx Hlabel).
Defined.

(** The [CA:] strategy does not read a [network:] field, and [Chain:]
    is matched with its capital letter only. *)
Example ca_ignores_network_field :
  extract_contract_info (cps "CA: 0xabc" ++ nl ++ cps "network: BEP20") =
    Ok (Some {| type_ := cps "contract"; chain := Some (cps "eth");
                contract := Some (cps "0xabc");
                url := cps "https://gmgn.ai/eth/token/0xabc" |}) ∧
  extract_contract_info (cps "CA: 0xabc" ++ nl ++ cps "chain: bsc") =
    Ok (Some {| type_ := cps "contract"; chain := Some (cps "eth");
                contract := Some (cps "0xabc");
                url := cps "https://gmgn.ai/eth/token/0xabc" |}) ∧
  extract_contract_info (cps "CA: 0xabc" ++ nl ++ cps "Chain: BSC") =
    Ok (Some {| type_ := cps "contract"; chain := Some (cps "bsc");
                contract := Some (cps "0xabc");
                url := cps "https://gmgn.ai/bsc/token/0xabc" |}).
Proof. by vm_compute. Qed.

(** Witness of X12: *** The chain normaliser and the blacklist *)

Lemma gmgn_chain_ascii_witness :
  forallb is_ascii (cps "Ethereum") = true ∧
  gmgn_chain (upper (cps "Ethereum")) = gmgn_chain (cps "Ethereum") ∧
  gmgn_chain (lower (cps "Ethereum")) = gmgn_chain (cps "Ethereum") ∧
  gmgn_chain (gmgn_chain (cps "Ethereum")) = gmgn_chain (cps "Ethereum").
Proof.
  assert (forallb is_ascii (cps "Ethereum") = true) as Hascii by (vm_compute; reflexivity).
  split; [exact Hascii|].
  exact (gmgn_chain_ascii (cps "Ethereum") Hascii).
Defined.

(** Witness of X13. *)
Lemma blacklist_ignores_ticker_case_witness :
  forallb is_ascii (cps "doge") = true ∧ forallb is_ascii (cps "DoGe") = true ∧
  lower (cps "doge") = lower (cps "DoGe") ∧
  is_ticker_blacklisted (Some (cps "doge")) (init (default_config [cps "DOGE"])) =
  is_ticker_blacklisted (Some (cps "DoGe")) (init (default_config [cps "DOGE"])).
Proof.
  assert (forallb is_ascii (cps "doge") = true) as H1 by (vm_compute; reflexivity).
  assert (forallb is_ascii (cps "DoGe") = true) as H2 by (vm_compute; reflexivity).
  assert (lower (cps "doge") = lower (cps "DoGe")) as H3 by (vm_compute; reflexivity).
  split; [exact H1|]. split; [exact H2|]. split; [exact H3|].
  exact (blacklist_ignores_ticker_case (init (default_config [cps "DOGE"]))
           (cps "doge") (cps "DoGe") H1 H2 H3).
Defined.

(** Witness of X14: A blacklist written in lower case stops nothing. *)
Lemma lower_case_entries_block_nothing_witness :
  forallb is_ascii (cps "DOGE") = true ∧
  (∀ e, e ∈ blacklisted_tickers (init (default_config [cps "doge"])) →
        ∃ c, c ∈ e ∧ in_range 97 122 c = true) ∧
  is_ticker_blacklisted (Some (cps "DOGE")) (init (default_config [cps "doge"])) =
    (Ok false, init (default_config [cps "doge"]), []).
Proof.
  assert (forallb is_ascii (cps "DOGE") = true) as Hascii by (vm_compute; reflexivity).
  assert (∀ e, e ∈ blacklisted_tickers (init (default_config [cps "doge"])) →
               ∃ c, c ∈ e ∧ in_range 97 122 c = true) as Hentries.
  { intros e He. change (e ∈ (list_to_set [cps "doge"] : gset (list N))) in He.
    apply elem_of_list_to_set, list_elem_of_singleton in He. subst e.
    exists 100. split; [|reflexivity].
    refine (bool_decide_eq_true_1 _ _). vm_compute. reflexivity. }
  split; [exact Hascii|]. split; [exact Hentries|].
  exact (lower_case_entries_block_nothing (init (default_config [cps "doge"]))
           (cps "DOGE") Hascii Hentries).
Defined.

(** *** [process_message] *)

(** Witness of X5: A message that holds no ticker. *)
Lemma silent_without_signal_witness :
  signal (extract_ticker_data (cps "good morning") (cps "kormushka_mexc")
            (init (default_config []))).1.1 = None ∧
  let r := process_message (cps "good morning") (cps "kormushka_mexc") 1
             (init (default_config [])) in
  r.2 = [] ∧ (r.1.1 = Ok Duplicate ∨ r.1.1 = Ok NoTicker) ∧
  tickers_found (stats r.1.2) = tickers_found (stats (init (default_config []))) ∧
  errors (stats r.1.2) = errors (stats (init (default_config []))).
Proof.
  assert (signal (extract_ticker_data (cps "good morning") (cps "kormushka_mexc")
                    (init (default_config []))).1.1 = None) as Hsig
    by (vm_compute; reflexivity).
  split; [exact Hsig|].
  exact (silent_without_signal (cps "good morning") (cps "kormushka_mexc") 1
           (init (default_config [])) Hsig).
Defined.

(** With [stats_interval] 0 and [max_errors] 2: the first signal is
    served and counted as an error, the second shuts the monitor down. *)
Example scenario_zero_interval :
  let first := process_message ftt_gmgn_message (cps "kormushka_mexc") 1
                 (init (config_with 0 2)) in
  let second := process_message ftt_gmgn_message (cps "kormushka_mexc") 2 first.1.2 in
  first.1.1 = Ok (Failed ZeroDivisionError) ∧
  head first.2 = Some (Clipboard (cps "MEXC:FTTUSDT.p")) ∧
  second.1.1 = Ok Exited ∧ errors (stats second.1.2) = 2%Z ∧
  last second.2 = Some (Exit 1).
Proof. by vm_compute. Qed.

(** The statistics are printed with the tenth message when it is
    handled, and not when it has no ticker. *)
Example scenario_stats :
  let nine := deliver ftt_message (cps "kormushka_mexc") (first_ids 9)
                (init (default_config [])) in
  last (process_message ftt_message (cps "kormushka_mexc") 10 nine).2 = Some PrintStats ∧
  (process_message (cps "good morning") (cps "kormushka_mexc") 10 nine).2 = [].
Proof. by vm_compute. Qed.

(** Witness of X10. *)
Lemma counters_consistent_witness :
  reachable (default_config [])
    (after (process_message ftt_gmgn_message (cps "kormushka_mexc") 7)
           (init (default_config []))) ∧
  stats_inv (after (process_message ftt_gmgn_message (cps "kormushka_mexc") 7)
                   (init (default_config []))).
Proof.
  assert (reachable (default_config [])
            (after (process_message ftt_gmgn_message (cps "kormushka_mexc") 7)
                   (init (default_config [])))) as Hreach
    by apply reach_step, reach_init.
  split; [exact Hreach|].
  exact (counters_consistent (default_config []) _ Hreach).
Defined.

(** Witness of X27. *)
Lemma run_keeps_configuration_witness :
  reachable (default_config [cps "DOGE"])
    (after (process_message doge_message (cps "mexcTracker") 7)
           (init (default_config [cps "DOGE"]))) ∧
  config (after (process_message doge_message (cps "mexcTracker") 7)
                (init (default_config [cps "DOGE"]))) = default_config [cps "DOGE"].
Proof.
  assert (reachable (default_config [cps "DOGE"])
            (after (process_message doge_message (cps "mexcTracker") 7)
                   (init (default_config [cps "DOGE"])))) as Hreach
    by apply reach_step, reach_init.
  split; [exact Hreach|].
  exact (proj1 (run_keeps_configuration (default_config [cps "DOGE"]) _ Hreach)).
Defined.

(** Witness of X11: Two texts of 103 characters that differ in the last three. *)
Lemma same_prefix_is_duplicate_witness :
  reachable (default_config []) (init (default_config [])) ∧
  (length (processed_messages (init (default_config []))) < 1000)%nat ∧
  take 100 (long_message "one") = take 100 (long_message "two") ∧
  long_message "one" ≠ long_message "two" ∧
  let self' := after (process_message (long_message "one") (cps "kormushka_mexc") 3)
                     (init (default_config [])) in
  process_message (long_message "two") (cps "kormushka_mexc") 3 self'
    = (Ok Duplicate, self', []).
Proof.
  assert (reachable (default_config []) (init (default_config []))) as Hreach
    by apply reach_init.
  assert (length (processed_messages (init (default_config []))) < 1000)%nat as Hroom
    by (simpl; lia).
  assert (take 100 (long_message "one") = take 100 (long_message "two")) as Hpre
    by (vm_compute; reflexivity).
  split; [exact Hreach|]. split; [exact Hroom|]. split; [exact Hpre|].
  split; [vm_compute; discriminate|].
  exact (same_prefix_is_duplicate (default_config []) (init (default_config []))
           (long_message "one") (long_message "two") (cps "kormushka_mexc") 3
           Hreach Hroom Hpre).
Defined.

(** *** The handler of new messages *)

(** The kormushka message as Telegram delivers it: the gmgn.ai link is
    behind a word of the text, and the handler makes it reach the
    locator. *)
Example scenario_hidden_link :
  extract_contract_info (msg_message (msg ftt_event)) = Ok None ∧
  ∃ self' notified,
    handle_new_message ftt_event (init (default_config [])) =
      (Ok (Some Handled), self',
       [Clipboard (cps "MEXC:FTTUSDT.p"); Browser ftt_link; Notification notified]).
Proof. split; [by vm_compute|]. eexists _, _. by vm_compute. Qed.

(** Witness of X15. *)
Lemma foreign_sender_is_ignored_witness :
  (∀ u name bot,
     sender stranger_event = Some (Some u) →
     monitored_bots (config (init (default_config []))) !! name = Some bot →
     username bot = u → enabled bot = false) ∧
  handle_new_message stranger_event (init (default_config []))
    = (Ok None, init (default_config []), []).
Proof.
  assert (∀ u name bot,
            sender stranger_event = Some (Some u) →
            monitored_bots (config (init (default_config []))) !! name = Some bot →
            username bot = u → enabled bot = false) as Hforeign.
  { intros u name bot Hs Hbot Hu. injection Hs as <-.
    apply elem_of_map_to_list in Hbot. vm_compute map_to_list in Hbot.
    repeat (apply elem_of_cons in Hbot as [Hbot|Hbot];
            [injection Hbot as -> ->; vm_compute in Hu; discriminate Hu|]).
    by apply elem_of_nil in Hbot. }
  split; [exact Hforeign|].
  exact (foreign_sender_is_ignored stranger_event (init (default_config [])) Hforeign).
Defined.

(** Witness of X16. *)
Lemma known_sender_is_dispatched_witness :
  let self := init (default_config []) in
  let name := cps "kormushka_mexc" in
  let text := with_urls (msg_message (msg ftt_event))
                (_collect_embedded_urls ftt_event ++ _collect_button_urls ftt_event) in
  let r := process_message text name (msg_id (msg ftt_event)) self in
  sender ftt_event = Some (Some name) ∧
  (∀ name' bot',
     monitored_bots (config self) !! name' = Some bot' →
     username bot' = name → enabled bot' = true → name' = name) ∧
  ∃ o, r.1.1 = Ok o ∧ handle_new_message ftt_event self = (Ok (Some o), r.1.2, r.2).
Proof.
  intros self name text r.
  assert (∀ name' bot',
            monitored_bots (config self) !! name' = Some bot' →
            username bot' = name → enabled bot' = true → name' = name) as Huniq.
  { intros name' bot' Hbot Hu _.
    apply elem_of_map_to_list in Hbot. vm_compute map_to_list in Hbot.
    repeat (apply elem_of_cons in Hbot as [Hbot|Hbot];
            [injection Hbot as -> ->; vm_compute in Hu; vm_compute;
             first [reflexivity|discriminate Hu]|]).
    by apply elem_of_nil in Hbot. }
  split; [reflexivity|]. split; [exact Huniq|].
  refine (known_sender_is_dispatched ftt_event self name name
            {| username := name; pattern := ticker_patterns.kormushka; enabled := true |}
            eq_refl _ _ _ eq_refl eq_refl Huniq).
  - vm_compute. discriminate.
  - vm_compute. discriminate.
  - vm_compute. reflexivity.
Defined.

(** Witness of X17. *)
Lemma collected_urls_come_from_the_message_witness :
  ftt_link ∈ _collect_embedded_urls stranger_event ++ _collect_button_urls stranger_event ∧
  ((∃ offset length pre post,
      MessageEntityUrl offset length ∈ default [] (msg_entities (msg stranger_event)) ∧
      ftt_link = slice offset (offset + length) (msg_message (msg stranger_event)) ∧
      msg_message (msg stranger_event) = pre ++ ftt_link ++ post) ∨
   (ftt_link ≠ [] ∧
    ((∃ offset length,
        MessageEntityTextUrl offset length (Some ftt_link)
          ∈ default [] (msg_entities (msg stranger_event))) ∨
     (∃ rows row btn,
        msg_rows (msg stranger_event) = Some rows ∧ row ∈ rows ∧ btn ∈ row ∧
        button_url btn = Some ftt_link)))).
Proof.
  assert (ftt_link ∈ _collect_embedded_urls stranger_event ++ _collect_button_urls stranger_event)
    as Hin.
  { refine (bool_decide_eq_true_1 _ _). vm_compute. reflexivity. }
  split; [exact Hin|].
  exact (collected_urls_come_from_the_message stranger_event ftt_link Hin).
Defined.

(** Witness of X18. *)
Lemma url_entity_yields_its_text_witness :
  msg_message (msg stranger_event) = cps "see " ++ cps "gmgn.ai/eth/token/0xabc" ++ cps " now" ∧
  MessageEntityUrl (Z.of_nat (length (cps "see ")))
                   (Z.of_nat (length (cps "gmgn.ai/eth/token/0xabc")))
    ∈ default [] (msg_entities (msg stranger_event)) ∧
  cps "gmgn.ai/eth/token/0xabc" ∈ _collect_embedded_urls stranger_event.
Proof.
  assert (msg_message (msg stranger_event)
          = cps "see " ++ cps "gmgn.ai/eth/token/0xabc" ++ cps " now") as Htext
    by (vm_compute; reflexivity).
  assert (MessageEntityUrl (Z.of_nat (length (cps "see ")))
                           (Z.of_nat (length (cps "gmgn.ai/eth/token/0xabc")))
            ∈ default [] (msg_entities (msg stranger_event))) as Hent
    by (vm_compute; left).
  split; [exact Htext|]. split; [exact Hent|].
  exact (url_entity_yields_its_text stranger_event _ _ _ Htext Hent).
Defined.

(** A URL entity that starts after the end of the text adds an empty
    line to the text. *)
Example url_entity_beyond_the_text :
  let event := {| sender := Some (Some (cps "kormushka_mexc"));
                  msg := {| msg_message := cps "FTT"; msg_id := 1;
                            msg_entities := Some [MessageEntityUrl 10 5];
                            msg_rows := None |} |} in
  _collect_embedded_urls event = [[]] ∧
  with_urls (msg_message (msg event)) (_collect_embedded_urls event) = cps "FTT" ++ nl.
Proof. by vm_compute. Qed.

(** Witness of X24. *)
Lemma hidden_gmgn_link_is_located_witness :
  let text := msg_message (msg ftt_event) in
  let us := [cps "https://futures.mexc.com/exchange/FTT_USDT"] in
  direct_mint (with_urls text (us ++ ftt_link :: [])) = false ∧
  re_search gmgn_re (with_urls text us) = None ∧
  ∃ gm, re_search gmgn_re ftt_link = Some gm ∧
  ∃ c a,
    group gm 1 = Ok (Some c) ∧ group gm 2 = Ok (Some a) ∧
    extract_contract_info (with_urls text (us ++ ftt_link :: [])) =
      Ok (Some {| type_ := cps "gmgn"; chain := Some c; contract := Some a;
                  url := cps "https://gmgn.ai/" ++ c ++ cps "/token/" ++ a |}).
Proof.
  intros text us.
  assert (direct_mint (with_urls text (us ++ ftt_link :: [])) = false) as Hno
    by (vm_compute; reflexivity).
  assert (re_search gmgn_re (with_urls text us) = None) as Hbefore
    by (vm_compute; reflexivity).
  destruct (re_search gmgn_re ftt_link) as [gm|] eqn:Hgm;
    [|vm_compute in Hgm; discriminate Hgm].
  split; [exact Hno|]. split; [exact Hbefore|]. exists gm. split; [reflexivity|].
  exact (hidden_gmgn_link_is_located text us ftt_link [] gm Hno Hbefore Hgm).
Defined.

(** *** The stand-alone parser *)

(** The pumply message of the parser's own tests: the parser opens the
    address of the dexscreener link, the monitor the [contract:] field. *)
Example scenario_pumply :
  TelegramBotParser.handle_message pumply_message =
    (true, [Clipboard (cps "MEXC:RICEUSDT.p");
            Browser (cps "https://gmgn.ai/bsc/token/0x2afdf2cd0384a3b5d7836b70c8da5e73841ba826")]) ∧
  extract_contract_info pumply_message =
    Ok (Some {| type_ := cps "contract"; chain := Some (cps "bsc");
                contract := Some (cps "0xb5761f36FdFE2892f1b54Bc8EE8baBb2a1b698D3");
                url := cps "https://gmgn.ai/bsc/token/0xb5761f36FdFE2892f1b54Bc8EE8baBb2a1b698D3" |}).
Proof. by vm_compute. Qed.

(** Witness of X20. *)
Lemma parser_opens_gmgn_links_only_witness :
  let link := cps "https://gmgn.ai/arbitrum/token/0x25118290e6A5f4139381D072181157035864099d" in
  Browser link ∈ (TelegramBotParser.handle_message rain_message).2 ∧
  ∃ pre c a post,
    link = cps "https://gmgn.ai/" ++ c ++ cps "/token/" ++ a ∧
    c ≠ [] ∧ Forall (λ x, is_word x = true) c ∧ a ≠ [] ∧ all_in hexx a ∧
    (rain_message = pre ++ cps "dexscreener.com/" ++ c ++ cps "/" ++ a ++ post ∨
     rain_message = pre ++ cps "gmgn.ai/" ++ c ++ cps "/token/" ++ a ++ post).
Proof.
  intros link.
  assert (Browser link ∈ (TelegramBotParser.handle_message rain_message).2) as Hin
    by (vm_compute; right; left).
  split; [exact Hin|].
  exact (parser_opens_gmgn_links_only rain_message link Hin).
Defined.

(** Witness of X22. *)
Lemma monitor_agrees_with_parser_witness :
  let self := init (default_config []) in
  let bot := {| username := cps "kormushka_mexc"; pattern := ticker_patterns.kormushka;
                enabled := true |} in
  monitored_bots (config self) !! cps "kormushka_mexc" = Some bot ∧
  signal (extract_ticker_data ftt_gmgn_message (cps "kormushka_mexc") self).1.1 =
    p ← TelegramBotParser.parse_kormushka_message ftt_gmgn_message;
    if blocked self (TelegramBotParser.ticker p) then None
    else Some (TelegramBotParser.ticker p, TelegramBotParser.direction p).
Proof.
  intros self bot.
  assert (monitored_bots (config self) !! cps "kormushka_mexc" = Some bot) as Hbot
    by (vm_compute; reflexivity).
  split; [exact Hbot|].
  exact (monitor_agrees_with_parser self ftt_gmgn_message (cps "kormushka_mexc") bot
           TelegramBotParser.parse_kormushka_message Hbot
           (or_intror (or_introl (conj eq_refl (conj eq_refl eq_refl))))).
Defined.

(** Witness of X23. *)
Lemma integration_serves_listed_senders_witness :
  let e := Clipboard (cps "MEXC:RAINUSDT.p") in
  let sender := Some (Some (cps "mexcTracker")) in
  e ∈ TelegramIntegration.handle_new_message sender rain_message ∧
  (∃ name, sender = Some (Some name) ∧ name ∈ TelegramIntegration.bot_usernames) ∧
  ((∃ t, e = Clipboard (cps "MEXC:" ++ t ++ cps "USDT.p") ∧
         t ≠ [] ∧ Forall (λ c, is_word c = true) t) ∨
   (∃ c a, e = Browser (cps "https://gmgn.ai/" ++ c ++ cps "/token/" ++ a) ∧
           c ≠ [] ∧ Forall (λ x, is_word x = true) c ∧ a ≠ [] ∧ all_in hexx a)).
Proof.
  intros e sender.
  assert (e ∈ TelegramIntegration.handle_new_message sender rain_message) as Hin
    by (vm_compute; left).
  split; [exact Hin|].
  exact (integration_serves_listed_senders sender rain_message e Hin).
Defined.

(** The integration does not choose the grammar by the sender: a
    message in the layout of kormushka that mexcTracker sends is parsed
    as a kormushka message, and the monitor finds no ticker in it. *)
Example integration_is_sender_blind :
  TelegramIntegration.handle_new_message (Some (Some (cps "mexcTracker"))) ftt_message
    = [Clipboard (cps "MEXC:FTTUSDT.p")] ∧
  signal (extract_ticker_data ftt_message (cps "mexcTracker") (init (default_config []))).1.1
    = None.
Proof. by vm_compute. Qed.

End Concrete.

(** ** The tables that the text before a signal depends on *)

Section Blurred.
#[local] Existing Instance blurred.
#[local] Existing Instance slot_order.

(** What C6, amended, takes of the tables is needed: were [é] a word
    character and white space at once, the text [A ], which has no [%]
    and ends with a space, would change the ticker of [é | 1% | Long]. *)
Example leading_text_under_blurred_tables :
  is_Some (match_at ticker_patterns.mexc_tracker 0 false ([233] ++ cps " | 1% | Long")) ∧
  signal (extract_ticker_data ([233] ++ cps " | 1% | Long") (cps "mexcTracker")
            (init (default_config []))).1.1
    = Some (Some [233], Some (cps "Long")) ∧
  signal (extract_ticker_data (cps "A " ++ [233] ++ cps " | 1% | Long") (cps "mexcTracker")
            (init (default_config []))).1.1
    = Some (Some (cps "A"), Some (cps "Long")).
Proof.
  split; [|by vm_compute].
  destruct (match_at _ _ _ _) eqn:E; [done|]. by vm_compute in E.
Qed.
End Blurred.
